(** * cement.core.template: the template loader and the template copier

    A shallow embedding of [TemplateHandler.load] (with its two helpers
    [_load_template_from_file] and [_load_template_from_module]) and of
    [TemplateHandler.copy] from [cement/core/template.py], over an explicit
    model of the part of the Python runtime they touch: [str] methods,
    [os.path], a file system, [sys.modules] / [pkgutil], [re] and [shutil].

    Modelling conventions.

    - A Python [bytes] is a Rocq [string], and a Python [str] is
      represented by its bytes in the encoding that [open] uses in text
      mode.  Bytes that are no valid encoding have no text: reading them in
      text mode raises [UnicodeDecodeError].  Reads in text mode translate
      newlines.
    - The file system is a finite map from normalised absolute POSIX paths to
      nodes (there are no symbolic links and no permission bits).  The
      root directory always exists.  A call of the operating system is
      modelled when its path is its own absolute normal form, which is then
      the key of the node; with any other path the run leaves the model.
    - Effects are threaded through a state-and-exception monad [M] over a
      [world]: the file system, [sys.modules], and the trace of the calls
      made to the outside (file system, import machinery, render).
    - [os.walk] is lazy: every directory is listed when the walk reaches it,
      in the then-current file system.  The walk is therefore driven by fuel.
    - An import succeeds or raises [ImportError]; either way it can leave
      further modules registered in [sys.modules] (parent packages and
      what they import).
    - Diagnostic logging ([LOG.debug], [self.app.log.debug]) has no influence
      on control flow and is left out.

    The argument handler of [cement2/ext/ext_argparse.py] is embedded in
    the module [ArgParse], over an interface for the parser it inherits. *)

From Stdlib Require Import Ascii String.
From stdpp Require Import gmap strings list fin_maps.

Open Scope string_scope.
Open Scope list_scope.
Open Scope nat_scope.

(** ** Python [str] methods used by the module *)

Module PyStr.

(** [s.startswith(p)] *)
Fixpoint startswith (p s : string) : bool :=
  match p, s with
  | "", _ => true
  | String a p', String b s' => if decide (a = b) then startswith p' s' else false
  | String _ _, "" => false
  end.

(** [s[n:]] *)
Fixpoint drop (n : nat) (s : string) : string :=
  match n, s with
  | S n', String _ s' => drop n' s'
  | _, _ => s
  end.

(** [s.lstrip(c)] for a one-character set. *)
Fixpoint lstrip (c : ascii) (s : string) : string :=
  match s with
  | String a s' => if decide (a = c) then lstrip c s' else s
  | "" => ""
  end.

(** [s.rstrip(c)] for a one-character set. *)
Fixpoint rstrip (c : ascii) (s : string) : string :=
  match s with
  | String a s' =>
      match rstrip c s' with
      | "" => if decide (a = c) then "" else String a ""
      | r => String a r
      end
  | "" => ""
  end.

(** [s.split(c)]: never empty, [''.split('/') == ['']]. *)
Fixpoint split (c : ascii) (s : string) : list string :=
  match s with
  | "" => [""]
  | String a s' =>
      if decide (a = c) then "" :: split c s'
      else match split c s' with
           | h :: t => String a h :: t
           | [] => [String a ""]
           end
  end.

(** [s.replace(a, b)] for single characters. *)
Fixpoint replace_char (a b : ascii) (s : string) : string :=
  match s with
  | "" => ""
  | String x s' => String (if decide (x = a) then b else x) (replace_char a b s')
  end.

(** [(p[:i], p[i:])] with [i = p.rfind(c) + 1]; [None] when [c] does not
    occur (then [i = 0]). *)
Fixpoint rpartition (c : ascii) (s : string) : option (string * string) :=
  match s with
  | "" => None
  | String a s' =>
      match rpartition c s' with
      | Some (h, t) => Some (String a h, t)
      | None => if decide (a = c) then Some (String a "", s') else None
      end
  end.

(** [(p[:i], p[i:])] with [i = p.find(c)]; the whole string and [""] when
    [c] does not occur. *)
Fixpoint break_at (c : ascii) (s : string) : string * string :=
  match s with
  | "" => ("", "")
  | String a s' =>
      if decide (a = c) then ("", s)
      else let '(h, t) := break_at c s' in (String a h, t)
  end.

(** What a read in text mode returns for the stored bytes: [open(p, 'r')]
    translates ["\r\n"] and ["\r"] to ["\n"]. *)
Fixpoint universal_newlines (s : string) : string :=
  match s with
  | "" => ""
  | String a s' =>
      if decide (a = "013"%char) then
        match s' with
        | String b s'' =>
            if decide (b = "010"%char) then String "010"%char (universal_newlines s'')
            else String "010"%char (universal_newlines s')
        | "" => String "010"%char ""
        end
      else String a (universal_newlines s')
  end.

End PyStr.

(** ** [os.path] (posixpath) *)

Module OsPath.

Definition sep : ascii := "/"%char.

Definition isabs (p : string) : bool := PyStr.startswith "/" p.

(** [os.path.join(a, b)] *)
Definition join (a b : string) : string :=
  if PyStr.startswith "/" b then b
  else if decide (a = "") then b
  else if decide (PyStr.rstrip sep a = a) then a +:+ "/" +:+ b
  else a +:+ b.

(** The loop of [normpath]; [acc] is [new_comps] reversed. *)
Fixpoint norm_comps (rooted : bool) (acc comps : list string) : list string :=
  match comps with
  | [] => rev acc
  | comp :: rest =>
      if decide (comp = "" ∨ comp = ".") then norm_comps rooted acc rest
      else if decide (comp ≠ "..") then norm_comps rooted (comp :: acc) rest
      else match acc with
           | [] => if rooted then norm_comps rooted acc rest
                   else norm_comps rooted (comp :: acc) rest
           | top :: acc' =>
               if decide (top = "..") then norm_comps rooted (comp :: acc) rest
               else norm_comps rooted acc' rest
           end
  end.

(** [os.path.normpath] *)
Definition normpath (path : string) : string :=
  if decide (path = "") then "."
  else
    let initial_slashes :=
      if PyStr.startswith "/" path then
        if PyStr.startswith "//" path && negb (PyStr.startswith "///" path)
        then "//" else "/"
      else "" in
    let new_comps :=
      norm_comps (PyStr.startswith "/" path) [] (PyStr.split sep path) in
    let path' := initial_slashes +:+ String.concat "/" new_comps in
    if decide (path' = "") then "." else path'.

(** A component that [normpath] keeps: a name. *)
Definition name_like (c : string) : Prop :=
  c ≠ "" ∧ c ≠ "." ∧ c ≠ ".." ∧ PyStr.split sep c = [c].

(** [os.path.abspath], with the process's working directory [cwd]. *)
Definition abspath (cwd : string) (path : string) : string :=
  normpath (if isabs path then path else join cwd path).

(** [os.path.split] *)
Definition split (p : string) : string * string :=
  match PyStr.rpartition sep p with
  | None => ("", p)
  | Some (head, tail) =>
      (if decide (PyStr.lstrip sep head = "") then head else PyStr.rstrip sep head,
       tail)
  end.

Definition dirname (p : string) : string := (split p).1.
Definition basename (p : string) : string := (split p).2.

(** [os.path.expanduser]; [home_of ""] is the home of the current user
    ([$HOME], or the password database), [home_of name] the home of
    [name]; [None] when the lookup fails. *)
Definition expanduser (home_of : string → option string) (path : string) : string :=
  match path with
  | String "~" rest =>
      let '(name, tail) := PyStr.break_at sep rest in
      match home_of name with
      | None => path
      | Some userhome =>
          let r := PyStr.rstrip sep userhome +:+ tail in
          if decide (r = "") then "/" else r
      end
  | _ => path
  end.

End OsPath.

(** ** The world: file system, [sys.modules], and the trace of outside calls *)

Inductive node : Type :=
  | File (content : string)
  | Dir.

#[global] Instance node_eq_dec : EqDecision node.
Proof. solve_decision. Defined.

(** Calls that leave the handler: one constructor per primitive. *)
Inductive event : Type :=
  | EvExists (path : string)                (* os.path.exists *)
  | EvIsdir (path : string)                 (* os.path.isdir *)
  | EvScandir (path : string)               (* the listing made by os.walk *)
  | EvRead (path : string)                  (* open(path, 'r').read() *)
  | EvWrite (path content : string)         (* open(path, 'w').write(content) *)
  | EvMakedirs (path : string)              (* os.makedirs *)
  | EvCopyfile (src dst : string)           (* the byte copy inside shutil.copy *)
  | EvImport (module : string)              (* __import__ *)
  | EvGetData (package resource : string)   (* pkgutil.get_data *)
  | EvRender (content : string).            (* self.render *)

Inductive exn : Type :=
  | AssertionError (msg : string)
  | FrameworkError (msg : string)
  | ReError
  | FileNotFoundError (path : string)
  | IsADirectoryError (path : string)
  | NotADirectoryError (path : string)
  | FileExistsError (path : string)
  | SameFileError (src dst : string)
  | UnicodeDecodeError.

Record world : Type := World {
  w_fs : gmap string node;
  w_modules : gset string;
  w_trace : list event;
}.

(** The result of a computation: a value, a Python exception, the walk
    ran out of fuel, or the run made a call that the model does not
    describe. *)
Inductive outcome (A : Type) : Type :=
  | Ok (a : A)
  | Raise (e : exn)
  | OutOfFuel
  | Unmodelled.
Arguments Ok {A} a.
Arguments Raise {A} e.
Arguments OutOfFuel {A}.
Arguments Unmodelled {A}.

Definition M (A : Type) : Type := world → outcome A * world.

#[global] Instance M_ret : MRet M := λ A a w, (Ok a, w).
#[global] Instance M_bind : MBind M := λ A B k m w,
  match m w with
  | (Ok a, w') => k a w'
  | (Raise e, w') => (Raise e, w')
  | (OutOfFuel, w') => (OutOfFuel, w')
  | (Unmodelled, w') => (Unmodelled, w')
  end.

Definition raise {A : Type} (e : exn) : M A := λ w, (Raise e, w).
Definition out_of_fuel {A : Type} : M A := λ w, (OutOfFuel, w).
Definition unmodelled {A : Type} : M A := λ w, (Unmodelled, w).
Definition log (w : world) (es : list event) : world :=
  World (w_fs w) (w_modules w) (w_trace w ++ es).
Definition emit (e : event) : M unit := λ w, (Ok (), log w [e]).
Definition get_world : M world := λ w, (Ok w, w).
Definition set_fs (fs : gmap string node) : M unit :=
  λ w, (Ok (), World fs (w_modules w) (w_trace w)).
Definition set_modules (ms : gset string) : M unit :=
  λ w, (Ok (), World (w_fs w) ms (w_trace w)).

(** [for x in xs: body(x)] *)
Fixpoint for_each {A : Type} (xs : list A) (body : A → M unit) : M unit :=
  match xs with
  | [] => mret ()
  | x :: xs' => body x ;; for_each xs' body
  end.

(** What [pkgutil.get_data(package, resource)] does once the package is
    imported: returns the bytes, returns [None] (no usable loader), or lets
    the loader's [OSError] out. *)
Inductive get_data_result : Type :=
  | DataBytes (content : string)
  | DataNone
  | DataOSError.

(** The process environment, fixed during a call. *)
Class Env : Type := {
  (** the components of [os.getcwd()], which is always absolute *)
  cwd_names : list string;
  (** home directories, for [os.path.expanduser] *)
  home_of : string → option string;
  (** whether [__import__(name)] finds the module; when it does not, it
      raises [ImportError] *)
  importable : string → bool;
  (** the modules, besides [name] itself, that [__import__(name)] leaves
      registered in [sys.modules]: the parent packages it imports first
      and whatever their code imports; those imported before an
      [ImportError] stay registered *)
  import_registers : string → gset string;
  (** the resources of the importable packages *)
  package_data : string → string → get_data_result;
  (** whether the bytes are a valid encoding of text in the encoding that
      [open] uses in text mode ([locale.getpreferredencoding(False)]) *)
  decodable : string → bool;
}.

(** The regular-expression matcher behind Python's [re] module:
    [re_ends pattern string start] lists the positions at which a match of
    [pattern] that begins at position [start] of [string] can end, in the
    matcher's order of preference.  [None] stands for [re.error] (the
    pattern does not compile). *)
Class Re : Type := {
  re_ends : string → string → nat → option (list nat);
}.

Section ReFunctions.
Context `{Re}.

(** The truth value of [re.match(pattern, string)]: there is a match that
    begins at position 0; it may end anywhere. *)
Definition re_match (pattern s : string) : option bool :=
  es ← re_ends pattern s 0;
  Some (match es with [] => false | _ :: _ => true end).

(** The scan of [re.sub(pattern, '', string)] from position [i], [rest]
    being the string from there on: the leftmost match is dropped and the
    scan goes on where it ended; after an empty match the next match at
    the same position has to advance; where nothing matches one character
    is kept. *)
Fixpoint sub_scan (n : nat) (ends_at : nat → list nat) (i : nat) (rest : string)
    (must_advance : bool) : string :=
  match n with
  | 0 => rest
  | S n' =>
      let es := ends_at i in
      let es := if must_advance then filter (λ j, i < j) es else es in
      match es with
      | j :: _ => sub_scan n' ends_at j (PyStr.drop (j - i) rest) (Nat.eqb j i)
      | [] =>
          match rest with
          | "" => ""
          | String a rest' => String a (sub_scan n' ends_at (S i) rest' false)
          end
      end
  end.

(** [re.sub(pattern, '', string)] *)
Definition re_sub_empty (pattern s : string) : option string :=
  _ ← re_ends pattern s 0;
  Some (sub_scan (2 * String.length s + 2)
                 (λ i, default [] (re_ends pattern s i)) 0 s false).

End ReFunctions.

(** The template engine: [TemplateHandlerBase.render], the one abstract
    method that [load] and [copy] rely on. *)
Class TemplateHandlerBase (Data : Type) : Type := {
  render : string → Data → string;
}.

Section OperatingSystem.
Context `{Env}.

Definition getcwd : string := "/" +:+ String.concat "/" cwd_names.

(** The key under which the file system holds what [path] names: its
    absolute normal form.  The empty path resolves to nothing. *)
Definition resolve (path : string) : option string :=
  if decide (path = "") then None else Some (OsPath.abspath getcwd path).

(** The calls of the operating system are modelled for the paths that are
    their own absolute normal form, and for the empty path, which names
    nothing.  The handler passes such paths everywhere but in the loop
    over the sub-directories, whose joined path can have components like
    [..]; what the operating system makes of those depends on the
    directories they lead through, and a call with such a path ends the
    run outside the model. *)
Definition normalised (path : string) : bool :=
  bool_decide (path = "" ∨ OsPath.abspath getcwd path = path).

Definition in_model (path : string) : M unit :=
  if normalised path then mret () else unmodelled.

Definition is_root (key : string) : bool :=
  bool_decide (PyStr.lstrip OsPath.sep key = "").

Definition fs_lookup (fs : gmap string node) (key : string) : option node :=
  if is_root key then Some Dir else fs !! key.

Definition node_at (fs : gmap string node) (path : string) : option node :=
  key ← resolve path; fs_lookup fs key.

(** [os.path.exists(path)] *)
Definition os_path_exists (path : string) : M bool :=
  emit (EvExists path) ;;
  in_model path ;;
  w ← get_world;
  mret (bool_decide (is_Some (node_at (w_fs w) path))).

(** [os.path.isdir(path)] *)
Definition os_path_isdir (path : string) : M bool :=
  emit (EvIsdir path) ;;
  in_model path ;;
  w ← get_world;
  mret (bool_decide (node_at (w_fs w) path = Some Dir)).

(** The bytes of the regular file at [path], as [open] for reading finds
    them. *)
Definition read_bytes (path : string) : M string :=
  in_model path ;;
  w ← get_world;
  match node_at (w_fs w) path with
  | Some (File content) => mret content
  | Some Dir => raise (IsADirectoryError path)
  | None => raise (FileNotFoundError path)
  end.

(** Creating or truncating the regular file at [path], as [open] for
    writing does, and storing [content]: an existing regular file is
    replaced, a new one needs its parent directory. *)
Definition write_bytes (path content : string) : M unit :=
  in_model path ;;
  w ← get_world;
  match resolve path with
  | None => raise (FileNotFoundError path)
  | Some key =>
      match fs_lookup (w_fs w) key with
      | Some Dir => raise (IsADirectoryError path)
      | Some (File _) => set_fs (<[key := File content]> (w_fs w))
      | None =>
          match fs_lookup (w_fs w) (OsPath.dirname key) with
          | Some Dir => set_fs (<[key := File content]> (w_fs w))
          | Some (File _) => raise (NotADirectoryError path)
          | None => raise (FileNotFoundError path)
          end
      end
  end.

(** Whether a regular file can be stored at [path]: one is there already,
    or nothing is there and the parent is a directory. *)
Definition can_write (fs : gmap string node) (path : string) : bool :=
  match resolve path with
  | None => false
  | Some key =>
      match fs_lookup fs key with
      | Some (File _) => true
      | Some Dir => false
      | None => bool_decide (fs_lookup fs (OsPath.dirname key) = Some Dir)
      end
  end.

(** The file system with [content] stored at [path]. *)
Definition written (fs : gmap string node) (path content : string) : gmap string node :=
  match resolve path with
  | Some key => <[key := File content]> fs
  | None => fs
  end.

(** [open(path, 'r').read()]: the bytes are decoded, then the newlines
    translated. *)
Definition open_read (path : string) : M string :=
  emit (EvRead path) ;;
  content ← read_bytes path;
  if decodable content then mret (PyStr.universal_newlines content)
  else raise UnicodeDecodeError.

(** [f = open(path, 'w'); f.write(content); f.close()] *)
Definition open_write (path content : string) : M unit :=
  emit (EvWrite path content) ;;
  write_bytes path content.

(** The proper ancestors of a key, outermost first, the root left out. *)
Fixpoint ancestors_fuel (n : nat) (key : string) : list string :=
  match n with
  | 0 => []
  | S n' =>
      let head := OsPath.dirname key in
      if is_root head || bool_decide (head = key) then []
      else ancestors_fuel n' head ++ [head]
  end.
Definition ancestors (key : string) : list string :=
  ancestors_fuel (String.length key) key.

(** [mkdir -p] on the ancestors: the missing ones are created, a regular
    file in the way is an error. *)
Fixpoint mkdir_chain (path : string) (chain : list string)
    (fs : gmap string node) : exn + gmap string node :=
  match chain with
  | [] => inr fs
  | key :: rest =>
      match fs_lookup fs key with
      | Some Dir => mkdir_chain path rest fs
      | Some (File _) => inl (NotADirectoryError path)
      | None => mkdir_chain path rest (<[key := Dir]> fs)
      end
  end.

(** [os.makedirs(path)] ([exist_ok] is false: the leaf must be new). *)
Definition os_makedirs (path : string) : M unit :=
  emit (EvMakedirs path) ;;
  in_model path ;;
  w ← get_world;
  match resolve path with
  | None => raise (FileNotFoundError path)
  | Some key =>
      match fs_lookup (w_fs w) key with
      | Some _ => raise (FileExistsError path)
      | None =>
          match mkdir_chain path (ancestors key) (w_fs w) with
          | inl e => raise e
          | inr fs' => set_fs (<[key := Dir]> fs')
          end
      end
  end.

(** [shutil.copy(src, dst)]: into [dst] when it is a directory, never onto
    the same file, bytes unchanged. *)
Definition shutil_copy (src dst : string) : M unit :=
  isdir ← os_path_isdir dst;
  let dst := if isdir : bool then OsPath.join dst (OsPath.basename src) else dst in
  in_model src ;;
  in_model dst ;;
  w ← get_world;
  if bool_decide (is_Some (node_at (w_fs w) src) ∧ resolve src = resolve dst)
  then raise (SameFileError src dst)
  else
    emit (EvCopyfile src dst) ;;
    content ← read_bytes src;
    write_bytes dst content.

(** The entries of the directory stored under [key]: every stored path
    that is [key] joined with a proper entry name. *)
Definition entries (fs : gmap string node) (key : string) : list (string * node) :=
  omap (λ kv : string * node,
          let name := OsPath.basename kv.1 in
          if bool_decide (name ≠ "" ∧ name ≠ "." ∧ name ≠ ".."
                          ∧ OsPath.join key name = kv.1)
          then Some (name, kv.2) else None)
       (map_to_list fs).

Definition is_dir_entry (e : string * node) : bool :=
  match e.2 with Dir => true | File _ => false end.

(** The listing step of [os.walk(top)]: the names of the sub-directories
    and of the other entries; [None] when [top] cannot be listed (the
    [OSError] is swallowed: [onerror] is [None]). *)
Definition listing (fs : gmap string node) (top : string)
    : option (list string * list string) :=
  key ← resolve top;
  match fs_lookup fs key with
  | Some Dir =>
      let es := entries fs key in
      Some ((filter is_dir_entry es).*1,
            (filter (λ e, negb (is_dir_entry e)) es).*1)
  | _ => None
  end.

Definition scandir (top : string) : M (option (list string * list string)) :=
  emit (EvScandir top) ;;
  in_model top ;;
  w ← get_world;
  mret (listing (w_fs w) top).

(** Modelled from the spec: [cement.utils.fs.abspath] is not part of the
    sources at hand; the spec has the paths "normalized to absolute
    form".  The model is the absolute, normalised path of the
    user-expanded argument. *)
Definition fs_abspath (path : string) : string :=
  OsPath.abspath getcwd (OsPath.expanduser home_of path).

End OperatingSystem.

(** ** [TemplateHandler] *)

(** [TemplateHandler.Meta]: the class-level defaults.  [None] is Python's
    [None]. *)
Record Meta : Type := {
  exclude : option (list string);
  ignore : option (list string);
}.

Definition Meta_default : Meta := {|
  exclude := Some [
    "^(.*)\.png$";
    "^(.*)\.jpg$";
    "^(.*)\.jpeg$";
    "^(.*)\.gif$";
    "^(.*)\.exe$";
    "^(.*)\.bin$";
    "^(.*)\.zip$";
    "^(.*)\.tar$";
    "^(.*)\.tar.gz$";
    "^(.*)\.tgz$";
    "^(.*)\.gz$";
    "^(.*)\.pyo$";
    "^(.*)\.pyc$"
  ];
  ignore := None;
|}.

(** A handler after [__init__]: the application's [template_dirs] and
    [template_module] ([self.app._meta]) and the handler's own pattern
    lists ([self._meta]). *)
Record TemplateHandler : Type := {
  template_dirs : list string;
  template_module : string;
  _meta_exclude : list string;
  _meta_ignore : list string;
}.

(** [__init__] replaces a [None] pattern list by [[]]. *)
Definition __init__ (dirs : list string) (module : string) (meta : Meta) : TemplateHandler := {|
  template_dirs := dirs;
  template_module := module;
  _meta_exclude := default [] (exclude meta);
  _meta_ignore := default [] (ignore meta);
|}.

(** The error kinds of the specification, as the exceptions the code raises
    for them. *)
Definition InvalidPathError (shown : string) : exn :=
  FrameworkError ("Invalid template path '" +:+ shown +:+ "'.").
Definition TemplateNotFoundError (template_path : string) : exn :=
  FrameworkError ("Could not locate template: " +:+ template_path).
Definition SourceNotFoundError (src : string) : exn :=
  AssertionError ("Source path " +:+ src +:+ " does not exist!").
Definition DestinationExistsError (_file_dest : string) : exn :=
  AssertionError ("Destination file already exists: " +:+ _file_dest +:+ " ").

Section Handler.
Context `{Env} `{Re} {Data : Type} `{TemplateHandlerBase Data}.
Variable self : TemplateHandler.

(** [self.render(content, data)], recorded in the trace. *)
Definition self_render (content : string) (data : Data) : M string :=
  emit (EvRender content) ;; mret (render content data).

(** A result of [re]: [re.error] becomes an exception. *)
Definition of_re {A : Type} (r : option A) : M A :=
  match r with
  | Some a => mret a
  | None => raise ReError
  end.

(** *** load *)

(** The path probed for [template_path] under [template_dir]. *)
Definition full_path (template_dir template_path : string) : string :=
  let template_prefix := PyStr.rstrip "/" template_dir in
  let template_path := PyStr.lstrip "/" template_path in
  fs_abspath (OsPath.join template_prefix template_path).

(** The trace of probing [template_path] under each of [dirs]. *)
Definition probes (dirs : list string) (template_path : string) : list event :=
  (λ d, EvExists (full_path d template_path)) <$> dirs.

(** The loop of [_load_template_from_file] over the remaining
    directories. *)
Fixpoint _load_template_from_file_loop (dirs : list string) (template_path : string)
    : M (option string * option string) :=
  match dirs with
  | [] => mret (None, None)
  | template_dir :: rest =>
      let full_path := full_path template_dir template_path in
      found ← os_path_exists full_path;
      if found : bool then
        content ← open_read full_path;
        mret (Some content, Some full_path)
      else _load_template_from_file_loop rest template_path
  end.

Definition _load_template_from_file (template_path : string)
    : M (option string * option string) :=
  _load_template_from_file_loop (template_dirs self) template_path.

Definition _load_template_from_module (template_path : string)
    : M (option string * option string) :=
  let template_module := template_module self in
  let template_path := PyStr.lstrip "/" template_path in
  let full_module_path :=
    template_module +:+ "." +:+ PyStr.replace_char "/" "." template_path in
  w ← get_world;
  imported ←
    (if bool_decide (template_module ∈ w_modules w) then mret true
     else
       emit (EvImport template_module) ;;
       if importable template_module
       then
         set_modules ({[template_module]} ∪ import_registers template_module
                      ∪ w_modules w) ;;
         mret true
       else
         set_modules (import_registers template_module ∪ w_modules w) ;;
         mret false);
  if imported : bool then
    emit (EvGetData template_module template_path) ;;
    match package_data template_module template_path with
    | DataBytes content => mret (Some content, Some full_module_path)
    | DataNone => mret (None, Some full_module_path)
    | DataOSError => mret (None, None)
    end
  else mret (None, None).

(** [load(template_path)]; the argument is [None] or a [str]. *)
Definition load (template_path : option string)
    : M (string * string * option string) :=
  match template_path with
  | None => raise (InvalidPathError "None")
  | Some "" => raise (InvalidPathError "")
  | Some template_path =>
      '(content, path) ← _load_template_from_file template_path;
      '(content, path, template_type) ←
        match content with
        | None =>
            '(content, path) ← _load_template_from_module template_path;
            mret (content, path, "module")
        | Some _ => mret (content, path, "directory")
        end;
      match content with
      | None => raise (TemplateNotFoundError template_path)
      | Some content => mret (content, template_type, path)
      end
  end.

(** *** copy *)

(** [for pattern in all_patterns: if re.match(pattern, _file): ...; break]
    and the flag it leaves; [None] when a pattern that is reached does
    not compile. *)
Fixpoint matches_any (all_patterns : list string) (_file : string) : option bool :=
  match all_patterns with
  | [] => Some false
  | pattern :: rest =>
      m ← re_match pattern _file;
      if m : bool then Some true else matches_any rest _file
  end.

Section Copy.
Variables (src dest : string) (data : Data) (force : bool)
          (exclude ignore : list string).

(** The body of [for _file in files]. *)
Definition copy_file (cur_dir cur_dir_dest _file : string) : M unit :=
  rendered ← self_render _file data;
  new_file ← of_re (re_sub_empty src rendered);
  let _file := fs_abspath (OsPath.join cur_dir _file) in
  let _file_dest := fs_abspath (OsPath.join cur_dir_dest new_file) in
  (if force then mret ()
   else
     present ← os_path_exists _file_dest;
     if present : bool then raise (DestinationExistsError _file_dest)
     else mret ()) ;;
  ignore_it ← of_re (matches_any (_meta_ignore self ++ ignore) _file);
  if ignore_it : bool then mret ()
  else
    exclude_it ← of_re (matches_any (_meta_exclude self ++ exclude) _file);
    if exclude_it : bool then shutil_copy _file _file_dest
    else
      content ← open_read (OsPath.join cur_dir _file);
      _file_content ← self_render content data;
      open_write _file_dest _file_content.

(** The body of [for sub_dir in sub_dirs]. *)
Definition copy_sub_dir (cur_dir_dest sub_dir : string) : M unit :=
  rendered ← self_render sub_dir data;
  new_sub_dir ← of_re (re_sub_empty src rendered);
  let sub_dir_dest := OsPath.join cur_dir_dest new_sub_dir in
  present ← os_path_exists sub_dir_dest;
  if present : bool then mret () else os_makedirs sub_dir_dest.

(** The body of [for cur_dir, sub_dirs, files in os.walk(src)]. *)
Definition copy_dir (cur_dir : string) (sub_dirs files : list string) : M unit :=
  if bool_decide (cur_dir = ".") then mret ()
  else
    cur_dir_dest ←
      (if bool_decide (cur_dir = src) then mret dest
       else
         rendered ← self_render cur_dir data;
         cur_dir_stub ← of_re (re_sub_empty src rendered);
         let cur_dir_stub := PyStr.lstrip "/" cur_dir_stub in
         let cur_dir_stub := PyStr.lstrip "\" cur_dir_stub in
         mret (OsPath.join dest cur_dir_stub));
    for_each sub_dirs (copy_sub_dir cur_dir_dest) ;;
    for_each files (copy_file cur_dir cur_dir_dest).

(** [os.walk(top)] with the loop body run at every directory it
    yields: list [top], run the body, then walk the sub-directories
    that were listed. *)
Fixpoint walk (fuel : nat) (top : string) : M unit :=
  match fuel with
  | 0 => out_of_fuel
  | S fuel' =>
      listing ← scandir top;
      match listing with
      | None => mret ()
      | Some (dirs, nondirs) =>
          copy_dir top dirs nondirs ;;
          for_each dirs (λ dirname, walk fuel' (OsPath.join top dirname))
      end
  end.

End Copy.

(** [copy(src, dest, data, force, exclude, ignore)] *)
Definition copy (fuel : nat) (src dest : string) (data : Data) (force : bool)
    (exclude ignore : option (list string)) : M bool :=
  let dest := fs_abspath dest in
  let src := fs_abspath src in
  let exclude := default [] exclude in
  let ignore := default [] ignore in
  src_exists ← os_path_exists src;
  if negb src_exists then raise (SourceNotFoundError src)
  else
    dest_exists ← os_path_exists dest;
    (if dest_exists : bool then mret () else os_makedirs dest) ;;
    walk src dest data force exclude ignore fuel src ;;
    mret true.

End Handler.

(** ** The discipline of the trace *)

(** [m] adds to the trace only events that satisfy [P], whatever its
    outcome. *)
Definition emits_only (P : event → Prop) {A : Type} (m : M A) : Prop :=
  ∀ w, ∃ es, w_trace (m w).2 = w_trace w ++ es ∧ Forall P es.

Section Permitted.
Context `{Re}.
Variables (self : TemplateHandler) (exclude ignore : list string).

(** What [copy] may do to a source file: copy its bytes only when no
    ignore pattern and some exclude pattern matches its path, read it as
    text only when no pattern of either list matches. *)
Definition permitted (e : event) : Prop :=
  match e with
  | EvCopyfile src _ =>
      matches_any (_meta_ignore self ++ ignore) src = Some false
      ∧ matches_any (_meta_exclude self ++ exclude) src = Some true
  | EvRead path =>
      matches_any (_meta_ignore self ++ ignore) path = Some false
      ∧ matches_any (_meta_exclude self ++ exclude) path = Some false
  | _ => True
  end.

End Permitted.

(** What the walk may list: absolute paths only. *)
Definition lists_absolute (e : event) : Prop :=
  match e with
  | EvScandir path => OsPath.isabs path = true ∧ path ≠ "."
  | _ => True
  end.

(** ** A reference model of [re] for a fragment of the pattern syntax

    Enough of Python's regular expressions to run the default exclude list
    and literal patterns: literals, [.], [^], [$], escaped punctuation,
    groups, [|], and the greedy [*], [+], [?].  A pattern outside the
    fragment is answered like one that does not compile. *)

Module ReModel.

Inductive regex : Type :=
  | Eps
  | Chr (c : ascii)
  | AnyChar
  | Bol
  | Eol
  | Cat (r1 r2 : regex)
  | Alt (r1 r2 : regex)
  | Star (r : regex).

Definition newline : ascii := "010"%char.

Definition is_alnum (c : ascii) : bool :=
  let n := nat_of_ascii c in
  (((48 <=? n) && (n <=? 57)) || ((65 <=? n) && (n <=? 90))
   || ((97 <=? n) && (n <=? 122)) || (n =? 95) || (128 <=? n))%nat.

Definition is_quantifier (c : ascii) : bool :=
  bool_decide (c = "*"%char ∨ c = "+"%char ∨ c = "?"%char ∨ c = "{"%char).

Definition repeatable (r : regex) : bool :=
  match r with Bol | Eol => false | _ => true end.

(** Recursive descent, one fuel unit per level. *)
Fixpoint parse_alt (n : nat) (s : list ascii) : option (regex * list ascii) :=
  match n with
  | 0 => None
  | S n' =>
      '(r1, s1) ← parse_cat n' s;
      match s1 with
      | "|"%char :: s2 => '(r2, s3) ← parse_alt n' s2; Some (Alt r1 r2, s3)
      | _ => Some (r1, s1)
      end
  end
with parse_cat (n : nat) (s : list ascii) : option (regex * list ascii) :=
  match n with
  | 0 => None
  | S n' =>
      match s with
      | [] => Some (Eps, s)
      | c :: _ =>
          if bool_decide (c = "|"%char ∨ c = ")"%char) then Some (Eps, s)
          else
            '(r1, s1) ← parse_rep n' s;
            '(r2, s2) ← parse_cat n' s1;
            Some (Cat r1 r2, s2)
      end
  end
with parse_rep (n : nat) (s : list ascii) : option (regex * list ascii) :=
  match n with
  | 0 => None
  | S n' =>
      '(r, s1) ← parse_atom n' s;
      match s1 with
      | q :: s2 =>
          if is_quantifier q then
            if negb (repeatable r) then None
            else if match s2 with q' :: _ => is_quantifier q' | [] => false end then None
            else if bool_decide (q = "*"%char) then Some (Star r, s2)
            else if bool_decide (q = "+"%char) then Some (Cat r (Star r), s2)
            else if bool_decide (q = "?"%char) then Some (Alt r Eps, s2)
            else None
          else Some (r, s1)
      | [] => Some (r, s1)
      end
  end
with parse_atom (n : nat) (s : list ascii) : option (regex * list ascii) :=
  match n with
  | 0 => None
  | S n' =>
      match s with
      | [] => None
      | c :: s1 =>
          if bool_decide (c = "("%char) then
            match s1 with
            | "?"%char :: _ => None
            | _ =>
                '(r, s2) ← parse_alt n' s1;
                match s2 with
                | ")"%char :: s3 => Some (r, s3)
                | _ => None
                end
            end
          else if bool_decide (c = "\"%char) then
            match s1 with
            | e :: s2 => if is_alnum e then None else Some (Chr e, s2)
            | [] => None
            end
          else if bool_decide (c = "."%char) then Some (AnyChar, s1)
          else if bool_decide (c = "^"%char) then Some (Bol, s1)
          else if bool_decide (c = "$"%char) then Some (Eol, s1)
          else if is_quantifier c || bool_decide (c = "["%char ∨ c = ")"%char) then None
          else Some (Chr c, s1)
      end
  end.

Definition compile (pattern : string) : option regex :=
  let s := list_ascii_of_string pattern in
  '(r, rest) ← parse_alt (4 * length s + 4) s;
  match rest with [] => Some r | _ => None end.

(** The ends of the matches of [r] that start at position [i], where
    [rest] is what is left of the subject, in the order in which a
    backtracking matcher finds them. *)
Fixpoint ends (r : regex) (i : nat) (rest : list ascii) : list (nat * list ascii) :=
  match r with
  | Eps => [(i, rest)]
  | Chr c =>
      match rest with
      | a :: t => if decide (a = c) then [(S i, t)] else []
      | [] => []
      end
  | AnyChar =>
      match rest with
      | a :: t => if decide (a = newline) then [] else [(S i, t)]
      | [] => []
      end
  | Bol => if decide (i = 0) then [(i, rest)] else []
  | Eol =>
      match rest with
      | [] => [(i, rest)]
      | [a] => if decide (a = newline) then [(i, rest)] else []
      | _ => []
      end
  | Cat r1 r2 => flat_map (λ jt, ends r2 jt.1 jt.2) (ends r1 i rest)
  | Alt r1 r2 => (ends r1 i rest ++ ends r2 i rest)%list
  | Star r1 =>
      (fix star (n : nat) (i : nat) (rest : list ascii) : list (nat * list ascii) :=
         match n with
         | 0 => [(i, rest)]
         | S n' =>
             (flat_map (λ jt, if Nat.ltb i jt.1 then star n' jt.1 jt.2 else [])
                       (ends r1 i rest)
              ++ [(i, rest)])%list
         end) (S (length rest)) i rest
  end.

Definition ends_at (pattern s : string) (start : nat) : option (list nat) :=
  r ← compile pattern;
  Some (ends r start (drop start (list_ascii_of_string s))).*1.

Definition re_model : Re := {| re_ends := ends_at |}.

End ReModel.

(** ** Literal patterns

    A source path without special characters is a pattern that matches
    itself; [occurs_in] is Python's [in] on strings. *)

Module ReLiteral.

(** A character that stands for itself in a pattern. *)
Definition plain (c : ascii) : bool :=
  negb (bool_decide (c ∈ ["("; ")"; "\"; "."; "^"; "$"; "*"; "+"; "?"; "{"; "["; "|"]%char)).

(** A pattern without special characters. *)
Definition literal (pattern : string) : bool :=
  forallb plain (list_ascii_of_string pattern).

(** What a literal pattern compiles to. *)
Fixpoint lit (s : list ascii) : ReModel.regex :=
  match s with
  | [] => ReModel.Eps
  | c :: s' => ReModel.Cat (ReModel.Chr c) (lit s')
  end.

(** [sub in s] *)
Fixpoint occurs_in (sub s : string) : bool :=
  PyStr.startswith sub s
  || match s with
     | "" => false
     | String _ s' => occurs_in sub s'
     end.

End ReLiteral.

(** ** The concrete scenario: literal token substitution over a small tree *)

Module Scenario.

(** [s.replace(old, new)] for a non-empty [old]; [skip] characters of a
    replaced occurrence are still to be dropped. *)
Fixpoint replace_go (old new : string) (skip : nat) (s : string) : string :=
  match s with
  | "" => ""
  | String a s' =>
      match skip with
      | S k => replace_go old new k s'
      | 0 =>
          if PyStr.startswith old s
          then new +:+ replace_go old new (String.length old - 1) s'
          else String a (replace_go old new 0 s')
      end
  end.

(** Literal token substitution: every [{{key}}] becomes its value. *)
Definition substitute (content : string) (data : list (string * string)) : string :=
  fold_left (λ acc kv, replace_go ("{{" +:+ kv.1 +:+ "}}") kv.2 0 acc) data content.

Definition engine : TemplateHandlerBase (list (string * string)) :=
  {| render := substitute |}.

(** Bytes below 128 only: what the ASCII encoding can decode. *)
Definition ascii_only (bytes : string) : bool :=
  forallb (λ c, nat_of_ascii c <? 128) (list_ascii_of_string bytes).

(** The process runs in [/work]; nothing is importable; text files are
    ASCII. *)
Definition env : Env := {|
  cwd_names := ["work"];
  home_of := λ _, None;
  importable := λ _, false;
  import_registers := λ _, ∅;
  package_data := λ _ _, DataOSError;
  decodable := ascii_only;
|}.

Definition handler : TemplateHandler := __init__ [] "" Meta_default.

Definition data : list (string * string) := [("name", "Acme")].

(** [src/{{name}}/readme.txt] holding [Hello {{name}}]; no [dest] yet. *)
Definition fs0 : gmap string node :=
  list_to_map [
    ("/work", Dir);
    ("/work/src", Dir);
    ("/work/src/{{name}}", Dir);
    ("/work/src/{{name}}/readme.txt", File "Hello {{name}}")
  ].

Definition world0 : world := World fs0 ∅ [].

Definition run_copy (fuel : nat) (src dest : string) (force : bool)
    (exclude ignore : option (list string)) : M bool :=
  @copy env ReModel.re_model _ engine handler fuel src dest data force exclude ignore.

(** The tree after [copy("src", "dest", data)]. *)
Definition fs0_copied : gmap string node :=
  list_to_map [
    ("/work", Dir);
    ("/work/src", Dir);
    ("/work/src/{{name}}", Dir);
    ("/work/src/{{name}}/readme.txt", File "Hello {{name}}");
    ("/work/dest", Dir);
    ("/work/dest/Acme", Dir);
    ("/work/dest/Acme/readme.txt", File "Hello Acme")
  ].

(** A source with a text file and an image, and a destination that
    already holds a file of the text file's name. *)
Definition fs1 : gmap string node :=
  list_to_map [
    ("/work", Dir);
    ("/work/src", Dir);
    ("/work/src/notes.txt", File "new {{name}}");
    ("/work/src/logo.png", File "PNG {{name}}");
    ("/work/dest", Dir);
    ("/work/dest/notes.txt", File "old")
  ].

Definition world1 : world := World fs1 ∅ [].

Definition run_copy_file (force : bool) (exclude ignore : list string)
    (_file : string) : M unit :=
  @copy_file env ReModel.re_model _ engine handler "/work/src" data force
    exclude ignore "/work/src" "/work/dest" _file.

(** Two template directories, the second one holding the template, and
    an importable template module with one resource. *)
Definition load_env : Env := {|
  cwd_names := ["work"];
  home_of := λ _, None;
  importable := λ m, bool_decide (m = "myapp.templates");
  import_registers := λ m, if bool_decide (m = "myapp.templates") then {["myapp"]} else ∅;
  package_data := λ m r,
    if bool_decide (m = "myapp.templates" ∧ r = "mail/hello.txt")
    then DataBytes "Hello from the package"
    else DataOSError;
  decodable := ascii_only;
|}.

Definition load_handler : TemplateHandler :=
  __init__ ["/etc/myapp/templates/"; "/work/templates"] "myapp.templates" Meta_default.

Definition bare_handler : TemplateHandler :=
  __init__ ["/etc/myapp/templates/"; "/work/templates"] "no.such.module" Meta_default.

Definition load_fs : gmap string node :=
  list_to_map [
    ("/work", Dir);
    ("/work/templates", Dir);
    ("/work/templates/index.html", File "<h1>{{title}}</h1>")
  ].

Definition load_world : world := World load_fs ∅ [].

End Scenario.

(** ** Further concrete cases *)

Module Cases.

(** Two source files whose names render to the same name. *)
Definition fs_twins : gmap string node :=
  list_to_map [
    ("/work", Dir);
    ("/work/src", Dir);
    ("/work/src/{{name}}.txt", File "first {{name}}");
    ("/work/src/Acme.txt", File "second");
    ("/work/dest", Dir)
  ].

Definition world_twins : world := World fs_twins ∅ [].

(** A context whose value is an absolute path, and a source file whose
    name is the token. *)
Definition data_abs : list (string * string) := [("name", "/tmp/x")].

Definition fs_abs : gmap string node :=
  list_to_map [
    ("/tmp", Dir);
    ("/work", Dir);
    ("/work/src", Dir);
    ("/work/src/{{name}}", File "to {{name}}");
    ("/work/dest", Dir)
  ].

Definition world_abs : world := World fs_abs ∅ [].

(** The directories of [Scenario.load_handler], each with one more
    trailing slash. *)
Definition slash_handler : TemplateHandler :=
  __init__ ["/etc/myapp/templates//"; "/work/templates/"] "myapp.templates" Meta_default.

(** A template directory with a sub-directory of templates. *)
Definition fs_mail : gmap string node :=
  list_to_map [
    ("/work", Dir);
    ("/work/templates", Dir);
    ("/work/templates/mail", Dir);
    ("/work/templates/mail/hello.txt", File "Hello {{name}}")
  ].

Definition world_mail : world := World fs_mail ∅ [].

(** A text file that is not text: its first byte, 255, is no valid
    encoding; the destination holds a file of its name. *)
Definition fs_binary : gmap string node :=
  list_to_map [
    ("/work", Dir);
    ("/work/src", Dir);
    ("/work/src/notes.txt", File (String "255"%char "{{name}}"));
    ("/work/dest", Dir);
    ("/work/dest/notes.txt", File "old")
  ].

Definition world_binary : world := World fs_binary ∅ [].

(** Two images whose names render to the same name. *)
Definition fs_pngs : gmap string node :=
  list_to_map [
    ("/work", Dir);
    ("/work/src", Dir);
    ("/work/src/{{name}}.png", File "PNG one");
    ("/work/src/Acme.png", File "PNG two");
    ("/work/dest", Dir)
  ].

Definition world_pngs : world := World fs_pngs ∅ [].

End Cases.

(** ** [cement2.ext.ext_argparse]: the argument handler

    [ArgParseArgumentHandler] sub-classes [argparse.ArgumentParser] and adds
    two attributes, [config] and [parsed_args].  The parser it inherits is
    a collaborator: its state and its two methods that the handler calls
    are the interface [ArgumentParser]. *)

Module ArgParse.

(** [argparse.ArgumentParser], as far as the handler relies on it.
    [add_argument] registers a declaration and returns the action, or
    raises; [parse_args] returns a namespace or raises ([SystemExit] after
    a usage error).  An argument list of [None] makes [parse_args] read
    [sys.argv], which is the parser's business. *)
Class ArgumentParser (Parser Decl Action Namespace Exn : Type) : Type := {
  base_add_argument : Parser → Decl → Exn + Action * Parser;
  parse_args : Parser → option (list string) → Exn + Namespace;
}.

Section Handler.
Context {Parser Decl Action Namespace Exn Config : Type}.
Context `{ArgumentParser Parser Decl Action Namespace Exn}.

(** The instance: the inherited parser state and the two attributes;
    [None] is Python's [None]. *)
Record ArgParseArgumentHandler : Type := {
  parser : Parser;
  config : option Config;
  parsed_args : option Namespace;
}.

(** [__init__]: the parser is built from the arguments it is given;
    [config] is set to [None], [parsed_args] is the class attribute. *)
Definition __init__ (built : Parser) : ArgParseArgumentHandler := {|
  parser := built;
  config := None;
  parsed_args := None;
|}.

(** [setup(config_obj)] *)
Definition setup (self : ArgParseArgumentHandler) (config_obj : Config)
    : ArgParseArgumentHandler :=
  {| parser := parser self; config := Some config_obj; parsed_args := parsed_args self |}.

(** [parse(arg_list)]: the result, and the instance afterwards. *)
Definition parse (self : ArgParseArgumentHandler) (arg_list : option (list string))
    : (Exn + Namespace) * ArgParseArgumentHandler :=
  match parse_args (parser self) arg_list with
  | inr ns =>
      (inr ns, {| parser := parser self; config := config self; parsed_args := Some ns |})
  | inl e => (inl e, self)
  end.

(** [add_argument], with the declaration it is given *)
Definition add_argument (self : ArgParseArgumentHandler) (decl : Decl)
    : (Exn + Action) * ArgParseArgumentHandler :=
  match base_add_argument (parser self) decl with
  | inr (action, parser') =>
      (inr action,
       {| parser := parser'; config := config self; parsed_args := parsed_args self |})
  | inl e => (inl e, self)
  end.

(** A host drives the handler by a sequence of calls and goes on after a
    call that raised. *)
Inductive call : Type :=
  | Setup (config_obj : Config)
  | Parse (arg_list : option (list string))
  | AddArgument (decl : Decl).

Definition after (self : ArgParseArgumentHandler) (c : call) : ArgParseArgumentHandler :=
  match c with
  | Setup config_obj => setup self config_obj
  | Parse arg_list => (parse self arg_list).2
  | AddArgument decl => (add_argument self decl).2
  end.

Definition after_all (self : ArgParseArgumentHandler) (calls : list call)
    : ArgParseArgumentHandler :=
  fold_left after calls self.

Definition is_setup (c : call) : bool :=
  match c with Setup _ => true | _ => false end.

End Handler.

Arguments ArgParseArgumentHandler : clear implicits.
Arguments call : clear implicits.

End ArgParse.

(** ** What a run keeps of the file system *)

(** [fs'] still holds everything that [fs] holds: a directory is still a
    directory, a regular file is still a regular file (its content may have
    changed). *)
Definition fs_kept (fs fs' : gmap string node) : Prop :=
  ∀ key,
    match fs_lookup fs key with
    | Some Dir => fs_lookup fs' key = Some Dir
    | Some (File _) => ∃ content, fs_lookup fs' key = Some (File content)
    | None => True
    end.

(** [m] keeps the file system in that sense, whatever its outcome. *)
Definition keeps_fs {A : Type} (m : M A) : Prop :=
  ∀ w, fs_kept (w_fs w) (w_fs (m w).2).

(** ** The file entries of one directory *)

Section Entries.
Context `{Env} `{Re} {Data : Type} `{TemplateHandlerBase Data}.
Variables (self : TemplateHandler) (src : string) (data : Data).
Variables (exclude ignore : list string) (cur_dir cur_dir_dest : string).

(** The source path of the entry [_file] of [cur_dir], as [copy] computes
    it. *)
Definition entry_src (_file : string) : string :=
  fs_abspath (OsPath.join cur_dir _file).

(** Its destination path [_file_dest]; [None] when [re.sub] raises. *)
Definition entry_dest (_file : string) : option string :=
  new_file ← re_sub_empty src (render _file data);
  Some (fs_abspath (OsPath.join cur_dir_dest new_file)).

(** The two flags that [copy] computes for the entry. *)
Definition entry_ignored (_file : string) : option bool :=
  matches_any (_meta_ignore self ++ ignore) (entry_src _file).

Definition entry_excluded (_file : string) : option bool :=
  matches_any (_meta_exclude self ++ exclude) (entry_src _file).

(** No destination of an entry of [files] holds a directory. *)
Definition no_dir_dest (files : list string) (fs : gmap string node) : Prop :=
  ∀ g d, g ∈ files → entry_dest g = Some d → node_at fs d ≠ Some Dir.

End Entries.

(** ** The file system that a trace leaves

    Every change that [copy] makes to the file system is announced in the
    trace; when the run ends well, each announced change has been made. *)

Section Replay.
Context `{Env}.

(** The file system after a successful [os.makedirs(path)]. *)
Definition made (fs : gmap string node) (path : string) : gmap string node :=
  match resolve path with
  | Some key =>
      match mkdir_chain path (ancestors key) fs with
      | inr fs' => <[key := Dir]> fs'
      | inl _ => fs
      end
  | None => fs
  end.

Definition replay_event (fs : gmap string node) (e : event) : gmap string node :=
  match e with
  | EvMakedirs path => made fs path
  | EvCopyfile src dst =>
      match node_at fs src with
      | Some (File content) => written fs dst content
      | _ => fs
      end
  | EvWrite path content => written fs path content
  | _ => fs
  end.

Definition replay (es : list event) (fs : gmap string node) : gmap string node :=
  fold_left replay_event es fs.

(** The file system in which the walk of [copy] starts: the destination
    has been created when it was missing. *)
Definition prepared (fs : gmap string node) (dest : string) : gmap string node :=
  if bool_decide (is_Some (node_at fs dest)) then fs else made fs dest.

End Replay.

(** A run of [m] that ends well has made the changes that its trace
    announces, and no other. *)
Definition replays `{Env} {A : Type} (m : M A) : Prop :=
  ∀ w a w', m w = (Ok a, w') →
    ∃ es, w_trace w' = w_trace w ++ es ∧ w_fs w' = replay es (w_fs w).

(** * Properties *)

(** ** The path functions at sample inputs *)

Example normpath_ex1 : OsPath.normpath "/a//b/./c/../d/" = "/a/b/d".
Proof. reflexivity. Qed.
Example normpath_ex2 : OsPath.normpath "//a/../../b" = "//b".
Proof. reflexivity. Qed.
Example normpath_ex3 : OsPath.normpath "a/../../b" = "../b".
Proof. reflexivity. Qed.
Example join_ex1 : OsPath.join "/a" "b" = "/a/b" ∧ OsPath.join "/a/" "b" = "/a/b"
  ∧ OsPath.join "" "b" = "b" ∧ OsPath.join "/a" "/b" = "/b" ∧ OsPath.join "/a" "" = "/a/".
Proof. repeat split; reflexivity. Qed.
Example split_ex1 : OsPath.split "/a/b" = ("/a", "b") ∧ OsPath.split "/a" = ("/", "a")
  ∧ OsPath.split "/" = ("/", "") ∧ OsPath.split "a" = ("", "a") ∧ OsPath.split "/a//" = ("/a", "").
Proof. repeat split; reflexivity. Qed.
Example rstrip_ex1 : PyStr.rstrip "/" "/a/b//" = "/a/b" ∧ PyStr.rstrip "/" "//" = "" ∧ PyStr.lstrip "/" "//a/" = "a/".
Proof. repeat split; reflexivity. Qed.
Example split_ex2 : PyStr.split "/" "/a//b" = [""; "a"; ""; "b"] ∧ PyStr.split "/" "" = [""].
Proof. repeat split; reflexivity. Qed.


(** ** The monad and the trace *)

Lemma log_nil (w : world) : log w [] = w.
Proof. destruct w; unfold log; simpl. by rewrite app_nil_r. Qed.

Lemma log_log (w : world) (es es' : list event) : log (log w es) es' = log w (es ++ es').
Proof. unfold log; simpl. by rewrite <- app_assoc. Qed.

Lemma bind_Ok {A B : Type} (m : M A) (k : A → M B) (w w' : world) (a : A) :
  m w = (Ok a, w') → (m ≫= k) w = k a w'.
Proof. intros E. unfold mbind, M_bind. by rewrite E. Qed.

Lemma bind_Raise {A B : Type} (m : M A) (k : A → M B) (w w' : world) (e : exn) :
  m w = (Raise e, w') → (m ≫= k) w = (Raise e, w').
Proof. intros E. unfold mbind, M_bind. by rewrite E. Qed.

Lemma bind_Ok_inv {A B : Type} (m : M A) (k : A → M B) (w w' : world) (b : B) :
  (m ≫= k) w = (Ok b, w') → ∃ a w1, m w = (Ok a, w1) ∧ k a w1 = (Ok b, w').
Proof.
  unfold mbind, M_bind. destruct (m w) as [[a| | |] w1]; [eauto|done..].
Qed.

Lemma for_each_cons_inv {A : Type} (x : A) (xs : list A) (body : A → M unit) (w w' : world) :
  for_each (x :: xs) body w = (Ok (), w') →
  ∃ w1, body x w = (Ok (), w1) ∧ for_each xs body w1 = (Ok (), w').
Proof.
  simpl. intros Hrun. apply bind_Ok_inv in Hrun as ([] & w1 & Hx & Hxs). eauto.
Qed.

(** ** Paths *)

Lemma startswith_app (p s t : string) :
  PyStr.startswith p s = true → PyStr.startswith p (s +:+ t) = true.
Proof.
  revert s. induction p as [|a p IH]; intros [|b s]; simpl; try done.
  case_decide; [apply IH|done].
Qed.

Lemma normpath_isabs (path : string) :
  OsPath.isabs path = true → OsPath.isabs (OsPath.normpath path) = true.
Proof.
  unfold OsPath.isabs, OsPath.normpath. intros Habs.
  destruct (decide (path = "")) as [->|_]; [done|].
  rewrite Habs.
  by destruct (PyStr.startswith "//" path && negb (PyStr.startswith "///" path)).
Qed.

Lemma abspath_isabs (cwd path : string) :
  OsPath.isabs cwd = true → OsPath.isabs (OsPath.abspath cwd path) = true.
Proof.
  intros Hcwd. unfold OsPath.abspath.
  destruct (OsPath.isabs path) eqn:Hp; apply normpath_isabs; [done|].
  unfold OsPath.join. unfold OsPath.isabs in Hp. rewrite Hp.
  destruct (decide (cwd = "")) as [->|_]; [done|].
  case_decide; by apply startswith_app.
Qed.

Lemma join_isabs (a b : string) : OsPath.isabs b = true → OsPath.join a b = b.
Proof. unfold OsPath.isabs, OsPath.join. by intros ->. Qed.

(** *** Normal forms *)

Lemma split_nonempty (c : ascii) (s : string) : PyStr.split c s ≠ [].
Proof.
  induction s as [|a s IH]; simpl; [done|].
  destruct (decide (a = c)); [done|]. by destruct (PyStr.split c s).
Qed.

Lemma split_pieces (c : ascii) (s p : string) :
  p ∈ PyStr.split c s → PyStr.split c p = [p].
Proof.
  revert p. induction s as [|a s IH]; intros p; simpl.
  - intros Hp. apply list_elem_of_singleton in Hp. by subst.
  - destruct (decide (a = c)) as [->|Hne].
    + intros [->|Hp]%elem_of_cons; [done|by apply IH].
    + destruct (PyStr.split c s) as [|h t] eqn:E.
      * intros Hp. apply list_elem_of_singleton in Hp. subst. simpl.
        by rewrite decide_False.
      * intros [->|Hp]%elem_of_cons.
        -- simpl. rewrite decide_False by done.
           rewrite (IH h) by (apply elem_of_cons; by left). done.
        -- apply IH, elem_of_cons. by right.
Qed.

Lemma split_app_sep (c : ascii) (p s : string) :
  PyStr.split c p = [p] →
  PyStr.split c (p +:+ String c s) = p :: PyStr.split c s.
Proof.
  induction p as [|a p IH]; simpl.
  - intros _. by rewrite decide_True.
  - destruct (decide (a = c)) as [->|Hne]; [done|].
    destruct (PyStr.split c p) as [|h t] eqn:E; [by destruct (split_nonempty c p)|].
    intros [= -> ->]. by rewrite IH.
Qed.

Lemma split_concat (comps : list string) :
  comps ≠ [] →
  Forall (λ c, PyStr.split OsPath.sep c = [c]) comps →
  PyStr.split OsPath.sep (String.concat "/" comps) = comps.
Proof.
  intros Hne Hall. induction Hall as [|c comps Hc Hall IH]; [done|].
  destruct comps as [|c' comps]; [done|].
  change (String.concat "/" (c :: c' :: comps))
    with (c +:+ String OsPath.sep (String.concat "/" (c' :: comps))).
  rewrite split_app_sep by done. by rewrite IH.
Qed.

Lemma norm_comps_names (acc comps : list string) :
  Forall OsPath.name_like acc →
  Forall (λ c, PyStr.split OsPath.sep c = [c]) comps →
  Forall OsPath.name_like (OsPath.norm_comps true acc comps).
Proof.
  intros Hacc Hcomps. revert acc Hacc.
  induction Hcomps as [|c comps Hc Hcomps IH]; intros acc Hacc; simpl.
  - by apply Forall_rev.
  - destruct (decide (c = "" ∨ c = ".")) as [|Hn]; [by apply IH|].
    destruct (decide (c ≠ "..")) as [Hdd|Hdd].
    + apply IH. constructor; [|done]. repeat split; try done; intros ->; apply Hn; auto.
    + destruct acc as [|top acc]; [by apply IH|].
      inversion Hacc as [|? ? Htop Hrest]; subst.
      destruct (decide (top = "..")) as [->|]; [by destruct Htop as (_ & _ & ? & _)|].
      by apply IH.
Qed.

Lemma norm_comps_of_names (rooted : bool) (acc comps : list string) :
  Forall OsPath.name_like comps →
  OsPath.norm_comps rooted acc comps = rev acc ++ comps.
Proof.
  intros Hcomps. revert acc.
  induction Hcomps as [|c comps (H1 & H2 & H3 & _) Hcomps IH]; intros acc; simpl.
  - by rewrite app_nil_r.
  - rewrite decide_False by (intros [|]; done).
    rewrite decide_True by done. rewrite IH. simpl. by rewrite <- app_assoc.
Qed.

Lemma startswith_sep_concat (comps : list string) :
  Forall OsPath.name_like comps →
  PyStr.startswith "/" (String.concat "/" comps) = false.
Proof.
  intros Hall. destruct Hall as [|c comps (H1 & _ & _ & Hs) Hall]; [done|].
  assert (PyStr.startswith "/" c = false) as Hc.
  { destruct c as [|a c]; [done|]. unfold OsPath.sep in Hs. simpl in *.
    destruct (decide ("/"%char = a)) as [<-|]; [|done].
    rewrite decide_True in Hs by done. done. }
  destruct comps as [|c' comps]; [done|].
  change (String.concat "/" (c :: c' :: comps))
    with (c +:+ String OsPath.sep (String.concat "/" (c' :: comps))).
  destruct c as [|a c]; [done|]. simpl in *.
  by destruct (decide ("/"%char = a)).
Qed.

Lemma normpath_idempotent (path : string) :
  OsPath.isabs path = true →
  OsPath.normpath (OsPath.normpath path) = OsPath.normpath path.
Proof.
  unfold OsPath.isabs. intros Habs.
  assert (path ≠ "") as Hne by (by intros ->).
  assert (∃ slashes comps,
            OsPath.normpath path = slashes +:+ String.concat "/" comps
            ∧ (slashes = "/" ∨ slashes = "//")
            ∧ Forall OsPath.name_like comps) as (slashes & comps & -> & Hsl & Hcomps).
  { unfold OsPath.normpath. rewrite decide_False by done. rewrite Habs.
    eexists _, _. split; [|split].
    - rewrite decide_False; [reflexivity|].
      destruct (_ && _); done.
    - destruct (_ && _); auto.
    - apply norm_comps_names; [done|].
      apply Forall_forall. intros c Hc. by apply split_pieces in Hc. }
  pose proof (startswith_sep_concat comps Hcomps) as Hstart.
  assert (Forall (λ c, PyStr.split OsPath.sep c = [c]) comps) as Hpieces.
  { eapply Forall_impl; [exact Hcomps|]. by intros c (_ & _ & _ & ?). }
  assert (OsPath.norm_comps true []
            (PyStr.split OsPath.sep (String.concat "/" comps)) = comps) as Hsame.
  { destruct comps as [|c comps]; [done|].
    rewrite split_concat by done. by rewrite norm_comps_of_names. }
  unfold OsPath.normpath at 1.
  destruct Hsl as [-> | ->].
  - change ("/" +:+ String.concat "/" comps) with (String "/" (String.concat "/" comps)).
    rewrite decide_False by done.
    change (PyStr.startswith "/" (String "/" ?s)) with true. cbv iota.
    change (PyStr.startswith "//" (String "/" (String.concat "/" comps)))
      with (PyStr.startswith "/" (String.concat "/" comps)).
    rewrite Hstart. cbn [andb].
    change (PyStr.split OsPath.sep (String "/" (String.concat "/" comps)))
      with ("" :: PyStr.split OsPath.sep (String.concat "/" comps)).
    change (OsPath.norm_comps true [] ("" :: ?l)) with (OsPath.norm_comps true [] l).
    rewrite Hsame. by rewrite decide_False.
  - change ("//" +:+ String.concat "/" comps)
      with (String "/" (String "/" (String.concat "/" comps))).
    rewrite decide_False by done.
    change (PyStr.startswith "/" (String "/" ?s)) with true. cbv iota.
    change (PyStr.startswith "//" (String "/" (String "/" (String.concat "/" comps))))
      with true.
    change (PyStr.startswith "///" (String "/" (String "/" (String.concat "/" comps))))
      with (PyStr.startswith "/" (String.concat "/" comps)).
    rewrite Hstart. cbn [andb negb].
    change (PyStr.split OsPath.sep (String "/" (String "/" (String.concat "/" comps))))
      with ("" :: "" :: PyStr.split OsPath.sep (String.concat "/" comps)).
    change (OsPath.norm_comps true [] ("" :: "" :: ?l)) with (OsPath.norm_comps true [] l).
    rewrite Hsame. by rewrite decide_False.
Qed.

Lemma abspath_idempotent (cwd path : string) :
  OsPath.isabs cwd = true →
  OsPath.abspath cwd (OsPath.abspath cwd path) = OsPath.abspath cwd path.
Proof.
  intros Hcwd.
  pose proof (abspath_isabs cwd path Hcwd) as Habs.
  unfold OsPath.abspath at 1. rewrite Habs.
  unfold OsPath.abspath. apply normpath_idempotent.
  destruct (OsPath.isabs path) eqn:Hp; [done|].
  unfold OsPath.join. unfold OsPath.isabs in Hp. rewrite Hp.
  destruct (decide (cwd = "")) as [->|_]; [done|].
  case_decide; by apply startswith_app.
Qed.

Section AbsolutePaths.
Context `{Env}.

Lemma fs_abspath_isabs (path : string) : OsPath.isabs (fs_abspath path) = true.
Proof. by apply abspath_isabs. Qed.

Lemma fs_abspath_nonempty (path : string) : fs_abspath path ≠ "".
Proof. intros E. pose proof (fs_abspath_isabs path) as Habs. by rewrite E in Habs. Qed.

Lemma fs_abspath_not_dot (path : string) : fs_abspath path ≠ ".".
Proof. intros E. pose proof (fs_abspath_isabs path) as Habs. by rewrite E in Habs. Qed.

Lemma join_fs_abspath (a path : string) : OsPath.join a (fs_abspath path) = fs_abspath path.
Proof. apply join_isabs, fs_abspath_isabs. Qed.

Lemma resolve_Some (path : string) :
  path ≠ "" → resolve path = Some (OsPath.abspath getcwd path).
Proof. intros Hp. unfold resolve. by rewrite decide_False. Qed.

Lemma normalised_abspath (path : string) :
  normalised (OsPath.abspath getcwd path) = true.
Proof.
  apply bool_decide_eq_true. right. by apply abspath_idempotent.
Qed.

Lemma normalised_fs_abspath (path : string) : normalised (fs_abspath path) = true.
Proof. apply normalised_abspath. Qed.

Lemma resolve_fs_abspath (path : string) :
  resolve (fs_abspath path) = Some (fs_abspath path).
Proof.
  rewrite resolve_Some by apply fs_abspath_nonempty.
  f_equal. by apply abspath_idempotent.
Qed.

Lemma in_model_ok (path : string) (w : world) :
  normalised path = true → in_model path w = (Ok (), w).
Proof. unfold in_model. by intros ->. Qed.

Lemma in_model_fs_abspath (path : string) (w : world) :
  in_model (fs_abspath path) w = (Ok (), w).
Proof. apply in_model_ok, normalised_fs_abspath. Qed.

End AbsolutePaths.

(** The paths that the handler hands to the operating system are
    normalised. *)
Ltac normal :=
  first [ apply normalised_fs_abspath | apply normalised_abspath | assumption | done ].

(** ** The loader *)

Section LoadFacts.
Context `{Env}.
Variable self : TemplateHandler.

Lemma os_path_exists_eq (path : string) (w : world) :
  normalised path = true →
  os_path_exists path w
  = (Ok (bool_decide (is_Some (node_at (w_fs w) path))), log w [EvExists path]).
Proof.
  intros Hn. unfold os_path_exists, emit, get_world, mbind, M_bind; simpl.
  by rewrite in_model_ok.
Qed.

Lemma open_read_file (path content : string) (w : world) :
  normalised path = true →
  node_at (w_fs w) path = Some (File content) →
  decodable content = true →
  open_read path w = (Ok (PyStr.universal_newlines content), log w [EvRead path]).
Proof.
  intros Hn E Hd. unfold open_read, read_bytes, emit, get_world, mbind, M_bind; simpl.
  rewrite in_model_ok by done. simpl. rewrite E. simpl. by rewrite Hd.
Qed.

Lemma open_read_directory (path : string) (w : world) :
  normalised path = true →
  node_at (w_fs w) path = Some Dir →
  open_read path w = (Raise (IsADirectoryError path), log w [EvRead path]).
Proof.
  intros Hn E. unfold open_read, read_bytes, emit, get_world, mbind, M_bind; simpl.
  rewrite in_model_ok by done. simpl. by rewrite E.
Qed.

Lemma open_read_undecodable (path content : string) (w : world) :
  normalised path = true →
  node_at (w_fs w) path = Some (File content) →
  decodable content = false →
  open_read path w = (Raise UnicodeDecodeError, log w [EvRead path]).
Proof.
  intros Hn E Hd. unfold open_read, read_bytes, emit, get_world, mbind, M_bind; simpl.
  rewrite in_model_ok by done. simpl. rewrite E. simpl. by rewrite Hd.
Qed.

Lemma _load_template_from_file_loop_miss (dirs : list string) (p : string) (w : world) :
  (∀ d, d ∈ dirs → node_at (w_fs w) (full_path d p) = None) →
  _load_template_from_file_loop dirs p w = (Ok (None, None), log w (probes dirs p)).
Proof.
  revert w. induction dirs as [|d dirs IH]; intros w Hmiss; simpl.
  - by rewrite log_nil.
  - erewrite bind_Ok; [|apply os_path_exists_eq; normal].
    rewrite (Hmiss d) by set_solver. simpl.
    rewrite IH by (intros d' Hd'; apply Hmiss; set_solver).
    by rewrite log_log.
Qed.

Lemma _load_template_from_file_loop_first (pre post : list string) (d p : string) (w : world) :
  (∀ d', d' ∈ pre → node_at (w_fs w) (full_path d' p) = None) →
  is_Some (node_at (w_fs w) (full_path d p)) →
  _load_template_from_file_loop (pre ++ d :: post) p w
  = (content ← open_read (full_path d p);
     mret (Some content, Some (full_path d p))) (log w (probes (pre ++ [d]) p)).
Proof.
  revert w. induction pre as [|d0 pre IH]; intros w Hmiss Hhit; simpl.
  - erewrite bind_Ok; [|apply os_path_exists_eq; normal].
    by rewrite bool_decide_eq_true_2.
  - erewrite bind_Ok; [|apply os_path_exists_eq; normal].
    rewrite (Hmiss d0) by set_solver. simpl.
    rewrite IH; [|intros d' Hd'; apply Hmiss; set_solver|done].
    by rewrite log_log.
Qed.

Lemma _load_template_from_file_loop_hit (pre post : list string) (d p c : string) (w : world) :
  (∀ d', d' ∈ pre → node_at (w_fs w) (full_path d' p) = None) →
  node_at (w_fs w) (full_path d p) = Some (File c) →
  decodable c = true →
  _load_template_from_file_loop (pre ++ d :: post) p w
  = (Ok (Some (PyStr.universal_newlines c), Some (full_path d p)),
     log w (probes (pre ++ [d]) p ++ [EvRead (full_path d p)])).
Proof.
  intros Hmiss Hhit Hdec.
  rewrite _load_template_from_file_loop_first by (by rewrite ?Hhit).
  erewrite bind_Ok; [|apply open_read_file; [normal|done|done]].
  unfold mret, M_ret. by rewrite log_log.
Qed.

Lemma _load_template_from_file_loop_raise
    (pre post : list string) (d p : string) (e : exn) (w : world) :
  (∀ d', d' ∈ pre → node_at (w_fs w) (full_path d' p) = None) →
  is_Some (node_at (w_fs w) (full_path d p)) →
  open_read (full_path d p) (log w (probes (pre ++ [d]) p))
  = (Raise e, log (log w (probes (pre ++ [d]) p)) [EvRead (full_path d p)]) →
  _load_template_from_file_loop (pre ++ d :: post) p w
  = (Raise e, log w (probes (pre ++ [d]) p ++ [EvRead (full_path d p)])).
Proof.
  intros Hmiss Hhit Hopen.
  rewrite _load_template_from_file_loop_first by done.
  unfold mbind at 1, M_bind at 1. rewrite Hopen. by rewrite log_log.
Qed.

Lemma load_Some_nonempty (p : string) :
  p ≠ "" →
  load self (Some p)
  = ('(content, path) ← _load_template_from_file self p;
     '(content, path, template_type) ←
       match content with
       | None =>
           '(content, path) ← _load_template_from_module self p;
           mret (content, path, "module")
       | Some _ => mret (content, path, "directory")
       end;
     match content with
     | None => raise (TemplateNotFoundError p)
     | Some content => mret (content, template_type, path)
     end).
Proof. by destruct p. Qed.

(** C1, as amended.  For a non-empty template path, when [d] is the first
    configured directory under which the path exists, and what is stored
    there is a regular file whose bytes decode, [load] returns the text of
    that file, the template type ['directory'] and the full physical path
    of the file; the trace shows the directories probed in their declared
    order up to [d], the one read, and nothing after it. *)
Theorem load_first_directory_hit (pre post : list string) (d p c : string) (w : world) :
  template_dirs self = pre ++ d :: post →
  p ≠ "" →
  (∀ d', d' ∈ pre → node_at (w_fs w) (full_path d' p) = None) →
  node_at (w_fs w) (full_path d p) = Some (File c) →
  decodable c = true →
  load self (Some p) w
  = (Ok (PyStr.universal_newlines c, "directory", Some (full_path d p)),
     log w (probes (pre ++ [d]) p ++ [EvRead (full_path d p)])).
Proof.
  intros Hdirs Hp Hmiss Hhit Hdec. rewrite load_Some_nonempty by done.
  erewrite bind_Ok;
    [|unfold _load_template_from_file; rewrite Hdirs;
      by apply _load_template_from_file_loop_hit].
  reflexivity.
Qed.

(** The same hit on a file whose bytes do not decode: [read] raises
    [UnicodeDecodeError], and [load] lets it out. *)
Lemma load_undecodable (pre post : list string) (d p c : string) (w : world) :
  template_dirs self = pre ++ d :: post →
  p ≠ "" →
  (∀ d', d' ∈ pre → node_at (w_fs w) (full_path d' p) = None) →
  node_at (w_fs w) (full_path d p) = Some (File c) →
  decodable c = false →
  load self (Some p) w
  = (Raise UnicodeDecodeError,
     log w (probes (pre ++ [d]) p ++ [EvRead (full_path d p)])).
Proof.
  intros Hdirs Hp Hmiss Hhit Hdec. rewrite load_Some_nonempty by done.
  unfold mbind at 1, M_bind at 1. unfold _load_template_from_file. rewrite Hdirs.
  erewrite _load_template_from_file_loop_raise; [done|done|by rewrite Hhit|].
  by apply (open_read_undecodable _ c); [normal|..].
Qed.

(** C4. [load(None)] and [load("")] raise the invalid-path error, and the
    world is left as it was: no source has been consulted. *)
Theorem load_invalid_path (w : world) :
  load self None w = (Raise (InvalidPathError "None"), w)
  ∧ load self (Some "") w = (Raise (InvalidPathError ""), w).
Proof. split; reflexivity. Qed.

(** C2. For a non-empty path that exists under no configured directory:
    when the template module is imported or importable and holds the
    resource, [load] returns the resource's content with template type
    ['module']; when the module cannot be imported, the import error is
    swallowed and [load] ends with the not-found error, without asking
    for the resource: the file system is as it was, the trace shows the
    probes and the one import, and the loaded modules have gained what
    the failed import registered on its way. *)
Theorem load_from_module (p b : string) (w : world) :
  p ≠ "" →
  (∀ d, d ∈ template_dirs self → node_at (w_fs w) (full_path d p) = None) →
  (package_data (template_module self) (PyStr.lstrip "/" p) = DataBytes b →
   template_module self ∈ w_modules w ∨ importable (template_module self) = true →
   (load self (Some p) w).1
   = Ok (b, "module",
         Some (template_module self +:+ "."
               +:+ PyStr.replace_char "/" "." (PyStr.lstrip "/" p))))
  ∧ (template_module self ∉ w_modules w →
     importable (template_module self) = false →
     load self (Some p) w
     = (Raise (TemplateNotFoundError p),
        log (World (w_fs w)
                   (import_registers (template_module self) ∪ w_modules w)
                   (w_trace w))
            (probes (template_dirs self) p ++ [EvImport (template_module self)]))).
Proof.
  intros Hp Hmiss. rewrite load_Some_nonempty by done.
  split.
  - intros Hdata Hmod.
    erewrite bind_Ok;
      [|unfold _load_template_from_file; by apply _load_template_from_file_loop_miss].
    unfold _load_template_from_module, mbind, M_bind, get_world, emit; simpl.
    case_bool_decide as Hin; simpl.
    + by rewrite Hdata.
    + destruct Hmod as [?|Himp]; [done|]. rewrite Himp. simpl. by rewrite Hdata.
  - intros Hnot Himp.
    erewrite bind_Ok;
      [|unfold _load_template_from_file; by apply _load_template_from_file_loop_miss].
    unfold _load_template_from_module, mbind, M_bind, get_world, emit; simpl.
    rewrite bool_decide_eq_false_2 by done. rewrite Himp. simpl.
    unfold raise, log. simpl. by rewrite app_assoc.
Qed.

(** C3, as amended.  For a non-empty path at whose probe path under every
    configured directory nothing exists, and for which the module source
    has nothing (the module is not imported and its import raises
    [ImportError], or it holds no such resource), [load] raises the
    not-found error, whose message names the logical path as given. *)
Theorem load_not_found (p : string) (w : world) :
  p ≠ "" →
  (∀ d, d ∈ template_dirs self → node_at (w_fs w) (full_path d p) = None) →
  (((template_module self ∉ w_modules w) ∧ importable (template_module self) = false)
   ∨ (∀ b, package_data (template_module self) (PyStr.lstrip "/" p) ≠ DataBytes b)) →
  (load self (Some p) w).1
  = Raise (FrameworkError ("Could not locate template: " +:+ p)).
Proof.
  intros Hp Hmiss Hmod. rewrite load_Some_nonempty by done.
  erewrite bind_Ok;
    [|unfold _load_template_from_file; by apply _load_template_from_file_loop_miss].
  unfold _load_template_from_module, mbind, M_bind, get_world, emit; simpl.
  destruct Hmod as [[Hnot Himp]|Hdata].
  - rewrite bool_decide_eq_false_2 by done. by rewrite Himp.
  - case_bool_decide; simpl.
    + destruct (package_data _ _) eqn:E; try done. by destruct (Hdata content).
    + destruct (importable _); simpl; [|done].
      destruct (package_data _ _) eqn:E; try done. by destruct (Hdata content).
Qed.

(** X5.  Where the loader's premises end: when the first configured
    directory under which the path exists holds a directory there, [open]
    raises [IsADirectoryError] and [load] lets the error out; the run
    ends at that [open]: the trace holds the probes up to that directory
    and the one read, so the directories after it and the template
    module are not tried, and the file system and the loaded modules are
    as they were. *)
Lemma load_directory_in_the_way (pre post : list string) (d p : string) (w : world) :
  template_dirs self = pre ++ d :: post →
  p ≠ "" →
  (∀ d', d' ∈ pre → node_at (w_fs w) (full_path d' p) = None) →
  node_at (w_fs w) (full_path d p) = Some Dir →
  load self (Some p) w
  = (Raise (IsADirectoryError (full_path d p)),
     log w (probes (pre ++ [d]) p ++ [EvRead (full_path d p)])).
Proof.
  intros Hdirs Hp Hmiss Hdir. rewrite load_Some_nonempty by done.
  unfold mbind at 1, M_bind at 1. unfold _load_template_from_file. rewrite Hdirs.
  erewrite _load_template_from_file_loop_raise; [done|done|by rewrite Hdir|].
  by apply open_read_directory; [normal|].
Qed.

(** The path probed under an ordinary directory name: the directory, a
    slash, and the template path. *)
Lemma full_path_plain (d p : string) :
  d ≠ "" → PyStr.rstrip "/" d = d → PyStr.startswith "/" p = false →
  full_path d p = fs_abspath (d +:+ "/" +:+ p).
Proof.
  intros Hd Hr Hp. unfold full_path. rewrite Hr.
  assert (PyStr.lstrip "/" p = p) as ->.
  { destruct p as [|a p]; [done|]. simpl in *.
    destruct (decide (a = "/"%char)) as [->|]; [|done].
    rewrite decide_True in Hp by done. by destruct p. }
  unfold OsPath.join. rewrite Hp. rewrite decide_False by done.
  by rewrite decide_True.
Qed.

End LoadFacts.


(** ** The file system *)

Section PathFacts.
Context `{Env}.

Lemma fs_lookup_insert_eq (fs : gmap string node) (key : string) (n : node) :
  is_root key = false → fs_lookup (<[key := n]> fs) key = Some n.
Proof. intros Hr. unfold fs_lookup. rewrite Hr. apply lookup_insert_eq. Qed.

Lemma fs_lookup_insert_ne (fs : gmap string node) (key k : string) (n : node) :
  key ≠ k → fs_lookup (<[key := n]> fs) k = fs_lookup fs k.
Proof. intros Hne. unfold fs_lookup. by rewrite lookup_insert_ne. Qed.

Lemma fs_lookup_not_root (fs : gmap string node) (key : string) :
  fs_lookup fs key ≠ Some Dir → is_root key = false.
Proof. unfold fs_lookup. by destruct (is_root key). Qed.

Lemma node_at_written (fs : gmap string node) (path content : string) :
  can_write fs path = true → node_at (written fs path content) path = Some (File content).
Proof.
  unfold can_write, written, node_at. destruct (resolve path) as [key|]; [|done]. simpl.
  intros Hw. apply fs_lookup_insert_eq, fs_lookup_not_root with fs.
  by destruct (fs_lookup fs key) as [[]|].
Qed.

Lemma node_at_written_other (fs : gmap string node) (path content q : string) :
  resolve q ≠ resolve path → node_at (written fs path content) q = node_at fs q.
Proof.
  unfold written, node_at. intros Hne.
  destruct (resolve path) as [key|]; [|done].
  destruct (resolve q) as [k|]; [|done]. simpl.
  apply fs_lookup_insert_ne. congruence.
Qed.

Lemma write_bytes_ok (path content : string) (w : world) :
  normalised path = true →
  can_write (w_fs w) path = true →
  write_bytes path content w
  = (Ok (), World (written (w_fs w) path content) (w_modules w) (w_trace w)).
Proof.
  intros Hn. unfold can_write, written, write_bytes.
  erewrite bind_Ok; [|by apply in_model_ok].
  unfold mbind, M_bind, get_world, set_fs. simpl.
  destruct (resolve path) as [key|]; [|done].
  destruct (fs_lookup (w_fs w) key) as [[]|]; try done.
  case_bool_decide as Hd; [|done]. by rewrite Hd.
Qed.

Lemma read_bytes_file (path content : string) (w : world) :
  normalised path = true →
  node_at (w_fs w) path = Some (File content) → read_bytes path w = (Ok content, w).
Proof.
  intros Hn E. unfold read_bytes.
  erewrite bind_Ok; [|by apply in_model_ok].
  unfold mbind, M_bind, get_world. by rewrite E.
Qed.

Lemma can_write_existing (fs : gmap string node) (path old : string) :
  node_at fs path = Some (File old) → can_write fs path = true.
Proof.
  unfold node_at, can_write. destruct (resolve path) as [key|]; [|done]. simpl.
  by intros ->.
Qed.

Lemma os_path_isdir_eq (path : string) (w : world) :
  normalised path = true →
  os_path_isdir path w
  = (Ok (bool_decide (node_at (w_fs w) path = Some Dir)), log w [EvIsdir path]).
Proof.
  intros Hn. unfold os_path_isdir, emit, get_world, mbind, M_bind; simpl.
  by rewrite in_model_ok.
Qed.

Lemma scandir_eq (top : string) (w : world) :
  normalised top = true →
  scandir top w = (Ok (listing (w_fs w) top), log w [EvScandir top]).
Proof.
  intros Hn. unfold scandir, emit, get_world, mbind, M_bind; simpl.
  by rewrite in_model_ok.
Qed.

Lemma shutil_copy_file (src dst content : string) (w : world) :
  normalised src = true →
  normalised dst = true →
  node_at (w_fs w) src = Some (File content) →
  can_write (w_fs w) dst = true →
  resolve src ≠ resolve dst →
  shutil_copy src dst w
  = (Ok (), World (written (w_fs w) dst content) (w_modules w)
                  (w_trace w ++ [EvIsdir dst; EvCopyfile src dst])).
Proof.
  intros Hns Hnd' Hsrc Hw Hne.
  assert (node_at (w_fs w) dst ≠ Some Dir) as Hnd.
  { revert Hw. unfold can_write, node_at.
    destruct (resolve dst) as [key|]; [|done]. simpl.
    by destruct (fs_lookup (w_fs w) key) as [[]|]. }
  unfold shutil_copy.
  erewrite bind_Ok; [|by apply os_path_isdir_eq].
  rewrite bool_decide_eq_false_2 by done.
  erewrite bind_Ok; [|by apply in_model_ok].
  erewrite bind_Ok; [|by apply in_model_ok].
  erewrite bind_Ok; [|reflexivity].
  rewrite bool_decide_eq_false_2 by (simpl; intros [_ ?]; done).
  erewrite bind_Ok; [|reflexivity].
  erewrite bind_Ok; [|by apply read_bytes_file].
  rewrite write_bytes_ok by done. simpl. by rewrite <- app_assoc.
Qed.

End PathFacts.

(** ** The copier: one file entry *)

Section CopyFileFacts.
Context `{Env} `{Re} {Data : Type} `{TemplateHandlerBase Data}.
Variables (self : TemplateHandler) (src : string) (data : Data).
Variables (exclude ignore : list string).
Variables (cur_dir cur_dir_dest f new_file : string).

(** The file name renders, with the source prefix removed, to
    [new_file]. *)
Hypothesis Hsub : re_sub_empty src (render f data) = Some new_file.

Local Abbreviation file_src := (fs_abspath (OsPath.join cur_dir f)).
Local Abbreviation file_dest := (fs_abspath (OsPath.join cur_dir_dest new_file)).

(** What is left of the body after the overwrite check. *)
Local Abbreviation after_check :=
  (ignore_it ← of_re (matches_any (_meta_ignore self ++ ignore) file_src);
   if ignore_it : bool then mret ()
   else
     exclude_it ← of_re (matches_any (_meta_exclude self ++ exclude) file_src);
     if exclude_it : bool then shutil_copy file_src file_dest
     else
       content ← open_read (OsPath.join cur_dir file_src);
       _file_content ← self_render content data;
       open_write file_dest _file_content).

Lemma copy_file_dest_exists (w : world) :
  is_Some (node_at (w_fs w) file_dest) →
  copy_file self src data false exclude ignore cur_dir cur_dir_dest f w
  = (Raise (DestinationExistsError file_dest), log w [EvRender f; EvExists file_dest]).
Proof.
  intros Hex. unfold copy_file.
  erewrite bind_Ok; [|reflexivity].
  rewrite Hsub.
  erewrite bind_Ok; [|reflexivity].
  erewrite bind_Raise; [reflexivity|].
  erewrite bind_Ok; [|apply os_path_exists_eq; normal].
  simpl. rewrite bool_decide_eq_true_2 by done. by rewrite log_log.
Qed.

Lemma copy_file_forced (w : world) :
  copy_file self src data true exclude ignore cur_dir cur_dir_dest f w
  = after_check (log w [EvRender f]).
Proof.
  unfold copy_file.
  erewrite bind_Ok; [|reflexivity].
  rewrite Hsub.
  erewrite bind_Ok; [|reflexivity].
  erewrite bind_Ok; [|reflexivity].
  reflexivity.
Qed.

Lemma copy_file_dest_free (w : world) :
  node_at (w_fs w) file_dest = None →
  copy_file self src data false exclude ignore cur_dir cur_dir_dest f w
  = after_check (log w [EvRender f; EvExists file_dest]).
Proof.
  intros Hfree. unfold copy_file.
  erewrite bind_Ok; [|reflexivity].
  rewrite Hsub.
  erewrite bind_Ok; [|reflexivity].
  erewrite bind_Ok; [reflexivity|].
  erewrite bind_Ok; [|apply os_path_exists_eq; normal].
  simpl. rewrite bool_decide_eq_false_2; [by rewrite log_log|].
  unfold log; simpl. rewrite Hfree. by intros [? ?].
Qed.

Lemma after_check_ignored (w : world) :
  matches_any (_meta_ignore self ++ ignore) file_src = Some true →
  after_check w = (Ok (), w).
Proof. intros Hi. by rewrite Hi. Qed.

Lemma after_check_excluded (c : string) (w : world) :
  matches_any (_meta_ignore self ++ ignore) file_src = Some false →
  matches_any (_meta_exclude self ++ exclude) file_src = Some true →
  node_at (w_fs w) file_src = Some (File c) →
  can_write (w_fs w) file_dest = true →
  resolve file_src ≠ resolve file_dest →
  after_check w
  = (Ok (), World (written (w_fs w) file_dest c) (w_modules w)
                  (w_trace w ++ [EvIsdir file_dest; EvCopyfile file_src file_dest])).
Proof.
  intros Hi He Hsrc Hw Hne. rewrite Hi, He.
  erewrite bind_Ok; [|reflexivity]. cbv iota.
  erewrite bind_Ok; [|reflexivity]. cbv iota.
  by apply shutil_copy_file; [normal|normal|..].
Qed.

Lemma after_check_rendered (c : string) (w : world) :
  matches_any (_meta_ignore self ++ ignore) file_src = Some false →
  matches_any (_meta_exclude self ++ exclude) file_src = Some false →
  node_at (w_fs w) file_src = Some (File c) →
  decodable c = true →
  can_write (w_fs w) file_dest = true →
  after_check w
  = (Ok (), World (written (w_fs w) file_dest (render (PyStr.universal_newlines c) data))
                  (w_modules w)
                  (w_trace w ++ [EvRead file_src;
                                 EvRender (PyStr.universal_newlines c);
                                 EvWrite file_dest (render (PyStr.universal_newlines c) data)])).
Proof.
  intros Hi He Hsrc Hdec Hw. rewrite Hi, He.
  erewrite bind_Ok; [|reflexivity]. cbv iota.
  erewrite bind_Ok; [|reflexivity]. cbv iota.
  rewrite join_fs_abspath.
  erewrite bind_Ok; [|by apply (open_read_file _ c); [normal|..]].
  erewrite bind_Ok; [|reflexivity].
  unfold open_write.
  erewrite bind_Ok; [|reflexivity].
  rewrite write_bytes_ok by (normal || done). simpl.
  by rewrite <- !app_assoc.
Qed.

(** The trace of the overwrite check. *)
Local Abbreviation probe force :=
  (if force : bool then [] else [EvExists file_dest]).

Lemma copy_file_checked (force : bool) (w : world) :
  force = true ∨ node_at (w_fs w) file_dest = None →
  copy_file self src data force exclude ignore cur_dir cur_dir_dest f w
  = after_check (log w (EvRender f :: probe force)).
Proof.
  intros [->|Hfree]; [apply copy_file_forced|].
  destruct force; [apply copy_file_forced|by apply copy_file_dest_free].
Qed.


(** A file entry that passes the overwrite check: skipped when an ignore
    pattern matches, copied byte for byte when only an exclude pattern
    matches. *)
Lemma copy_file_ignored_or_excluded (force : bool) (c : string) (w : world) :
  force = true ∨ node_at (w_fs w) file_dest = None →
  (matches_any (_meta_ignore self ++ ignore) file_src = Some true →
   copy_file self src data force exclude ignore cur_dir cur_dir_dest f w
   = (Ok (), log w (EvRender f :: probe force)))
  ∧ (matches_any (_meta_ignore self ++ ignore) file_src = Some false →
     matches_any (_meta_exclude self ++ exclude) file_src = Some true →
     node_at (w_fs w) file_src = Some (File c) →
     can_write (w_fs w) file_dest = true →
     resolve file_src ≠ resolve file_dest →
     copy_file self src data force exclude ignore cur_dir cur_dir_dest f w
     = (Ok (), World (written (w_fs w) file_dest c) (w_modules w)
                     (w_trace w ++ EvRender f :: probe force
                      ++ [EvIsdir file_dest; EvCopyfile file_src file_dest]))
     ∧ node_at (written (w_fs w) file_dest c) file_dest = Some (File c)).
Proof.
  intros Hcheck. split.
  - intros Hi. rewrite copy_file_checked by done. by apply after_check_ignored.
  - intros Hi He Hsrc Hw Hne. split; [|by apply node_at_written].
    rewrite copy_file_checked by done.
    erewrite after_check_excluded; [|done..]. simpl.
    by rewrite <- app_assoc.
Qed.

(** An ignored file entry whose destination exists: an error without the
    overwrite flag, skipped with it. *)
Lemma copy_file_checks_destination_first {A : Type} (rest : list string)
    (k : unit → M A) (w : world) :
  is_Some (node_at (w_fs w) file_dest) →
  matches_any (_meta_ignore self ++ ignore) file_src = Some true →
  copy_file self src data false exclude ignore cur_dir cur_dir_dest f w
  = (Raise (DestinationExistsError file_dest), log w [EvRender f; EvExists file_dest])
  ∧ (for_each (f :: rest)
       (copy_file self src data false exclude ignore cur_dir cur_dir_dest) ≫= k) w
    = (Raise (DestinationExistsError file_dest), log w [EvRender f; EvExists file_dest])
  ∧ copy_file self src data true exclude ignore cur_dir cur_dir_dest f w
    = (Ok (), log w [EvRender f]).
Proof.
  intros Hex Hi. split; [by apply copy_file_dest_exists|]. split.
  - erewrite bind_Raise; [reflexivity|]. simpl.
    erewrite bind_Raise; [reflexivity|]. by apply copy_file_dest_exists.
  - rewrite copy_file_forced. by apply after_check_ignored.
Qed.

End CopyFileFacts.

(** ** Pattern lists *)

Section PatternFacts.
Context `{Re}.

Lemma re_match_true (pattern path : string) :
  re_match pattern path = Some true ↔ ∃ e es, re_ends pattern path 0 = Some (e :: es).
Proof.
  unfold re_match. destruct (re_ends pattern path 0) as [[|e es]|]; simpl.
  - split; [done|]. by intros (? & ? & ?).
  - split; [eauto|done].
  - split; [done|]. by intros (? & ? & ?).
Qed.

Lemma matches_any_true (patterns : list string) (path : string) :
  (∀ p, p ∈ patterns → is_Some (re_match p path)) →
  matches_any patterns path = Some true
  ↔ ∃ p, p ∈ patterns ∧ re_match p path = Some true.
Proof.
  induction patterns as [|q patterns IH]; intros Hc; simpl.
  - split; [done|]. intros (p & Hp & _). by apply not_elem_of_nil in Hp.
  - destruct (Hc q) as [b Hb]; [apply elem_of_cons; by left|]. rewrite Hb. simpl.
    destruct b.
    + split; [|done]. intros _. exists q. split; [apply elem_of_cons; by left|done].
    + rewrite IH by (intros p Hp; apply Hc, elem_of_cons; by right).
      split.
      * intros (p & Hp & Hm). exists p. split; [apply elem_of_cons; by right|done].
      * intros (p & Hp & Hm). exists p. split; [|done].
        apply elem_of_cons in Hp as [->|Hp]; [congruence|done].
Qed.

Lemma matches_any_total (patterns : list string) (path : string) :
  (∀ p, p ∈ patterns → is_Some (re_match p path)) →
  is_Some (matches_any patterns path).
Proof.
  induction patterns as [|q patterns IH]; intros Hc; simpl; [done|].
  destruct (Hc q) as [b Hb]; [apply elem_of_cons; by left|]. rewrite Hb. simpl.
  destruct b; [done|]. apply IH. intros p Hp. apply Hc, elem_of_cons. by right.
Qed.


End PatternFacts.

(** ** The copier: source and destination *)

Section CopyFacts.
Context `{Env} `{Re} {Data : Type} `{TemplateHandlerBase Data}.
Variable self : TemplateHandler.

Lemma mkdir_chain_ok (path : string) (chain : list string) (fs : gmap string node) :
  (∀ a c, a ∈ chain → fs_lookup fs a ≠ Some (File c)) →
  ∃ fs', mkdir_chain path chain fs = inr fs'
         ∧ (∀ a, a ∈ chain → fs_lookup fs' a = Some Dir)
         ∧ (∀ k n, fs_lookup fs k = Some n → fs_lookup fs' k = Some n).
Proof.
  revert fs. induction chain as [|key chain IH]; intros fs Hfree; simpl.
  - exists fs. split; [done|]. split; [|done]. intros a Ha. by apply not_elem_of_nil in Ha.
  - destruct (fs_lookup fs key) as [[c|]|] eqn:Hkey.
    + destruct (Hfree key c); [apply elem_of_cons; by left|done].
    + destruct (IH fs) as (fs' & -> & Hdirs & Hkeep).
      { intros a c Ha. apply Hfree, elem_of_cons. by right. }
      exists fs'. split; [done|]. split; [|done].
      intros a [->|Ha]%elem_of_cons; [by apply Hkeep|by apply Hdirs].
    + assert (∀ k n, fs_lookup fs k = Some n → fs_lookup (<[key:=Dir]> fs) k = Some n)
        as Hins.
      { intros k n Hk. rewrite fs_lookup_insert_ne; [done|]. intros ->. congruence. }
      destruct (IH (<[key:=Dir]> fs)) as (fs' & -> & Hdirs & Hkeep).
      { intros a c Ha. destruct (decide (key = a)) as [<-|Hne].
        - rewrite fs_lookup_insert_eq; [done|].
          unfold fs_lookup in Hkey. by destruct (is_root key).
        - rewrite fs_lookup_insert_ne by done. apply Hfree, elem_of_cons. by right. }
      exists fs'. split; [done|]. split.
      * intros a [->|Ha]%elem_of_cons; [|by apply Hdirs].
        apply Hkeep, fs_lookup_insert_eq.
        unfold fs_lookup in Hkey. by destruct (is_root key).
      * intros k n Hk. by apply Hkeep, Hins.
Qed.

(** C5, as amended.  [copy] requires that the source path exists: when
    nothing is stored there it fails with the source-not-found error and
    touches nothing.  When the source exists and the destination is
    absent (and no regular file is in the way), the walk begins in a file
    system in which the destination and all its ancestors are
    directories, and nothing that existed has been changed. *)
Theorem copy_source_and_destination (fuel : nat) (src dest : string) (data : Data)
    (force : bool) (exclude ignore : option (list string)) (w : world) :
  (node_at (w_fs w) (fs_abspath src) = None →
   copy self fuel src dest data force exclude ignore w
   = (Raise (SourceNotFoundError (fs_abspath src)), log w [EvExists (fs_abspath src)]))
  ∧ (is_Some (node_at (w_fs w) (fs_abspath src)) →
     node_at (w_fs w) (fs_abspath dest) = None →
     (∀ a c, a ∈ ancestors (OsPath.abspath getcwd (fs_abspath dest)) →
             fs_lookup (w_fs w) a ≠ Some (File c)) →
     ∃ fs1,
       copy self fuel src dest data force exclude ignore w
       = (walk self (fs_abspath src) (fs_abspath dest) data force
            (default [] exclude) (default [] ignore) fuel (fs_abspath src)
          ≫= λ _, mret true)
           (World fs1 (w_modules w)
              (w_trace w ++ [EvExists (fs_abspath src); EvExists (fs_abspath dest);
                             EvMakedirs (fs_abspath dest)]))
       ∧ node_at fs1 (fs_abspath dest) = Some Dir
       ∧ (∀ a, a ∈ ancestors (OsPath.abspath getcwd (fs_abspath dest)) →
               fs_lookup fs1 a = Some Dir)
       ∧ (∀ k n, fs_lookup (w_fs w) k = Some n → fs_lookup fs1 k = Some n)).
Proof.
  split.
  - intros Hsrc. unfold copy.
    erewrite bind_Ok; [|apply os_path_exists_eq; normal].
    rewrite Hsrc. by rewrite bool_decide_eq_false_2 by (by intros [? ?]).
  - intros Hsrc Hdest Hfree.
    pose proof (resolve_Some _ (fs_abspath_nonempty dest)) as Hres.
    assert (fs_lookup (w_fs w) (OsPath.abspath getcwd (fs_abspath dest)) = None) as Hkey.
    { revert Hdest. unfold node_at. by rewrite Hres. }
    destruct (mkdir_chain_ok (fs_abspath dest) _ _ Hfree) as (fs' & Hchain & Hdirs & Hkeep).
    assert (is_root (OsPath.abspath getcwd (fs_abspath dest)) = false) as Hroot.
    { unfold fs_lookup in Hkey. by destruct (is_root _). }
    exists (<[OsPath.abspath getcwd (fs_abspath dest) := Dir]> fs').
    split; [|split; [|split]].
    + unfold copy, mbind, M_bind.
      rewrite os_path_exists_eq by normal.
      rewrite bool_decide_eq_true_2 by done.
      change (negb true) with false. cbv beta iota.
      rewrite os_path_exists_eq by normal.
      change (w_fs (log w _)) with (w_fs w).
      rewrite Hdest. rewrite bool_decide_eq_false_2 by (by intros [? ?]).
      unfold os_makedirs, mbind, M_bind, emit, get_world, set_fs.
      rewrite in_model_ok by normal. simpl.
      rewrite Hres, Hkey, Hchain. by rewrite !log_log.
    + unfold node_at. rewrite Hres. simpl. by apply fs_lookup_insert_eq.
    + intros a Ha. destruct (decide (OsPath.abspath getcwd (fs_abspath dest) = a)) as [<-|Hne].
      * by apply fs_lookup_insert_eq.
      * rewrite fs_lookup_insert_ne by done. by apply Hdirs.
    + intros k n Hk. rewrite fs_lookup_insert_ne; [by apply Hkeep|].
      intros <-. congruence.
Qed.

Lemma listing_is_dir (fs : gmap string node) (top : string)
    (l : list string * list string) :
  listing fs top = Some l → node_at fs top = Some Dir.
Proof.
  unfold listing, node_at. destruct (resolve top) as [key|]; simpl; [|done].
  by destruct (fs_lookup fs key) as [[]|].
Qed.

(** When the first file entry of the source directory renders to a
    destination that exists, [copy] without the overwrite flag ends with
    the destination-exists error, whatever the ignore and exclude patterns
    are: they have not been looked at. *)
Lemma copy_aborts_on_existing_destination (n : nat) (src dest : string) (data : Data)
    (exclude ignore : option (list string)) (f new_file : string) (rest : list string)
    (w : world) :
  is_Some (node_at (w_fs w) (fs_abspath dest)) →
  listing (w_fs w) (fs_abspath src) = Some ([], f :: rest) →
  re_sub_empty (fs_abspath src) (render f data) = Some new_file →
  is_Some (node_at (w_fs w) (fs_abspath (OsPath.join (fs_abspath dest) new_file))) →
  copy self (S n) src dest data false exclude ignore w
  = (Raise (DestinationExistsError (fs_abspath (OsPath.join (fs_abspath dest) new_file))),
     log w [EvExists (fs_abspath src); EvExists (fs_abspath dest);
            EvScandir (fs_abspath src); EvRender f;
            EvExists (fs_abspath (OsPath.join (fs_abspath dest) new_file))]).
Proof.
  intros Hdest Hlist Hsub Hfile.
  pose proof (listing_is_dir _ _ _ Hlist) as Hsrc.
  unfold copy.
  erewrite bind_Ok; [|apply os_path_exists_eq; normal].
  rewrite Hsrc, bool_decide_eq_true_2 by done.
  change (negb true) with false. cbv beta iota.
  erewrite bind_Ok; [|apply os_path_exists_eq; normal].
  change (w_fs (log w _)) with (w_fs w).
  rewrite bool_decide_eq_true_2 by done.
  erewrite bind_Ok; [|reflexivity].
  etrans; [eapply bind_Raise|].
  - simpl walk.
    erewrite bind_Ok; [|apply scandir_eq; normal].
    change (w_fs (log (log w _) _)) with (w_fs w). rewrite Hlist.
    eapply bind_Raise. unfold copy_dir.
    rewrite bool_decide_eq_false_2 by apply fs_abspath_not_dot.
    rewrite bool_decide_eq_true_2 by done.
    erewrite bind_Ok; [|reflexivity].
    erewrite bind_Ok; [|reflexivity].
    simpl for_each. eapply bind_Raise.
    by apply copy_file_dest_exists.
  - by rewrite !log_log.
Qed.

End CopyFacts.

(** ** The copier: what a whole run may open *)

Lemma emits_only_ret (P : event → Prop) {A : Type} (a : A) : emits_only P (mret a).
Proof. intros w. exists []. by rewrite app_nil_r. Qed.

Lemma emits_only_raise (P : event → Prop) {A : Type} (e : exn) :
  emits_only P (@raise A e).
Proof. intros w. exists []. by rewrite app_nil_r. Qed.

Lemma emits_only_out_of_fuel (P : event → Prop) {A : Type} :
  emits_only P (@out_of_fuel A).
Proof. intros w. exists []. by rewrite app_nil_r. Qed.

Lemma emits_only_in_model `{Env} (P : event → Prop) (path : string) :
  emits_only P (in_model path).
Proof. intros w. exists []. rewrite app_nil_r. unfold in_model. by destruct (normalised path). Qed.

Lemma emits_only_get_world (P : event → Prop) : emits_only P get_world.
Proof. intros w. exists []. by rewrite app_nil_r. Qed.

Lemma emits_only_set_fs (P : event → Prop) (fs : gmap string node) :
  emits_only P (set_fs fs).
Proof. intros w. exists []. simpl. by rewrite app_nil_r. Qed.

Lemma emits_only_emit (P : event → Prop) (e : event) : P e → emits_only P (emit e).
Proof. intros He w. exists [e]. split; [done|]. by constructor. Qed.

Lemma emits_only_bind (P : event → Prop) {A B : Type} (m : M A) (k : A → M B) :
  emits_only P m → (∀ a, emits_only P (k a)) → emits_only P (m ≫= k).
Proof.
  intros Hm Hk w. destruct (Hm w) as (es1 & E1 & F1).
  unfold mbind, M_bind. destruct (m w) as [[a|e| |] w1]; simpl in *.
  - destruct (Hk a w1) as (es2 & E2 & F2). exists (es1 ++ es2).
    split; [by rewrite E2, E1, app_assoc|by apply Forall_app].
  - by exists es1.
  - by exists es1.
  - by exists es1.
Qed.

Lemma emits_only_for_each (P : event → Prop) {A : Type} (xs : list A) (body : A → M unit) :
  (∀ x, emits_only P (body x)) → emits_only P (for_each xs body).
Proof.
  intros Hbody. induction xs as [|x xs IH]; simpl.
  - apply emits_only_ret.
  - apply emits_only_bind; [apply Hbody|done].
Qed.

(** The structure of a computation, peeled off step by step. *)
Ltac emits_step :=
  first
    [ apply emits_only_ret
    | apply emits_only_raise
    | apply emits_only_out_of_fuel
    | apply emits_only_in_model
    | apply emits_only_get_world
    | apply emits_only_set_fs
    | apply emits_only_emit; try exact I
    | apply emits_only_for_each; intros ?
    | apply emits_only_bind; [|intros ?]
    | match goal with
      | |- emits_only _ (match ?x with _ => _ end) => destruct x
      | |- emits_only _ (let '(_, _) := ?x in _) => destruct x
      end ].

Section WholeRun.
Context `{Env} `{Re} {Data : Type} `{TemplateHandlerBase Data}.
Variables (self : TemplateHandler) (exclude ignore : list string).

Local Abbreviation P := (permitted self exclude ignore).

Lemma emits_only_os_path_exists (path : string) : emits_only P (os_path_exists path).
Proof. unfold os_path_exists. repeat emits_step. Qed.

Lemma emits_only_os_makedirs (path : string) : emits_only P (os_makedirs path).
Proof. unfold os_makedirs. repeat emits_step. Qed.

Lemma emits_only_read_bytes (path : string) : emits_only P (read_bytes path).
Proof. unfold read_bytes. repeat emits_step. Qed.

Lemma emits_only_write_bytes (path content : string) :
  emits_only P (write_bytes path content).
Proof. unfold write_bytes. repeat emits_step. Qed.

Lemma emits_only_self_render (content : string) (data : Data) :
  emits_only P (self_render content data).
Proof. unfold self_render. repeat emits_step. Qed.

Lemma emits_only_of_re {A : Type} (r : option A) : emits_only P (of_re r).
Proof. unfold of_re. repeat emits_step. Qed.

Lemma emits_only_of_re_Some {A B : Type} (a : A) (k : A → M B) :
  emits_only P (k a) → emits_only P (of_re (Some a) ≫= k).
Proof. intros Hk w. exact (Hk w). Qed.

Lemma emits_only_of_re_None {A B : Type} (k : A → M B) :
  emits_only P (of_re None ≫= k).
Proof. intros w. exists []. by rewrite app_nil_r. Qed.

Lemma emits_only_shutil_copy (src dst : string) :
  matches_any (_meta_ignore self ++ ignore) src = Some false →
  matches_any (_meta_exclude self ++ exclude) src = Some true →
  emits_only P (shutil_copy src dst).
Proof.
  intros Hi He. unfold shutil_copy, os_path_isdir.
  repeat first [ apply emits_only_read_bytes | apply emits_only_write_bytes
               | apply emits_only_emit; by simpl | emits_step ].
Qed.

Lemma emits_only_copy_file (src : string) (data : Data) (force : bool)
    (cur_dir cur_dir_dest _file : string) :
  emits_only P (copy_file self src data force exclude ignore cur_dir cur_dir_dest _file).
Proof.
  unfold copy_file.
  apply emits_only_bind; [apply emits_only_self_render|intros rendered].
  apply emits_only_bind; [apply emits_only_of_re|intros new_file].
  apply emits_only_bind.
  { destruct force; [apply emits_only_ret|].
    apply emits_only_bind; [apply emits_only_os_path_exists|intros []];
      [apply emits_only_raise|apply emits_only_ret]. }
  intros _.
  destruct (matches_any (_meta_ignore self ++ ignore) _) as [[]|] eqn:Hi;
    [apply emits_only_of_re_Some, emits_only_ret| |apply emits_only_of_re_None].
  apply emits_only_of_re_Some.
  destruct (matches_any (_meta_exclude self ++ exclude) _) as [[]|] eqn:He;
    [| |apply emits_only_of_re_None]; apply emits_only_of_re_Some.
  - by apply emits_only_shutil_copy.
  - rewrite join_fs_abspath. unfold open_read, open_write.
    repeat first [ apply emits_only_read_bytes | apply emits_only_write_bytes
                 | apply emits_only_self_render
                 | apply emits_only_emit; by simpl | emits_step ].
Qed.

Lemma emits_only_copy_sub_dir (src : string) (data : Data) (cur_dir_dest sub_dir : string) :
  emits_only P (copy_sub_dir src data cur_dir_dest sub_dir).
Proof.
  unfold copy_sub_dir.
  repeat first [ apply emits_only_self_render | apply emits_only_of_re
               | apply emits_only_os_path_exists | apply emits_only_os_makedirs
               | emits_step ].
Qed.

Lemma emits_only_copy_dir (src dest : string) (data : Data) (force : bool)
    (cur_dir : string) (sub_dirs files : list string) :
  emits_only P (copy_dir self src dest data force exclude ignore cur_dir sub_dirs files).
Proof.
  unfold copy_dir.
  repeat first [ apply emits_only_self_render | apply emits_only_of_re
               | apply emits_only_copy_sub_dir | apply emits_only_copy_file
               | emits_step ].
Qed.

Lemma emits_only_scandir (top : string) : emits_only P (scandir top).
Proof. unfold scandir. repeat emits_step. Qed.

Lemma emits_only_walk (src dest : string) (data : Data) (force : bool)
    (fuel : nat) (top : string) :
  emits_only P (walk self src dest data force exclude ignore fuel top).
Proof.
  revert top. induction fuel as [|fuel IH]; intros top; simpl.
  - apply emits_only_out_of_fuel.
  - apply emits_only_bind; [apply emits_only_scandir|intros [[dirs nondirs]|]].
    + apply emits_only_bind; [apply emits_only_copy_dir|intros _].
      apply emits_only_for_each. intros dirname. apply IH.
    + apply emits_only_ret.
Qed.

End WholeRun.

(** ** Calls that ended well *)

Section FsInversion.
Context `{Env}.

Lemma in_model_Ok_inv (path : string) (w w' : world) (u : unit) :
  in_model path w = (Ok u, w') → normalised path = true ∧ w' = w.
Proof. unfold in_model. destruct (normalised path); [by intros [= _ <-]|done]. Qed.

Lemma read_bytes_Ok_inv (path content : string) (w w' : world) :
  read_bytes path w = (Ok content, w') →
  node_at (w_fs w) path = Some (File content) ∧ w' = w.
Proof.
  unfold read_bytes. intros Hrun.
  apply bind_Ok_inv in Hrun as ([] & w1 & [_ ->]%in_model_Ok_inv & Hrun).
  revert Hrun. unfold mbind, M_bind, get_world.
  destruct (node_at (w_fs w) path) as [[c|]|]; [|done..].
  by intros [= <- <-].
Qed.

Lemma write_bytes_Ok_inv (path content : string) (w w' : world) (u : unit) :
  write_bytes path content w = (Ok u, w') →
  can_write (w_fs w) path = true
  ∧ w' = World (written (w_fs w) path content) (w_modules w) (w_trace w).
Proof.
  unfold write_bytes. intros Hrun.
  apply bind_Ok_inv in Hrun as ([] & w1 & [_ ->]%in_model_Ok_inv & Hrun).
  revert Hrun. unfold mbind, M_bind, get_world, set_fs, can_write, written.
  destruct (resolve path) as [key|]; [|done].
  destruct (fs_lookup (w_fs w) key) as [[old|]|]; [|done|].
  - by intros [= <-].
  - destruct (fs_lookup (w_fs w) (OsPath.dirname key)) as [[c|]|] eqn:E; [done| |done].
    intros [= <-]. by rewrite bool_decide_eq_true_2.
Qed.

Lemma open_read_Ok_inv (path text : string) (w w' : world) :
  open_read path w = (Ok text, w') →
  ∃ content, node_at (w_fs w) path = Some (File content)
             ∧ decodable content = true
             ∧ text = PyStr.universal_newlines content
             ∧ w' = log w [EvRead path].
Proof.
  unfold open_read. intros Hrun.
  apply bind_Ok_inv in Hrun as ([] & w1 & [= <-] & Hrun).
  apply bind_Ok_inv in Hrun as (content & w2 & [Hc ->]%read_bytes_Ok_inv & Hrun).
  exists content. destruct (decodable content); [|done].
  injection Hrun as <- <-. done.
Qed.

Lemma open_write_Ok_inv (path content : string) (w w' : world) (u : unit) :
  open_write path content w = (Ok u, w') →
  can_write (w_fs w) path = true
  ∧ w' = World (written (w_fs w) path content) (w_modules w)
               (w_trace w ++ [EvWrite path content]).
Proof.
  unfold open_write. intros Hrun.
  apply bind_Ok_inv in Hrun as ([] & w1 & [= <-] & Hrun).
  by apply write_bytes_Ok_inv in Hrun as [Hw ->].
Qed.

Lemma os_path_isdir_Ok_inv (path : string) (b : bool) (w w' : world) :
  os_path_isdir path w = (Ok b, w') →
  b = bool_decide (node_at (w_fs w) path = Some Dir) ∧ w' = log w [EvIsdir path].
Proof.
  unfold os_path_isdir. intros Hrun.
  apply bind_Ok_inv in Hrun as ([] & w1 & [= <-] & Hrun).
  apply bind_Ok_inv in Hrun as ([] & w2 & [_ ->]%in_model_Ok_inv & Hrun).
  by injection Hrun as <- <-.
Qed.

Lemma os_path_exists_Ok_inv (path : string) (b : bool) (w w' : world) :
  os_path_exists path w = (Ok b, w') →
  b = bool_decide (is_Some (node_at (w_fs w) path)) ∧ w' = log w [EvExists path].
Proof.
  unfold os_path_exists. intros Hrun.
  apply bind_Ok_inv in Hrun as ([] & w1 & [= <-] & Hrun).
  apply bind_Ok_inv in Hrun as ([] & w2 & [_ ->]%in_model_Ok_inv & Hrun).
  by injection Hrun as <- <-.
Qed.

Lemma scandir_Ok_inv (top : string) (l : option (list string * list string))
    (w w' : world) :
  scandir top w = (Ok l, w') →
  l = listing (w_fs w) top ∧ w' = log w [EvScandir top].
Proof.
  unfold scandir. intros Hrun.
  apply bind_Ok_inv in Hrun as ([] & w1 & [= <-] & Hrun).
  apply bind_Ok_inv in Hrun as ([] & w2 & [_ ->]%in_model_Ok_inv & Hrun).
  by injection Hrun as <- <-.
Qed.

Lemma os_makedirs_Ok_inv (path : string) (w w' : world) (u : unit) :
  os_makedirs path w = (Ok u, w') →
  w' = World (made (w_fs w) path) (w_modules w) (w_trace w ++ [EvMakedirs path]).
Proof.
  unfold os_makedirs. intros Hrun.
  apply bind_Ok_inv in Hrun as ([] & w1 & [= <-] & Hrun).
  apply bind_Ok_inv in Hrun as ([] & w2 & [_ ->]%in_model_Ok_inv & Hrun).
  revert Hrun. unfold mbind, M_bind, get_world, set_fs, made. simpl.
  destruct (resolve path) as [key|]; [|done].
  destruct (fs_lookup (w_fs w) key) as [n|]; [done|].
  destruct (mkdir_chain path (ancestors key) (w_fs w)) as [e|fs']; [done|].
  by intros [= <-].
Qed.

(** A byte copy that ends well: where it went, and what it stored. *)
Lemma shutil_copy_Ok_inv (src dst : string) (w w' : world) (u : unit) :
  shutil_copy src dst w = (Ok u, w') →
  ∃ content target,
    node_at (w_fs w) src = Some (File content)
    ∧ target = (if bool_decide (node_at (w_fs w) dst = Some Dir)
                then OsPath.join dst (OsPath.basename src) else dst)
    ∧ can_write (w_fs w) target = true
    ∧ w' = World (written (w_fs w) target content) (w_modules w)
                 (w_trace w ++ [EvIsdir dst; EvCopyfile src target]).
Proof.
  unfold shutil_copy. intros Hrun.
  apply bind_Ok_inv in Hrun as (isdir & w1 & [-> ->]%os_path_isdir_Ok_inv & Hrun).
  set (target := if bool_decide (node_at (w_fs w) dst = Some Dir)
                 then OsPath.join dst (OsPath.basename src) else dst) in *.
  apply bind_Ok_inv in Hrun as ([] & w2 & [_ ->]%in_model_Ok_inv & Hrun).
  apply bind_Ok_inv in Hrun as ([] & w3 & [_ ->]%in_model_Ok_inv & Hrun).
  apply bind_Ok_inv in Hrun as (w0 & w4 & [= <- <-] & Hrun).
  case_bool_decide; [done|].
  apply bind_Ok_inv in Hrun as ([] & w5 & [= <-] & Hrun).
  apply bind_Ok_inv in Hrun as (content & w6 & [Hc ->]%read_bytes_Ok_inv & Hrun).
  apply write_bytes_Ok_inv in Hrun as [Hw ->].
  exists content, target. split; [done|]. split; [done|]. split; [done|].
  simpl. by rewrite <- app_assoc.
Qed.

End FsInversion.

(** ** The file system that a trace leaves *)

Section ReplayFacts.
Context `{Env}.

Lemma replay_app (es es' : list event) (fs : gmap string node) :
  replay (es ++ es') fs = replay es' (replay es fs).
Proof. apply fold_left_app. Qed.

Lemma replays_ret {A : Type} (a : A) : replays (mret a).
Proof. intros w a' w' [= <- <-]. exists []. by rewrite app_nil_r. Qed.

Lemma replays_raise {A : Type} (e : exn) : replays (@raise A e).
Proof. by intros w a w'. Qed.

Lemma replays_out_of_fuel {A : Type} : replays (@out_of_fuel A).
Proof. by intros w a w'. Qed.

Lemma replays_get_world : replays get_world.
Proof. intros w a' w' [= <- <-]. exists []. by rewrite app_nil_r. Qed.

Lemma replays_in_model (path : string) : replays (in_model path).
Proof.
  intros w [] w' [_ ->]%in_model_Ok_inv. exists []. by rewrite app_nil_r.
Qed.

Lemma replays_emit (e : event) :
  (∀ fs, replay_event fs e = fs) → replays (emit e).
Proof. intros He w [] w' [= <-]. exists [e]. split; [done|]. simpl. by rewrite He. Qed.

Lemma replays_bind {A B : Type} (m : M A) (k : A → M B) :
  replays m → (∀ a, replays (k a)) → replays (m ≫= k).
Proof.
  intros Hm Hk w b w' (a & w1 & Hrun1 & Hrun2)%bind_Ok_inv.
  destruct (Hm _ _ _ Hrun1) as (es1 & E1 & F1).
  destruct (Hk _ _ _ _ Hrun2) as (es2 & E2 & F2).
  exists (es1 ++ es2). split; [by rewrite E2, E1, app_assoc|].
  by rewrite replay_app, <- F1.
Qed.

Lemma replays_for_each {A : Type} (xs : list A) (body : A → M unit) :
  (∀ x, replays (body x)) → replays (for_each xs body).
Proof.
  intros Hbody. induction xs as [|x xs IH]; simpl.
  - apply replays_ret.
  - apply replays_bind; [apply Hbody|done].
Qed.

Lemma replays_os_path_exists (path : string) : replays (os_path_exists path).
Proof.
  intros w b w' [_ ->]%os_path_exists_Ok_inv. by exists [EvExists path].
Qed.

Lemma replays_scandir (top : string) : replays (scandir top).
Proof. intros w l w' [_ ->]%scandir_Ok_inv. by exists [EvScandir top]. Qed.

Lemma replays_open_read (path : string) : replays (open_read path).
Proof.
  intros w text w' (content & _ & _ & _ & ->)%open_read_Ok_inv. by exists [EvRead path].
Qed.

Lemma replays_open_write (path content : string) : replays (open_write path content).
Proof.
  intros w [] w' [_ ->]%open_write_Ok_inv. by exists [EvWrite path content].
Qed.

Lemma replays_os_makedirs (path : string) : replays (os_makedirs path).
Proof. intros w [] w' ->%os_makedirs_Ok_inv. by exists [EvMakedirs path]. Qed.

Lemma replays_shutil_copy (src dst : string) : replays (shutil_copy src dst).
Proof.
  intros w [] w' (content & target & Hsrc & _ & _ & ->)%shutil_copy_Ok_inv.
  exists [EvIsdir dst; EvCopyfile src target]. split; [done|].
  simpl. by rewrite Hsrc.
Qed.

End ReplayFacts.

Section ReplayCopy.
Context `{Env} `{Re} {Data : Type} `{TemplateHandlerBase Data}.
Variable self : TemplateHandler.

Lemma replays_self_render (content : string) (data : Data) :
  replays (self_render content data).
Proof.
  unfold self_render. apply replays_bind; [by apply replays_emit|intros _].
  apply replays_ret.
Qed.

Lemma replays_of_re {A : Type} (r : option A) : replays (of_re r).
Proof. destruct r; [apply replays_ret|apply replays_raise]. Qed.

Lemma replays_copy_file (src : string) (data : Data) (force : bool)
    (exclude ignore : list string) (cur_dir cur_dir_dest _file : string) :
  replays (copy_file self src data force exclude ignore cur_dir cur_dir_dest _file).
Proof.
  unfold copy_file.
  apply replays_bind; [apply replays_self_render|intros rendered].
  apply replays_bind; [apply replays_of_re|intros new_file].
  apply replays_bind.
  { destruct force; [apply replays_ret|].
    apply replays_bind; [apply replays_os_path_exists|intros []];
      [apply replays_raise|apply replays_ret]. }
  intros _.
  apply replays_bind; [apply replays_of_re|intros []]; [apply replays_ret|].
  apply replays_bind; [apply replays_of_re|intros []]; [apply replays_shutil_copy|].
  apply replays_bind; [apply replays_open_read|intros content].
  apply replays_bind; [apply replays_self_render|intros _file_content].
  apply replays_open_write.
Qed.

Lemma replays_copy_sub_dir (src : string) (data : Data) (cur_dir_dest sub_dir : string) :
  replays (copy_sub_dir src data cur_dir_dest sub_dir).
Proof.
  unfold copy_sub_dir.
  apply replays_bind; [apply replays_self_render|intros rendered].
  apply replays_bind; [apply replays_of_re|intros new_sub_dir].
  apply replays_bind; [apply replays_os_path_exists|intros []];
    [apply replays_ret|apply replays_os_makedirs].
Qed.

Lemma replays_copy_dir (src dest : string) (data : Data) (force : bool)
    (exclude ignore : list string) (cur_dir : string) (sub_dirs files : list string) :
  replays (copy_dir self src dest data force exclude ignore cur_dir sub_dirs files).
Proof.
  unfold copy_dir. case_bool_decide; [apply replays_ret|].
  apply replays_bind.
  { case_bool_decide; [apply replays_ret|].
    apply replays_bind; [apply replays_self_render|intros rendered].
    apply replays_bind; [apply replays_of_re|intros stub]. apply replays_ret. }
  intros cur_dir_dest.
  apply replays_bind;
    [apply replays_for_each; intros d; apply replays_copy_sub_dir|intros _].
  apply replays_for_each. intros f. apply replays_copy_file.
Qed.

Lemma replays_walk (src dest : string) (data : Data) (force : bool)
    (exclude ignore : list string) (fuel : nat) (top : string) :
  replays (walk self src dest data force exclude ignore fuel top).
Proof.
  revert top. induction fuel as [|fuel IH]; intros top; simpl.
  - apply replays_out_of_fuel.
  - apply replays_bind; [apply replays_scandir|intros [[dirs nondirs]|]].
    + apply replays_bind; [apply replays_copy_dir|intros _].
      apply replays_for_each. intros dirname. apply IH.
    + apply replays_ret.
Qed.

Lemma replays_copy (fuel : nat) (src dest : string) (data : Data) (force : bool)
    (exclude ignore : option (list string)) :
  replays (copy self fuel src dest data force exclude ignore).
Proof.
  unfold copy.
  apply replays_bind; [apply replays_os_path_exists|intros src_exists].
  destruct (negb src_exists); [apply replays_raise|].
  apply replays_bind; [apply replays_os_path_exists|intros dest_exists].
  apply replays_bind;
    [destruct dest_exists; [apply replays_ret|apply replays_os_makedirs]|intros _].
  apply replays_bind; [apply replays_walk|intros _]. apply replays_ret.
Qed.

End ReplayCopy.

(** ** The file entries of one directory *)

Section EntryFacts.
Context `{Env} `{Re} {Data : Type} `{TemplateHandlerBase Data}.
Variables (self : TemplateHandler) (src : string) (data : Data) (force : bool).
Variables (exclude ignore : list string) (cur_dir cur_dir_dest : string).

Local Abbreviation body :=
  (copy_file self src data force exclude ignore cur_dir cur_dir_dest).
Local Abbreviation dest_of := (entry_dest src data cur_dir_dest).
Local Abbreviation src_of := (entry_src cur_dir).
Local Abbreviation ignored := (entry_ignored self ignore cur_dir).
Local Abbreviation excluded := (entry_excluded self exclude cur_dir).
Local Abbreviation no_dir_dest := (no_dir_dest src data cur_dir_dest).

Lemma entry_dest_resolve (g d : string) : dest_of g = Some d → resolve d = Some d.
Proof.
  unfold entry_dest. destruct (re_sub_empty src (render g data)) as [new_file|]; [|done].
  intros [= <-]. apply resolve_fs_abspath.
Qed.

Lemma entry_src_resolve (g : string) : resolve (src_of g) = Some (src_of g).
Proof. apply resolve_fs_abspath. Qed.

Lemma node_at_written_not_dir (fs : gmap string node) (path content q : string) :
  node_at fs q ≠ Some Dir → node_at (written fs path content) q ≠ Some Dir.
Proof.
  unfold written, node_at.
  destruct (resolve path) as [key|]; [|done].
  destruct (resolve q) as [k|]; [|done]. simpl.
  destruct (decide (key = k)) as [<-|Hne].
  - unfold fs_lookup. destruct (is_root key); [done|]. by rewrite lookup_insert_eq.
  - by rewrite fs_lookup_insert_ne.
Qed.

Lemma node_at_written_key (fs : gmap string node) (path content q : string) :
  resolve path = Some path → resolve q = Some q → q ≠ path →
  node_at (written fs path content) q = node_at fs q.
Proof. intros Hp Hq Hne. apply node_at_written_other. congruence. Qed.

(** What a file entry that ends well has done: nothing when an ignore
    pattern matches, and otherwise one file stored at its destination,
    which holds the bytes of the source when an exclude pattern
    matches. *)
Lemma copy_file_Ok_inv (g : string) (w w1 : world) :
  body g w = (Ok (), w1) →
  (∀ d, dest_of g = Some d → node_at (w_fs w) d ≠ Some Dir) →
  ∃ d, dest_of g = Some d
    ∧ ((ignored g = Some true ∧ w_fs w1 = w_fs w)
       ∨ (ignored g = Some false
          ∧ ∃ content,
              can_write (w_fs w) d = true
              ∧ w_fs w1 = written (w_fs w) d content
              ∧ (excluded g = Some true →
                 node_at (w_fs w) (src_of g) = Some (File content)))).
Proof.
  intros Hrun Hdir. unfold copy_file in Hrun.
  apply bind_Ok_inv in Hrun as (rendered & w2 & [= <- <-] & Hrun).
  unfold entry_dest in *.
  destruct (re_sub_empty src (render g data)) as [new_file|]; [|done].
  apply bind_Ok_inv in Hrun as (? & w3 & [= <- <-] & Hrun).
  eexists. split; [done|].
  specialize (Hdir _ eq_refl).
  apply bind_Ok_inv in Hrun as ([] & w4 & Hcheck & Hrun).
  assert (w_fs w4 = w_fs w) as Hfs.
  { destruct force; [by injection Hcheck as <-|].
    apply bind_Ok_inv in Hcheck as (b & w5 & [-> ->]%os_path_exists_Ok_inv & Hcheck).
    case_bool_decide; [done|]. by injection Hcheck as <-. }
  unfold entry_ignored, entry_excluded, entry_src.
  destruct (matches_any (_meta_ignore self ++ ignore) _) as [[]|]; [| |done].
  { left. split; [done|]. injection Hrun as <-. done. }
  right. split; [done|].
  apply bind_Ok_inv in Hrun as (? & w5 & [= <- <-] & Hrun).
  destruct (matches_any (_meta_exclude self ++ exclude) _) as [[]|]; [| |done].
  - apply bind_Ok_inv in Hrun as (? & w5 & [= <- <-] & Hrun).
    apply shutil_copy_Ok_inv in Hrun as (content & target & Hsrc & -> & Hw & ->).
    rewrite Hfs in *. rewrite bool_decide_eq_false_2 in * by done.
    exists content. done.
  - apply bind_Ok_inv in Hrun as (? & w5 & [= <- <-] & Hrun).
    apply bind_Ok_inv in Hrun as (text & w6 & (c & _ & _ & _ & ->)%open_read_Ok_inv & Hrun).
    apply bind_Ok_inv in Hrun as (out & w7 & [= <- <-] & Hrun).
    apply open_write_Ok_inv in Hrun as [Hw ->]. simpl in *.
    rewrite Hfs in *. eexists. split; [done|]. split; [done|]. done.
Qed.

(** One entry that ends well, seen from a path [q]: what is stored at [q]
    stays, unless the entry is not ignored and [q] is its destination. *)
Lemma copy_file_keeps (g q : string) (w w1 : world) :
  body g w = (Ok (), w1) →
  (∀ d, dest_of g = Some d → node_at (w_fs w) d ≠ Some Dir) →
  resolve q = Some q →
  (ignored g = Some false → dest_of g ≠ Some q) →
  node_at (w_fs w1) q = node_at (w_fs w) q.
Proof.
  intros Hrun Hdir Hq Hother.
  destruct (copy_file_Ok_inv _ _ _ Hrun Hdir)
    as (d & Hd & [[_ ->]|(Hi & content & _ & -> & _)]); [done|].
  apply node_at_written_key; [by eapply entry_dest_resolve|done|].
  intros ->. by apply Hother.
Qed.

Lemma copy_file_no_dir (g q : string) (w w1 : world) :
  body g w = (Ok (), w1) →
  (∀ d, dest_of g = Some d → node_at (w_fs w) d ≠ Some Dir) →
  node_at (w_fs w) q ≠ Some Dir → node_at (w_fs w1) q ≠ Some Dir.
Proof.
  intros Hrun Hdir Hq.
  destruct (copy_file_Ok_inv _ _ _ Hrun Hdir)
    as (d & Hd & [[_ ->]|(Hi & content & _ & -> & _)]); [done|].
  by apply node_at_written_not_dir.
Qed.

(** The loop over the file entries, seen from a path that is the
    destination of no entry that is not ignored: it holds at the end what
    it held at the beginning. *)
Lemma file_loop_keeps (files : list string) (q : string) (w w' : world) :
  for_each files body w = (Ok (), w') →
  no_dir_dest files (w_fs w) →
  resolve q = Some q →
  (∀ g, g ∈ files → ignored g = Some false → dest_of g ≠ Some q) →
  node_at (w_fs w') q = node_at (w_fs w) q.
Proof.
  revert w. induction files as [|x xs IH]; intros w Hrun Hdir Hq Hother.
  - by injection Hrun as <-.
  - apply for_each_cons_inv in Hrun as (w1 & Hx & Hxs).
    assert (∀ d, dest_of x = Some d → node_at (w_fs w) d ≠ Some Dir) as Hdx.
    { intros d. apply Hdir, list_elem_of_here. }
    rewrite (IH w1); [| done | | done |].
    + apply (copy_file_keeps x); [done..|]. apply Hother, list_elem_of_here.
    + intros g d Hg Hd. apply (copy_file_no_dir x _ w); [done..|].
      apply (Hdir g); [by apply list_elem_of_further|done].
    + intros g Hg. by apply Hother, list_elem_of_further.
Qed.

(** The loop over the file entries, seen from the destination of an entry
    [f] that only an exclude pattern matches: when no other entry that is
    not ignored has the same destination, and none has the source of [f]
    as its destination, the bytes of [f] are there at the end. *)
Lemma file_loop_copies (files : list string) (f d_f c : string) (w w' : world) :
  for_each files body w = (Ok (), w') →
  no_dir_dest files (w_fs w) →
  dest_of f = Some d_f →
  ignored f = Some false →
  excluded f = Some true →
  (∀ g, g ∈ files → g ≠ f → ignored g = Some false → dest_of g ≠ Some d_f) →
  (∀ g, g ∈ files → ignored g = Some false → dest_of g ≠ Some (src_of f)) →
  node_at (w_fs w) (src_of f) = Some (File c) →
  f ∈ files ∨ node_at (w_fs w) d_f = Some (File c) →
  node_at (w_fs w') d_f = Some (File c).
Proof.
  intros Hrun Hdir Hd Hi He Hother Hsource. revert w Hrun Hdir.
  induction files as [|x xs IH]; intros w Hrun Hdir Hsrc Hdone.
  - injection Hrun as <-. destruct Hdone as [Hin|]; [|done]. by apply not_elem_of_nil in Hin.
  - apply for_each_cons_inv in Hrun as (w1 & Hx & Hxs).
    assert (∀ d, dest_of x = Some d → node_at (w_fs w) d ≠ Some Dir) as Hdx.
    { intros d. apply Hdir, list_elem_of_here. }
    pose proof (entry_dest_resolve _ _ Hd) as Hkey.
    apply (IH ltac:(intros g Hg; by apply Hother, list_elem_of_further)
              ltac:(intros g Hg; by apply Hsource, list_elem_of_further) w1); [done| | |].
    + intros g d Hg Hgd. apply (copy_file_no_dir x _ w); [done..|].
      apply (Hdir g); [by apply list_elem_of_further|done].
    + rewrite <- Hsrc. apply (copy_file_keeps x); [done..|apply entry_src_resolve|].
      apply Hsource, list_elem_of_here.
    + destruct (decide (x = f)) as [->|Hne].
      * right.
        destruct (copy_file_Ok_inv _ _ _ Hx Hdx)
          as (d & Hd' & [[Hi' _]|(_ & content & Hw & -> & Hbytes)]); [congruence|].
        assert (d = d_f) as -> by congruence.
        rewrite node_at_written by done.
        specialize (Hbytes He). congruence.
      * destruct Hdone as [Hin|Hthere]; [left|right].
        { apply elem_of_cons in Hin as [->|Hin]; done. }
        rewrite <- Hthere. apply (copy_file_keeps x); [done..|].
        apply Hother; [apply list_elem_of_here|done].
Qed.

End EntryFacts.

(** ** The tree that [copy] leaves *)

Section WholeCopy.
Context `{Env} `{Re} {Data : Type} `{TemplateHandlerBase Data}.
Variable self : TemplateHandler.

(** Whatever the inputs and however [copy] ends, every source file whose
    bytes it copies is matched by no ignore pattern and by some exclude
    pattern, and every file it reads as text is matched by no pattern of
    either list. *)
Lemma copy_opens_only_permitted (fuel : nat) (src dest : string) (data : Data)
    (force : bool) (exclude ignore : option (list string)) (w : world) :
  ∃ es,
    w_trace (copy self fuel src dest data force exclude ignore w).2 = w_trace w ++ es
    ∧ Forall (permitted self (default [] exclude) (default [] ignore)) es.
Proof.
  revert w. change (emits_only (permitted self (default [] exclude) (default [] ignore))
                      (copy self fuel src dest data force exclude ignore)).
  unfold copy.
  repeat first [ apply emits_only_os_path_exists | apply emits_only_os_makedirs
               | apply emits_only_walk | emits_step ].
Qed.

(** A run of [copy] that ends well over a source directory without
    sub-directories: the destination is created when it is missing, the
    source is listed once, and the loop over the file entries runs in the
    tree so prepared. *)
Lemma copy_flat_inv (n : nat) (src dest : string) (data : Data) (force : bool)
    (exclude ignore : option (list string)) (files : list string) (b : bool)
    (w w' : world) :
  copy self (S n) src dest data force exclude ignore w = (Ok b, w') →
  listing (prepared (w_fs w) (fs_abspath dest)) (fs_abspath src) = Some ([], files) →
  ∃ w1,
    w_fs w1 = prepared (w_fs w) (fs_abspath dest)
    ∧ for_each files
        (copy_file self (fs_abspath src) data force (default [] exclude)
           (default [] ignore) (fs_abspath src) (fs_abspath dest)) w1
      = (Ok (), w').
Proof.
  intros Hrun Hlist. unfold copy in Hrun.
  apply bind_Ok_inv in Hrun as (src_exists & w1 & [-> ->]%os_path_exists_Ok_inv & Hrun).
  destruct (negb _); [done|].
  apply bind_Ok_inv in Hrun as (dest_exists & w2 & [-> ->]%os_path_exists_Ok_inv & Hrun).
  apply bind_Ok_inv in Hrun as ([] & w3 & Hprep & Hrun).
  assert (w_fs w3 = prepared (w_fs w) (fs_abspath dest)) as Hfs.
  { unfold prepared. change (w_fs (log w _)) with (w_fs w) in Hprep.
    case_bool_decide; [by injection Hprep as <-|].
    by apply os_makedirs_Ok_inv in Hprep as ->. }
  apply bind_Ok_inv in Hrun as ([] & w4 & Hwalk & [= _ <-]).
  simpl walk in Hwalk.
  apply bind_Ok_inv in Hwalk as (l & w5 & [-> ->]%scandir_Ok_inv & Hwalk).
  rewrite Hfs, Hlist in Hwalk.
  apply bind_Ok_inv in Hwalk as ([] & w6 & Hdir & Hrest).
  injection Hrest as ->.
  unfold copy_dir in Hdir.
  rewrite bool_decide_eq_false_2 in Hdir by apply fs_abspath_not_dot.
  rewrite bool_decide_eq_true_2 in Hdir by done.
  apply bind_Ok_inv in Hdir as (? & w7 & [= <- <-] & Hdir).
  apply bind_Ok_inv in Hdir as ([] & w8 & [= <-] & Hdir).
  eexists. split; [|exact Hdir]. done.
Qed.

(** A run of [copy] that ends well has made the changes that its trace
    announces, and they are changes that the patterns permit. *)
Lemma copy_replays_permitted (fuel : nat) (src dest : string) (data : Data)
    (force : bool) (exclude ignore : option (list string)) (w : world) :
  ∃ es,
    w_trace (copy self fuel src dest data force exclude ignore w).2 = w_trace w ++ es
    ∧ Forall (permitted self (default [] exclude) (default [] ignore)) es
    ∧ (∀ b, (copy self fuel src dest data force exclude ignore w).1 = Ok b →
            w_fs (copy self fuel src dest data force exclude ignore w).2
            = replay es (w_fs w)).
Proof.
  destruct (copy_opens_only_permitted fuel src dest data force exclude ignore w)
    as (es & Hes & Hall).
  exists es. split; [done|]. split; [done|]. intros b Hb.
  destruct (copy self fuel src dest data force exclude ignore w) as [o w'] eqn:Hrun.
  simpl in *. subst o.
  destruct (replays_copy self fuel src dest data force exclude ignore _ _ _ Hrun)
    as (es' & Hes' & Hfs).
  rewrite Hes in Hes'. by apply app_inv_head in Hes' as <-.
Qed.

(** The file loop of one directory, seen from the destination of one of
    its entries. *)
Lemma file_loop_tree (src : string) (data : Data) (force : bool)
    (exclude ignore : list string) (cur_dir cur_dir_dest : string)
    (files : list string) (f d_f c : string) (w w' : world) :
  for_each files (copy_file self src data force exclude ignore cur_dir cur_dir_dest) w
  = (Ok (), w') →
  f ∈ files →
  entry_dest src data cur_dir_dest f = Some d_f →
  (∀ g d, g ∈ files → entry_dest src data cur_dir_dest g = Some d →
          node_at (w_fs w) d ≠ Some Dir) →
  (∀ g, g ∈ files → g ≠ f → entry_ignored self ignore cur_dir g = Some false →
        entry_dest src data cur_dir_dest g ≠ Some d_f) →
  (entry_ignored self ignore cur_dir f = Some true →
   node_at (w_fs w') d_f = node_at (w_fs w) d_f)
  ∧ (entry_ignored self ignore cur_dir f = Some false →
     entry_excluded self exclude cur_dir f = Some true →
     node_at (w_fs w) (entry_src cur_dir f) = Some (File c) →
     (∀ g, g ∈ files → entry_ignored self ignore cur_dir g = Some false →
           entry_dest src data cur_dir_dest g ≠ Some (entry_src cur_dir f)) →
     node_at (w_fs w') d_f = Some (File c)).
Proof.
  intros Hrun Hf Hd Hdir Hother. split.
  - intros Hi.
    apply (file_loop_keeps self src data force exclude ignore cur_dir cur_dir_dest files
             d_f w w'); [done|done|by eapply entry_dest_resolve|].
    intros g Hg Hgi. destruct (decide (g = f)) as [->|Hne]; [congruence|].
    by apply Hother.
  - intros Hi He Hsrc Hsource.
    apply (file_loop_copies self src data force exclude ignore cur_dir cur_dir_dest
             files f d_f c w w'); auto.
Qed.


(** C10.  Without the overwrite flag, a file entry whose destination
    exists fails with the destination-exists error although an ignore
    pattern matches its source path, and the error ends the loop over the
    files and whatever was to follow, while with the flag the same entry
    is skipped and nothing is written for it.  At the level of [copy]:
    when the first file entry of the source directory renders to a
    destination that exists, [copy] without the flag ends with that error
    for every ignore and exclude list, the patterns not having been looked
    at. *)
Theorem destination_check_before_ignore :
  (∀ (src : string) (data : Data) (exclude ignore : list string)
     (cur_dir cur_dir_dest f new_file : string) (rest : list string)
     (A : Type) (k : unit → M A) (w : world),
     let file_src := fs_abspath (OsPath.join cur_dir f) in
     let file_dest := fs_abspath (OsPath.join cur_dir_dest new_file) in
     re_sub_empty src (render f data) = Some new_file →
     is_Some (node_at (w_fs w) file_dest) →
     matches_any (_meta_ignore self ++ ignore) file_src = Some true →
     copy_file self src data false exclude ignore cur_dir cur_dir_dest f w
     = (Raise (DestinationExistsError file_dest), log w [EvRender f; EvExists file_dest])
     ∧ (for_each (f :: rest)
          (copy_file self src data false exclude ignore cur_dir cur_dir_dest) ≫= k) w
       = (Raise (DestinationExistsError file_dest), log w [EvRender f; EvExists file_dest])
     ∧ copy_file self src data true exclude ignore cur_dir cur_dir_dest f w
       = (Ok (), log w [EvRender f]))
  ∧ (∀ (n : nat) (src dest : string) (data : Data)
       (exclude ignore : option (list string)) (f new_file : string)
       (rest : list string) (w : world),
       let file_dest := fs_abspath (OsPath.join (fs_abspath dest) new_file) in
       is_Some (node_at (w_fs w) (fs_abspath dest)) →
       listing (w_fs w) (fs_abspath src) = Some ([], f :: rest) →
       re_sub_empty (fs_abspath src) (render f data) = Some new_file →
       is_Some (node_at (w_fs w) file_dest) →
       copy self (S n) src dest data false exclude ignore w
       = (Raise (DestinationExistsError file_dest),
          log w [EvExists (fs_abspath src); EvExists (fs_abspath dest);
                 EvScandir (fs_abspath src); EvRender f; EvExists file_dest])).
Proof.
  split.
  - intros src data exclude ignore cur_dir cur_dir_dest f new_file rest A k w
      file_src file_dest Hsub Hex Hi.
    by apply copy_file_checks_destination_first.
  - intros n src dest data exclude ignore f new_file rest w file_dest Hdest Hlist Hsub Hex.
    by eapply copy_aborts_on_existing_destination.
Qed.

End WholeCopy.

(** ** The concrete scenario *)


(** In the reference model a pattern matches at the beginning of the
    path and need not reach its end; it does not match further in. *)
Example re_match_anchored_partial :
  @re_match ReModel.re_model "/work" "/work/src/logo.png" = Some true
  ∧ @re_match ReModel.re_model "src" "/work/src/logo.png" = Some false
  ∧ @re_match ReModel.re_model "^(.*)\.png$" "/work/src/logo.png" = Some true
  ∧ @re_match ReModel.re_model "^(.*)\.png$" "/work/src/logo.png.txt" = Some false
  ∧ @re_match ReModel.re_model "^(.*)\.tar.gz$" "/work/src/a.tar-gz" = Some true
  ∧ @re_match ReModel.re_model "[" "/work/src/logo.png" = None.
Proof. repeat split; vm_compute; reflexivity. Qed.

(** What [re.sub(src, '', rendered)] leaves of a rendered path. *)
Example re_sub_empty_prefix :
  @re_sub_empty ReModel.re_model "/work/src" "/work/src/Acme" = Some "/Acme"
  ∧ @re_sub_empty ReModel.re_model "/work/src" "readme.txt" = Some "readme.txt".
Proof. split; vm_compute; reflexivity. Qed.

(** The paths that [load] probes: a trailing slash of the directory and a
    leading slash of the template path make no difference; a directory
    that consists of slashes only is stripped to the empty string, so the
    probe is relative to the working directory. *)
Example full_path_samples :
  @full_path Scenario.env "/srv/templates/" "/mail/hello.txt" = "/srv/templates/mail/hello.txt"
  ∧ @full_path Scenario.env "templates" "mail/../hello.txt" = "/work/templates/hello.txt"
  ∧ @full_path Scenario.env "/" "hello.txt" = "/work/hello.txt".
Proof. repeat split; vm_compute; reflexivity. Qed.

(** A sub-directory whose name renders to [x/../y]: the destination
    [/work/dest/x/../y] is not in normal form, and the run leaves the
    model. *)
Example copy_sub_dir_dotdot :
  @copy_sub_dir Scenario.env ReModel.re_model _ Scenario.engine "/work/src"
    [("name", "x/../y")] "/work/dest" "{{name}}" Scenario.world1
  = (Unmodelled,
     World Scenario.fs1 ∅ [EvRender "{{name}}"; EvExists "/work/dest/x/../y"]).
Proof. vm_compute. reflexivity. Qed.

(** A source file that no pattern matches and whose bytes do not decode:
    [copy] ends with [UnicodeDecodeError] at the read, with the overwrite
    flag as well, and the destination keeps what it held. *)
Example copy_undecodable_source :
  Scenario.run_copy 1 "src" "dest" true None None Cases.world_binary
  = (Raise UnicodeDecodeError,
     World Cases.fs_binary ∅
       [EvExists "/work/src"; EvExists "/work/dest"; EvScandir "/work/src";
        EvRender "notes.txt"; EvRead "/work/src/notes.txt"]).
Proof. vm_compute. reflexivity. Qed.

(** ** The theorems at concrete inputs *)

Import Scenario.

Lemma load_first_directory_hit_witness :
  @load load_env load_handler (Some "/index.html") load_world
  = (Ok ("<h1>{{title}}</h1>", "directory", Some "/work/templates/index.html"),
     World load_fs ∅
       [EvExists "/etc/myapp/templates/index.html";
        EvExists "/work/templates/index.html";
        EvRead "/work/templates/index.html"]).
Proof.
  etrans.
  - apply (@load_first_directory_hit load_env load_handler
             ["/etc/myapp/templates/"] [] "/work/templates" "/index.html"
             "<h1>{{title}}</h1>" load_world).
    + reflexivity.
    + discriminate.
    + intros d' Hd'. apply list_elem_of_singleton in Hd'. subst d'.
      vm_compute. reflexivity.
    + vm_compute. reflexivity.
    + vm_compute. reflexivity.
  - vm_compute. reflexivity.
Defined.

(** The claim C1 as stated fails: the path [mail] exists under the second
    configured directory, where it is a directory; [load] opens it, and
    ends with [IsADirectoryError] instead of returning a template. *)
Lemma load_existing_directory_counterexample :
  @node_at load_env Cases.fs_mail (@full_path load_env "/etc/myapp/templates/" "mail")
  = None
  ∧ (@os_path_exists load_env (@full_path load_env "/work/templates" "mail")
       Cases.world_mail).1 = Ok true
  ∧ @load load_env load_handler (Some "mail") Cases.world_mail
    = (Raise (IsADirectoryError "/work/templates/mail"),
       World Cases.fs_mail ∅
         [EvExists "/etc/myapp/templates/mail"; EvExists "/work/templates/mail";
          EvRead "/work/templates/mail"]).
Proof. repeat split; vm_compute; reflexivity. Qed.

Lemma load_from_module_witness :
  (@load load_env load_handler (Some "mail/hello.txt") load_world).1
  = Ok ("Hello from the package", "module", Some "myapp.templates.mail.hello.txt")
  ∧ @load load_env bare_handler (Some "mail/hello.txt") load_world
    = (Raise (TemplateNotFoundError "mail/hello.txt"),
       World load_fs ∅
         [EvExists "/etc/myapp/templates/mail/hello.txt";
          EvExists "/work/templates/mail/hello.txt";
          EvImport "no.such.module"]).
Proof.
  assert (∀ d, d ∈ ["/etc/myapp/templates/"; "/work/templates"] →
               @node_at load_env load_fs (@full_path load_env d "mail/hello.txt") = None)
    as Hmiss.
  { intros d Hd. apply elem_of_cons in Hd as [->|Hd]; [vm_compute; reflexivity|].
    apply list_elem_of_singleton in Hd. subst d. vm_compute. reflexivity. }
  split.
  - destruct (@load_from_module load_env load_handler "mail/hello.txt"
                "Hello from the package" load_world) as [T _];
      [discriminate|exact Hmiss|].
    etrans; [apply T|vm_compute; reflexivity].
    + vm_compute. reflexivity.
    + right. vm_compute. reflexivity.
  - destruct (@load_from_module load_env bare_handler "mail/hello.txt"
                "" load_world) as [_ T];
      [discriminate|exact Hmiss|].
    etrans; [apply T|vm_compute; reflexivity].
    + apply not_elem_of_empty.
    + vm_compute. reflexivity.
Defined.

Lemma load_not_found_witness :
  (@load load_env load_handler (Some "mail/bye.txt") load_world).1
  = Raise (TemplateNotFoundError "mail/bye.txt").
Proof.
  apply (@load_not_found load_env load_handler "mail/bye.txt" load_world).
  - discriminate.
  - intros d Hd. apply elem_of_cons in Hd as [->|Hd]; [vm_compute; reflexivity|].
    apply list_elem_of_singleton in Hd. subst d. vm_compute. reflexivity.
  - right. intros b. vm_compute. discriminate.
Defined.


(** The claim C3 as stated fails: no configured directory has a file at
    the path [mail] and the template module cannot be imported, so
    neither source yields content; but the second directory holds a
    directory there, and [load] ends with [IsADirectoryError], not with
    the not-found error: the module is not even tried. *)
Lemma load_no_content_counterexample :
  @node_at load_env Cases.fs_mail (@full_path load_env "/etc/myapp/templates/" "mail")
  = None
  ∧ @node_at load_env Cases.fs_mail (@full_path load_env "/work/templates" "mail")
    = Some Dir
  ∧ @importable load_env (template_module bare_handler) = false
  ∧ (@load load_env bare_handler (Some "mail") Cases.world_mail).1
    = Raise (IsADirectoryError "/work/templates/mail")
  ∧ w_trace (@load load_env bare_handler (Some "mail") Cases.world_mail).2
    = [EvExists "/etc/myapp/templates/mail"; EvExists "/work/templates/mail";
       EvRead "/work/templates/mail"].
Proof. repeat split; vm_compute; reflexivity. Qed.

Lemma copy_source_and_destination_witness :
  run_copy 2 "nowhere" "dest" false None None world0
  = (Raise (SourceNotFoundError "/work/nowhere"),
     World fs0 ∅ [EvExists "/work/nowhere"])
  ∧ ∃ fs1,
      run_copy 2 "src" "out/deep/dest" false None None world0
      = (@walk env ReModel.re_model _ engine handler
           (@fs_abspath env "src") (@fs_abspath env "out/deep/dest")
           data false [] [] 2 (@fs_abspath env "src") ≫= λ _, mret true)
          (World fs1 ∅
             [EvExists (@fs_abspath env "src");
              EvExists (@fs_abspath env "out/deep/dest");
              EvMakedirs (@fs_abspath env "out/deep/dest")])
      ∧ @node_at env fs1 (@fs_abspath env "out/deep/dest") = Some Dir
      ∧ (∀ a, a ∈ ancestors (OsPath.abspath (@getcwd env) (@fs_abspath env "out/deep/dest")) →
              @fs_lookup fs1 a = Some Dir)
      ∧ (∀ k n, @fs_lookup fs0 k = Some n → @fs_lookup fs1 k = Some n).
Proof.
  split.
  - destruct (@copy_source_and_destination env ReModel.re_model _ engine handler
                2 "nowhere" "dest" data false None None world0) as [T _].
    etrans; [apply T|vm_compute; reflexivity].
    vm_compute. reflexivity.
  - destruct (@copy_source_and_destination env ReModel.re_model _ engine handler
                2 "src" "out/deep/dest" data false None None world0) as [_ T].
    apply T.
    + vm_compute. eauto.
    + vm_compute. reflexivity.
    + intros a c.
      assert (ancestors (OsPath.abspath (@getcwd env) (@fs_abspath env "out/deep/dest"))
              = ["/work"; "/work/out"; "/work/out/deep"]) as -> by (vm_compute; reflexivity).
      intros Ha.
      apply elem_of_cons in Ha as [->|Ha]; [vm_compute; discriminate|].
      apply elem_of_cons in Ha as [->|Ha]; [vm_compute; discriminate|].
      apply list_elem_of_singleton in Ha. subst a. vm_compute. discriminate.
Defined.


(** The claim C5 as stated fails: a source that exists but is a regular
    file passes the check; [copy] creates the destination, finds nothing to
    walk and returns [True]. *)
Lemma copy_regular_file_source_counterexample :
  @node_at env fs1 "/work/src/notes.txt" = Some (File "new {{name}}")
  ∧ run_copy 1 "src/notes.txt" "out" false None None world1
    = (Ok true,
       World (<["/work/out" := Dir]> fs1) ∅
         [EvExists "/work/src/notes.txt"; EvExists "/work/out";
          EvMakedirs "/work/out"; EvScandir "/work/src/notes.txt"]).
Proof. split; vm_compute; reflexivity. Qed.





Lemma destination_check_before_ignore_witness :
  run_copy_file false [] ["^(.*)notes"] "notes.txt" world1
  = (Raise (DestinationExistsError "/work/dest/notes.txt"),
     World fs1 ∅ [EvRender "notes.txt"; EvExists "/work/dest/notes.txt"])
  ∧ run_copy_file true [] ["^(.*)notes"] "notes.txt" world1
    = (Ok (), World fs1 ∅ [EvRender "notes.txt"])
  ∧ run_copy 1 "src" "dest" false None (Some ["^(.*)notes"]) world1
    = (Raise (DestinationExistsError "/work/dest/notes.txt"),
       World fs1 ∅
         [EvExists "/work/src"; EvExists "/work/dest"; EvScandir "/work/src";
          EvRender "notes.txt"; EvExists "/work/dest/notes.txt"]).
Proof.
  destruct (@destination_check_before_ignore env ReModel.re_model _ engine handler)
    as [Tfile Trun].
  destruct (Tfile "/work/src" data [] ["^(.*)notes"] "/work/src" "/work/dest"
              "notes.txt" "notes.txt" [] unit mret world1
              ltac:(vm_compute; reflexivity)) as (T1 & _ & T2).
  - vm_compute. eauto.
  - vm_compute. reflexivity.
  - split; [etrans; [exact T1|vm_compute; reflexivity]|].
    split; [etrans; [exact T2|vm_compute; reflexivity]|].
    etrans; [apply (Trun 0 "src" "dest" data None (Some ["^(.*)notes"])
                      "notes.txt" "notes.txt" ["logo.png"] world1)
            |vm_compute; reflexivity].
    + vm_compute. eauto.
    + vm_compute. reflexivity.
    + vm_compute. reflexivity.
    + vm_compute. eauto.
Defined.


(** * Further properties of the loader *)

Section LoadMore.
Context `{Env}.
Variable self : TemplateHandler.

Lemma open_read_frame (path : string) (w : world) :
  w_fs (open_read path w).2 = w_fs w ∧ w_modules (open_read path w).2 = w_modules w.
Proof.
  unfold open_read, read_bytes, in_model, emit, get_world, mbind, M_bind. simpl.
  destruct (normalised path); [|done]. simpl.
  destruct (node_at (w_fs w) path) as [[raw|]|]; simpl; [|done..].
  by destruct (decodable raw).
Qed.

Lemma _load_template_from_file_loop_frame (dirs : list string) (p : string) (w : world) :
  w_fs (_load_template_from_file_loop dirs p w).2 = w_fs w
  ∧ w_modules (_load_template_from_file_loop dirs p w).2 = w_modules w.
Proof.
  revert w. induction dirs as [|d dirs IH]; intros w; simpl; [done|].
  unfold mbind at 1 3, M_bind at 1 3. rewrite os_path_exists_eq by normal.
  destruct (node_at (w_fs w) (full_path d p)) as [n|] eqn:E; simpl.
  - unfold mbind, M_bind.
    pose proof (open_read_frame (full_path d p) (log w [EvExists (full_path d p)])) as Hf.
    by destruct (open_read _ _) as [[c| | |] w1].
  - apply (IH (log w [EvExists (full_path d p)])).
Qed.

Lemma _load_template_from_file_loop_inv (dirs : list string) (p : string) (w w' : world)
    (r : option string * option string) :
  _load_template_from_file_loop dirs p w = (Ok r, w') →
  (r = (None, None) ∧ ∀ d, d ∈ dirs → node_at (w_fs w) (full_path d p) = None)
  ∨ (∃ pre d post raw,
       dirs = pre ++ d :: post
       ∧ (∀ d', d' ∈ pre → node_at (w_fs w) (full_path d' p) = None)
       ∧ node_at (w_fs w) (full_path d p) = Some (File raw)
       ∧ r = (Some (PyStr.universal_newlines raw), Some (full_path d p))).
Proof.
  revert w. induction dirs as [|d dirs IH]; intros w; simpl.
  - intros [= <- _]. left. split; [done|]. intros d Hd. by apply not_elem_of_nil in Hd.
  - unfold mbind at 1, M_bind at 1. rewrite os_path_exists_eq by normal.
    destruct (node_at (w_fs w) (full_path d p)) as [[raw|]|] eqn:E; simpl.
    + destruct (decodable raw) eqn:Hdec.
      * erewrite bind_Ok; [|by apply (open_read_file _ raw); [normal|..]].
        intros [= <- _].
        right. exists [], d, dirs, raw. split; [done|]. split; [|done].
        intros d' Hd'. by apply not_elem_of_nil in Hd'.
      * erewrite bind_Raise; [done|by apply (open_read_undecodable _ raw); [normal|..]].
    + erewrite bind_Raise; [done|by apply open_read_directory; [normal|]].
    + intros Hrun. destruct (IH _ Hrun) as [[-> Hmiss]|(pre & d1 & post & raw & -> & Hmiss & Hhit & ->)].
      * left. split; [done|]. intros d' [->|Hd']%elem_of_cons; [done|by apply Hmiss].
      * right. exists (d :: pre), d1, post, raw. split; [done|]. split; [|done].
        intros d' [->|Hd']%elem_of_cons; [done|by apply Hmiss].
Qed.

(** X1.  Whatever [load] returns is really there: a result of type
    ['directory'] is the text of a regular file stored at the returned
    path, which is the probe under a configured directory that no earlier
    directory shadows; any other result has type ['module'], no configured
    directory holds the path, and the content is the package's resource. *)
Theorem load_sound (template_path : option string) (w w' : world)
    (content template_type : string) (path : option string) :
  load self template_path w = (Ok (content, template_type, path), w') →
  ∃ p, template_path = Some p ∧ p ≠ ""
    ∧ ((template_type = "directory"
        ∧ ∃ pre d post raw,
            template_dirs self = pre ++ d :: post
            ∧ (∀ d', d' ∈ pre → node_at (w_fs w) (full_path d' p) = None)
            ∧ node_at (w_fs w) (full_path d p) = Some (File raw)
            ∧ content = PyStr.universal_newlines raw
            ∧ path = Some (full_path d p))
       ∨ (template_type = "module"
          ∧ (∀ d, d ∈ template_dirs self → node_at (w_fs w) (full_path d p) = None)
          ∧ (template_module self ∈ w_modules w ∨ importable (template_module self) = true)
          ∧ package_data (template_module self) (PyStr.lstrip "/" p) = DataBytes content
          ∧ path = Some (template_module self +:+ "."
                         +:+ PyStr.replace_char "/" "." (PyStr.lstrip "/" p)))).
Proof.
  destruct template_path as [p|]; [|done].
  destruct (decide (p = "")) as [->|Hp]; [done|].
  rewrite load_Some_nonempty by done. intros Hrun.
  exists p. split; [done|]. split; [done|].
  revert Hrun. unfold mbind at 1, M_bind at 1.
  destruct (_load_template_from_file self p w) as [[r| | |] w1] eqn:Hfile; [|done..].
  pose proof (_load_template_from_file_loop_frame (template_dirs self) p w) as [_ Hmods].
  unfold _load_template_from_file in Hfile. rewrite Hfile in Hmods. simpl in Hmods.
  destruct (_load_template_from_file_loop_inv _ _ _ _ _ Hfile)
    as [[-> Hmiss]|(pre & d & post & raw & Hdirs & Hmiss & Hhit & ->)].
  - intros Hrun. right.
    revert Hrun. unfold _load_template_from_module, mbind, M_bind, get_world, emit. simpl.
    rewrite Hmods.
    case_bool_decide as Hin; simpl.
    + destruct (package_data _ _) eqn:Hdata; simpl; [|done..].
      intros [= <- <- <- _]. eauto 10.
    + destruct (importable (template_module self)) eqn:Himp; simpl; [|done].
      destruct (package_data _ _) eqn:Hdata; simpl; [|done..].
      intros [= <- <- <- _]. eauto 10.
  - simpl. intros [= <- <- <- _]. left. split; [done|]. eauto 10.
Qed.


Lemma full_path_leading_slash (d p : string) : full_path d ("/" +:+ p) = full_path d p.
Proof. reflexivity. Qed.

Lemma rstrip_app_slash (d : string) : PyStr.rstrip "/" (d +:+ "/") = PyStr.rstrip "/" d.
Proof. induction d as [|a d IH]; [done|]. simpl. by rewrite IH. Qed.

Lemma full_path_trailing_slash (d p : string) : full_path (d +:+ "/") p = full_path d p.
Proof. unfold full_path. by rewrite rstrip_app_slash. Qed.

Lemma _load_template_from_file_loop_leading_slash (dirs : list string) (p : string) (w : world) :
  _load_template_from_file_loop dirs ("/" +:+ p) w = _load_template_from_file_loop dirs p w.
Proof.
  revert w. induction dirs as [|d dirs IH]; intros w; [done|].
  simpl. rewrite full_path_leading_slash. unfold mbind, M_bind.
  destruct (os_path_exists (full_path d p) w) as [[[]| | |] w1]; first [done|apply IH].
Qed.

Lemma _load_template_from_file_loop_trailing_slash (dirs : list string) (p : string) (w : world) :
  _load_template_from_file_loop ((λ d, d +:+ "/") <$> dirs) p w
  = _load_template_from_file_loop dirs p w.
Proof.
  revert w. induction dirs as [|d dirs IH]; intros w; [done|].
  simpl. rewrite full_path_trailing_slash. unfold mbind, M_bind.
  destruct (os_path_exists (full_path d p) w) as [[[]| | |] w1]; first [done|apply IH].
Qed.

Lemma load_run (h : TemplateHandler) (q : string) (w : world) :
  q ≠ "" →
  load h (Some q) w
  = match _load_template_from_file h q w with
    | (Ok (Some c, path), w1) => (Ok (c, "directory", path), w1)
    | (Ok (None, _), w1) =>
        match _load_template_from_module h q w1 with
        | (Ok (Some c, path), w2) => (Ok (c, "module", path), w2)
        | (Ok (None, _), w2) => (Raise (TemplateNotFoundError q), w2)
        | (Raise e, w2) => (Raise e, w2)
        | (OutOfFuel, w2) => (OutOfFuel, w2)
        | (Unmodelled, w2) => (Unmodelled, w2)
        end
    | (Raise e, w1) => (Raise e, w1)
    | (OutOfFuel, w1) => (OutOfFuel, w1)
    | (Unmodelled, w1) => (Unmodelled, w1)
    end.
Proof.
  intros Hq. rewrite load_Some_nonempty by done. unfold mbind, M_bind.
  destruct (_load_template_from_file h q w) as [[[[c|] path]| | |] w1]; try done.
  simpl. by destruct (_load_template_from_module h q w1) as [[[[c|] path']| | |] w2].
Qed.

(** X3.  Leading slashes of the template path are dropped before it is
    looked up: [load("/" + p)] leaves the same world as [load(p)] and has
    the same outcome, except that the not-found error names the path as it
    was given. *)
Theorem load_leading_slash (p : string) (w : world) :
  p ≠ "" →
  (load self (Some ("/" +:+ p)) w).2 = (load self (Some p) w).2
  ∧ ((load self (Some ("/" +:+ p)) w).1 = (load self (Some p) w).1
     ∨ ((load self (Some p) w).1 = Raise (TemplateNotFoundError p)
        ∧ (load self (Some ("/" +:+ p)) w).1
          = Raise (TemplateNotFoundError ("/" +:+ p)))).
Proof.
  intros Hp. rewrite (load_run self p) by done.
  rewrite (load_run self ("/" +:+ p)) by done.
  unfold _load_template_from_file.
  rewrite _load_template_from_file_loop_leading_slash.
  change (_load_template_from_module self ("/" +:+ p))
    with (_load_template_from_module self p).
  destruct (_load_template_from_file_loop (template_dirs self) p w)
    as [[[[c|] path]| | |] w1]; simpl; try (split; [done|]; by left).
  destruct (_load_template_from_module self p w1) as [[[[c|] path']| | |] w2]; simpl;
    (split; [done|]); first [by left|by right].
Qed.

(** X4.  A trailing slash on the configured template directories makes no
    difference: a handler whose directories each carry one more trailing
    slash loads exactly as the original one does, for every path and
    world, traces included. *)
Theorem load_trailing_slash (self' : TemplateHandler) (template_path : option string)
    (w : world) :
  template_dirs self' = (λ d, d +:+ "/") <$> template_dirs self →
  template_module self' = template_module self →
  load self' template_path w = load self template_path w.
Proof.
  intros Hdirs Hmod. destruct template_path as [p|]; [|done].
  destruct (decide (p = "")) as [->|Hp]; [done|].
  rewrite !load_run by done.
  unfold _load_template_from_file. rewrite Hdirs.
  rewrite _load_template_from_file_loop_trailing_slash.
  unfold _load_template_from_module. by rewrite Hmod.
Qed.

End LoadMore.

(** * Further properties of the copier *)

Section PatternMore.
Context `{Re}.

(** X6.  The pattern loop stops at the first pattern that matches: the
    patterns after it are never tried, so they may even fail to compile;
    a pattern that does not compile and is reached before any match makes
    the loop fail with [re.error]. *)
Theorem matches_any_first_match (pre post : list string) (p path : string) :
  (∀ q, q ∈ pre → re_match q path = Some false) →
  (re_match p path = Some true → matches_any (pre ++ p :: post) path = Some true)
  ∧ (re_match p path = None → matches_any (pre ++ p :: post) path = None)
  ∧ (re_match p path = Some false →
     matches_any (pre ++ p :: post) path = matches_any post path).
Proof.
  induction pre as [|q pre IH]; intros Hpre; simpl.
  - repeat split; by intros ->.
  - rewrite (Hpre q) by (apply elem_of_cons; by left). simpl.
    apply IH. intros q' Hq'. apply Hpre, elem_of_cons. by right.
Qed.

End PatternMore.

Section CopyFileMore.
Context `{Env} `{Re} {Data : Type} `{TemplateHandlerBase Data}.
Variables (self : TemplateHandler) (src : string) (data : Data).
Variables (exclude ignore : list string).
Variables (cur_dir cur_dir_dest f : string).

Local Abbreviation file_src := (fs_abspath (OsPath.join cur_dir f)).

(** X7.  A file entry ends with [re.error], before anything is read or
    written, when the source path is not a valid regular expression, and,
    once the overwrite check has passed, when an ignore pattern that is
    reached does not compile, or when no ignore pattern matches and an
    exclude pattern that is reached does not compile. *)
Theorem copy_file_re_error (force : bool) (new_file : string) (w : world) :
  (re_sub_empty src (render f data) = None →
   copy_file self src data force exclude ignore cur_dir cur_dir_dest f w
   = (Raise ReError, log w [EvRender f]))
  ∧ (re_sub_empty src (render f data) = Some new_file →
     force = true
     ∨ node_at (w_fs w) (fs_abspath (OsPath.join cur_dir_dest new_file)) = None →
     matches_any (_meta_ignore self ++ ignore) file_src = None
     ∨ (matches_any (_meta_ignore self ++ ignore) file_src = Some false
        ∧ matches_any (_meta_exclude self ++ exclude) file_src = None) →
     (copy_file self src data force exclude ignore cur_dir cur_dir_dest f w).1
     = Raise ReError
     ∧ w_fs (copy_file self src data force exclude ignore cur_dir cur_dir_dest f w).2
       = w_fs w).
Proof.
  split.
  - intros Hsub. unfold copy_file.
    erewrite bind_Ok; [|reflexivity]. by rewrite Hsub.
  - intros Hsub Hcheck Hbad.
    rewrite (copy_file_checked self src data exclude ignore cur_dir cur_dir_dest f
               new_file Hsub force w Hcheck).
    destruct Hbad as [->|[-> ->]]; done.
Qed.

(** X8.  When the rendered file name is an absolute path, the destination
    directory of the entry plays no part: the entry behaves the same under
    any two destination directories, so what it writes goes to that
    absolute path. *)
Theorem copy_file_absolute_name (force : bool) (new_file other_dest : string) (w : world) :
  re_sub_empty src (render f data) = Some new_file →
  OsPath.isabs new_file = true →
  copy_file self src data force exclude ignore cur_dir cur_dir_dest f w
  = copy_file self src data force exclude ignore cur_dir other_dest f w.
Proof.
  intros Hsub Habs. unfold copy_file, mbind, M_bind.
  destruct (self_render f data w) as [[rendered| | |] w1] eqn:E; [|done..].
  injection E as <- <-. rewrite Hsub. simpl.
  by rewrite !(join_isabs _ new_file) by done.
Qed.

End CopyFileMore.

Section CopyEntries.
Context `{Env} `{Re} {Data : Type} `{TemplateHandlerBase Data}.
Variables (self : TemplateHandler) (src : string) (data : Data).
Variables (exclude ignore : list string).
Variables (cur_dir cur_dir_dest : string).

Lemma copy_file_rendered (f new_file : string) (force : bool) (c : string) (w : world) :
  re_sub_empty src (render f data) = Some new_file →
  force = true
  ∨ node_at (w_fs w) (fs_abspath (OsPath.join cur_dir_dest new_file)) = None →
  matches_any (_meta_ignore self ++ ignore) (fs_abspath (OsPath.join cur_dir f)) = Some false →
  matches_any (_meta_exclude self ++ exclude) (fs_abspath (OsPath.join cur_dir f)) = Some false →
  node_at (w_fs w) (fs_abspath (OsPath.join cur_dir f)) = Some (File c) →
  decodable c = true →
  can_write (w_fs w) (fs_abspath (OsPath.join cur_dir_dest new_file)) = true →
  copy_file self src data force exclude ignore cur_dir cur_dir_dest f w
  = (Ok (),
     World (written (w_fs w) (fs_abspath (OsPath.join cur_dir_dest new_file))
              (render (PyStr.universal_newlines c) data))
       (w_modules w)
       (w_trace w
        ++ EvRender f
           :: (if force then [] else [EvExists (fs_abspath (OsPath.join cur_dir_dest new_file))])
        ++ [EvRead (fs_abspath (OsPath.join cur_dir f));
            EvRender (PyStr.universal_newlines c);
            EvWrite (fs_abspath (OsPath.join cur_dir_dest new_file))
              (render (PyStr.universal_newlines c) data)])).
Proof.
  intros Hsub Hcheck Hi He Hsrc Hdec Hw.
  rewrite (copy_file_checked self src data exclude ignore cur_dir cur_dir_dest f
             new_file Hsub force w Hcheck).
  erewrite after_check_rendered; [|done..]. simpl. by rewrite <- app_assoc.
Qed.



End CopyEntries.

(** ** What [copy] keeps *)

Lemma fs_kept_refl (fs : gmap string node) : fs_kept fs fs.
Proof. intros key. destruct (fs_lookup fs key) as [[c|]|]; eauto. Qed.

Lemma fs_kept_trans (fs1 fs2 fs3 : gmap string node) :
  fs_kept fs1 fs2 → fs_kept fs2 fs3 → fs_kept fs1 fs3.
Proof.
  intros H12 H23 key. specialize (H12 key). specialize (H23 key).
  destruct (fs_lookup fs1 key) as [[c|]|]; [| |done].
  - destruct H12 as [c2 E]. by rewrite E in H23.
  - by rewrite H12 in H23.
Qed.

Lemma fs_kept_insert_new (fs : gmap string node) (key : string) (n : node) :
  fs_lookup fs key = None → fs_kept fs (<[key := n]> fs).
Proof.
  intros Hnew k. destruct (decide (key = k)) as [<-|Hne].
  - by rewrite Hnew.
  - unfold fs_lookup. rewrite lookup_insert_ne by done.
    destruct (is_root k); [done|]. destruct (fs !! k) as [[c|]|]; eauto.
Qed.

Lemma fs_kept_insert_file (fs : gmap string node) (key old content : string) :
  fs_lookup fs key = Some (File old) → fs_kept fs (<[key := File content]> fs).
Proof.
  intros Hold k. destruct (decide (key = k)) as [<-|Hne].
  - rewrite Hold. exists content. unfold fs_lookup in *.
    destruct (is_root key); [done|]. apply lookup_insert_eq.
  - unfold fs_lookup. rewrite lookup_insert_ne by done.
    destruct (is_root k); [done|]. destruct (fs !! k) as [[c|]|]; eauto.
Qed.

Lemma fs_kept_mkdir_chain (path : string) (chain : list string) (fs fs' : gmap string node) :
  mkdir_chain path chain fs = inr fs' → fs_kept fs fs'.
Proof.
  revert fs. induction chain as [|key chain IH]; intros fs; simpl.
  - intros [= <-]. apply fs_kept_refl.
  - destruct (fs_lookup fs key) as [[c|]|] eqn:Hkey; [done|apply IH|].
    intros Hrun. eapply fs_kept_trans; [by apply fs_kept_insert_new|by apply IH].
Qed.

Lemma keeps_fs_ret {A : Type} (a : A) : keeps_fs (mret a).
Proof. intros w. apply fs_kept_refl. Qed.

Lemma keeps_fs_raise {A : Type} (e : exn) : keeps_fs (@raise A e).
Proof. intros w. apply fs_kept_refl. Qed.

Lemma keeps_fs_out_of_fuel {A : Type} : keeps_fs (@out_of_fuel A).
Proof. intros w. apply fs_kept_refl. Qed.

Lemma keeps_fs_emit (e : event) : keeps_fs (emit e).
Proof. intros w. apply fs_kept_refl. Qed.

Lemma keeps_fs_bind {A B : Type} (m : M A) (k : A → M B) :
  keeps_fs m → (∀ a, keeps_fs (k a)) → keeps_fs (m ≫= k).
Proof.
  intros Hm Hk w. specialize (Hm w). unfold mbind, M_bind.
  destruct (m w) as [[a|e| |] w1]; simpl in *; [|done..].
  eapply fs_kept_trans; [done|apply Hk].
Qed.

Lemma keeps_fs_for_each {A : Type} (xs : list A) (body : A → M unit) :
  (∀ x, keeps_fs (body x)) → keeps_fs (for_each xs body).
Proof.
  intros Hbody. induction xs as [|x xs IH]; simpl.
  - apply keeps_fs_ret.
  - apply keeps_fs_bind; [apply Hbody|done].
Qed.

Section KeepsFs.
Context `{Env} `{Re} {Data : Type} `{TemplateHandlerBase Data}.
Variable self : TemplateHandler.

Lemma keeps_fs_in_model (path : string) : keeps_fs (in_model path).
Proof. intros w. unfold in_model. destruct (normalised path); apply fs_kept_refl. Qed.

Lemma keeps_fs_os_path_exists (path : string) : keeps_fs (os_path_exists path).
Proof.
  unfold os_path_exists.
  apply keeps_fs_bind; [apply keeps_fs_emit|intros _].
  apply keeps_fs_bind; [apply keeps_fs_in_model|intros _].
  intros w. apply fs_kept_refl.
Qed.

Lemma keeps_fs_os_path_isdir (path : string) : keeps_fs (os_path_isdir path).
Proof.
  unfold os_path_isdir.
  apply keeps_fs_bind; [apply keeps_fs_emit|intros _].
  apply keeps_fs_bind; [apply keeps_fs_in_model|intros _].
  intros w. apply fs_kept_refl.
Qed.

Lemma keeps_fs_scandir (top : string) : keeps_fs (scandir top).
Proof.
  unfold scandir.
  apply keeps_fs_bind; [apply keeps_fs_emit|intros _].
  apply keeps_fs_bind; [apply keeps_fs_in_model|intros _].
  intros w. apply fs_kept_refl.
Qed.

Lemma keeps_fs_read_bytes (path : string) : keeps_fs (read_bytes path).
Proof.
  unfold read_bytes. apply keeps_fs_bind; [apply keeps_fs_in_model|intros _].
  intros w. unfold mbind, M_bind, get_world.
  destruct (node_at (w_fs w) path) as [[c|]|]; apply fs_kept_refl.
Qed.

Lemma keeps_fs_write_bytes (path content : string) : keeps_fs (write_bytes path content).
Proof.
  unfold write_bytes. apply keeps_fs_bind; [apply keeps_fs_in_model|intros _].
  intros w. unfold mbind, M_bind, get_world, set_fs.
  destruct (resolve path) as [key|]; [|apply fs_kept_refl].
  destruct (fs_lookup (w_fs w) key) as [[old|]|] eqn:Hkey; simpl.
  - by eapply fs_kept_insert_file.
  - apply fs_kept_refl.
  - destruct (fs_lookup (w_fs w) (OsPath.dirname key)) as [[c|]|]; simpl;
      first [apply fs_kept_refl|by apply fs_kept_insert_new].
Qed.

Lemma keeps_fs_os_makedirs (path : string) : keeps_fs (os_makedirs path).
Proof.
  unfold os_makedirs.
  apply keeps_fs_bind; [apply keeps_fs_emit|intros _].
  apply keeps_fs_bind; [apply keeps_fs_in_model|intros _].
  intros w. unfold mbind, M_bind, get_world, set_fs. simpl.
  destruct (resolve path) as [key|]; [|apply fs_kept_refl].
  destruct (fs_lookup (w_fs w) key) as [n|] eqn:Hkey; [apply fs_kept_refl|].
  destruct (mkdir_chain path (ancestors key) (w_fs w)) as [e|fs'] eqn:Hchain; simpl;
    [apply fs_kept_refl|].
  pose proof (fs_kept_mkdir_chain _ _ _ _ Hchain) as Hkept.
  destruct (fs_lookup fs' key) as [n|] eqn:Hkey'.
  - intros k. specialize (Hkept k). destruct (decide (key = k)) as [<-|Hne].
    + by rewrite Hkey.
    + by rewrite fs_lookup_insert_ne.
  - eapply fs_kept_trans; [done|by apply fs_kept_insert_new].
Qed.

Lemma keeps_fs_shutil_copy (src dst : string) : keeps_fs (shutil_copy src dst).
Proof.
  unfold shutil_copy. apply keeps_fs_bind; [apply keeps_fs_os_path_isdir|intros isdir].
  apply keeps_fs_bind; [apply keeps_fs_in_model|intros _].
  apply keeps_fs_bind; [apply keeps_fs_in_model|intros _].
  apply keeps_fs_bind; [intros w; apply fs_kept_refl|intros w0].
  case_bool_decide; [apply keeps_fs_raise|].
  apply keeps_fs_bind; [apply keeps_fs_emit|intros _].
  apply keeps_fs_bind; [apply keeps_fs_read_bytes|intros content].
  apply keeps_fs_write_bytes.
Qed.

Lemma keeps_fs_self_render (content : string) (data : Data) :
  keeps_fs (self_render content data).
Proof. intros w. apply fs_kept_refl. Qed.

Lemma keeps_fs_of_re {A : Type} (r : option A) : keeps_fs (of_re r).
Proof. intros w. destruct r; apply fs_kept_refl. Qed.

Lemma keeps_fs_copy_file (src : string) (data : Data) (force : bool)
    (exclude ignore : list string) (cur_dir cur_dir_dest _file : string) :
  keeps_fs (copy_file self src data force exclude ignore cur_dir cur_dir_dest _file).
Proof.
  unfold copy_file.
  apply keeps_fs_bind; [apply keeps_fs_self_render|intros rendered].
  apply keeps_fs_bind; [apply keeps_fs_of_re|intros new_file].
  apply keeps_fs_bind.
  { destruct force; [apply keeps_fs_ret|].
    apply keeps_fs_bind; [apply keeps_fs_os_path_exists|intros []];
      [apply keeps_fs_raise|apply keeps_fs_ret]. }
  intros _.
  apply keeps_fs_bind; [apply keeps_fs_of_re|intros []]; [apply keeps_fs_ret|].
  apply keeps_fs_bind; [apply keeps_fs_of_re|intros []]; [apply keeps_fs_shutil_copy|].
  apply keeps_fs_bind.
  { unfold open_read. apply keeps_fs_bind; [apply keeps_fs_emit|intros _].
    apply keeps_fs_bind; [apply keeps_fs_read_bytes|intros c].
    destruct (decodable c); [apply keeps_fs_ret|apply keeps_fs_raise]. }
  intros content.
  apply keeps_fs_bind; [apply keeps_fs_self_render|intros _file_content].
  unfold open_write. apply keeps_fs_bind; [apply keeps_fs_emit|intros _].
  apply keeps_fs_write_bytes.
Qed.

Lemma keeps_fs_copy_sub_dir (src : string) (data : Data) (cur_dir_dest sub_dir : string) :
  keeps_fs (copy_sub_dir src data cur_dir_dest sub_dir).
Proof.
  unfold copy_sub_dir.
  apply keeps_fs_bind; [apply keeps_fs_self_render|intros rendered].
  apply keeps_fs_bind; [apply keeps_fs_of_re|intros new_sub_dir].
  apply keeps_fs_bind; [apply keeps_fs_os_path_exists|intros []];
    [apply keeps_fs_ret|apply keeps_fs_os_makedirs].
Qed.

Lemma keeps_fs_copy_dir (src dest : string) (data : Data) (force : bool)
    (exclude ignore : list string) (cur_dir : string) (sub_dirs files : list string) :
  keeps_fs (copy_dir self src dest data force exclude ignore cur_dir sub_dirs files).
Proof.
  unfold copy_dir. case_bool_decide; [apply keeps_fs_ret|].
  apply keeps_fs_bind.
  { case_bool_decide; [apply keeps_fs_ret|].
    apply keeps_fs_bind; [apply keeps_fs_self_render|intros rendered].
    apply keeps_fs_bind; [apply keeps_fs_of_re|intros stub]. apply keeps_fs_ret. }
  intros cur_dir_dest.
  apply keeps_fs_bind;
    [apply keeps_fs_for_each; intros d; apply keeps_fs_copy_sub_dir|intros _].
  apply keeps_fs_for_each. intros f. apply keeps_fs_copy_file.
Qed.

Lemma keeps_fs_walk (src dest : string) (data : Data) (force : bool)
    (exclude ignore : list string) (fuel : nat) (top : string) :
  keeps_fs (walk self src dest data force exclude ignore fuel top).
Proof.
  revert top. induction fuel as [|fuel IH]; intros top; simpl.
  - apply keeps_fs_out_of_fuel.
  - apply keeps_fs_bind; [apply keeps_fs_scandir|intros [[dirs nondirs]|]].
    + apply keeps_fs_bind; [apply keeps_fs_copy_dir|intros _].
      apply keeps_fs_for_each. intros dirname. apply IH.
    + apply keeps_fs_ret.
Qed.

(** X11.  [copy] never deletes and never changes the kind of what exists:
    whatever its inputs and however it ends (success, an exception half
    way, or the walk cut short), every directory of the file system is
    still a directory afterwards and every regular file is still a regular
    file. *)
Theorem copy_keeps_fs (fuel : nat) (src dest : string) (data : Data) (force : bool)
    (exclude ignore : option (list string)) (w : world) :
  fs_kept (w_fs w) (w_fs (copy self fuel src dest data force exclude ignore w).2).
Proof.
  revert w. change (keeps_fs (copy self fuel src dest data force exclude ignore)).
  unfold copy.
  apply keeps_fs_bind; [apply keeps_fs_os_path_exists|intros src_exists].
  destruct (negb src_exists); [apply keeps_fs_raise|].
  apply keeps_fs_bind; [apply keeps_fs_os_path_exists|intros dest_exists].
  apply keeps_fs_bind;
    [destruct dest_exists; [apply keeps_fs_ret|apply keeps_fs_os_makedirs]|intros _].
  apply keeps_fs_bind; [apply keeps_fs_walk|intros _]. apply keeps_fs_ret.
Qed.

End KeepsFs.

(** ** Sub-directory entries and the order of a run *)

Section CopyOrder.
Context `{Env} `{Re} {Data : Type} `{TemplateHandlerBase Data}.
Variable self : TemplateHandler.

Lemma os_makedirs_ok (path : string) (w : world) :
  normalised path = true →
  path ≠ "" →
  node_at (w_fs w) path = None →
  (∀ a c, a ∈ ancestors (OsPath.abspath getcwd path) → fs_lookup (w_fs w) a ≠ Some (File c)) →
  ∃ fs1,
    os_makedirs path w = (Ok (), World fs1 (w_modules w) (w_trace w ++ [EvMakedirs path]))
    ∧ node_at fs1 path = Some Dir
    ∧ (∀ a, a ∈ ancestors (OsPath.abspath getcwd path) → fs_lookup fs1 a = Some Dir)
    ∧ (∀ k n, fs_lookup (w_fs w) k = Some n → fs_lookup fs1 k = Some n).
Proof.
  intros Hn Hp Hnone Hfree.
  pose proof (resolve_Some _ Hp) as Hres.
  assert (fs_lookup (w_fs w) (OsPath.abspath getcwd path) = None) as Hkey.
  { revert Hnone. unfold node_at. by rewrite Hres. }
  destruct (mkdir_chain_ok path _ _ Hfree) as (fs' & Hchain & Hdirs & Hkeep).
  assert (is_root (OsPath.abspath getcwd path) = false) as Hroot.
  { unfold fs_lookup in Hkey. by destruct (is_root _). }
  exists (<[OsPath.abspath getcwd path := Dir]> fs').
  split; [|split; [|split]].
  - unfold os_makedirs, mbind, M_bind, emit, get_world, set_fs.
    rewrite in_model_ok by done. simpl.
    by rewrite Hres, Hkey, Hchain.
  - unfold node_at. rewrite Hres. simpl. by apply fs_lookup_insert_eq.
  - intros a Ha. destruct (decide (OsPath.abspath getcwd path = a)) as [<-|Hne].
    + by apply fs_lookup_insert_eq.
    + rewrite fs_lookup_insert_ne by done. by apply Hdirs.
  - intros k n Hk. rewrite fs_lookup_insert_ne; [by apply Hkeep|].
    intros <-. congruence.
Qed.

(** X12.  A sub-directory entry whose destination, the destination
    directory joined with the rendered name, is an absolute path in
    normal form (no [.], [..] or doubled slash is left in it): when
    something is already stored there, be it a directory or a regular
    file, the entry changes nothing; when nothing is stored there (and no
    regular file is in the way) the directory is created with its missing
    ancestors, and nothing that existed is changed. *)
Theorem copy_sub_dir_destination (src : string) (data : Data)
    (cur_dir_dest sub_dir new_sub_dir : string) (w : world) :
  re_sub_empty src (render sub_dir data) = Some new_sub_dir →
  normalised (OsPath.join cur_dir_dest new_sub_dir) = true →
  (is_Some (node_at (w_fs w) (OsPath.join cur_dir_dest new_sub_dir)) →
   copy_sub_dir src data cur_dir_dest sub_dir w
   = (Ok (), log w [EvRender sub_dir; EvExists (OsPath.join cur_dir_dest new_sub_dir)]))
  ∧ (node_at (w_fs w) (OsPath.join cur_dir_dest new_sub_dir) = None →
     OsPath.join cur_dir_dest new_sub_dir ≠ "" →
     (∀ a c, a ∈ ancestors (OsPath.abspath getcwd (OsPath.join cur_dir_dest new_sub_dir)) →
             fs_lookup (w_fs w) a ≠ Some (File c)) →
     ∃ fs1,
       copy_sub_dir src data cur_dir_dest sub_dir w
       = (Ok (),
          World fs1 (w_modules w)
            (w_trace w ++ [EvRender sub_dir;
                           EvExists (OsPath.join cur_dir_dest new_sub_dir);
                           EvMakedirs (OsPath.join cur_dir_dest new_sub_dir)]))
       ∧ node_at fs1 (OsPath.join cur_dir_dest new_sub_dir) = Some Dir
       ∧ (∀ a, a ∈ ancestors (OsPath.abspath getcwd (OsPath.join cur_dir_dest new_sub_dir)) →
               fs_lookup fs1 a = Some Dir)
       ∧ (∀ k n, fs_lookup (w_fs w) k = Some n → fs_lookup fs1 k = Some n)).
Proof.
  intros Hsub Hnorm. split.
  - intros Hthere. unfold copy_sub_dir.
    erewrite bind_Ok; [|reflexivity]. rewrite Hsub.
    erewrite bind_Ok; [|reflexivity].
    erewrite bind_Ok; [|by apply os_path_exists_eq].
    change (w_fs (log w _)) with (w_fs w).
    rewrite bool_decide_eq_true_2 by done. by rewrite log_log.
  - intros Hnone Hne Hfree.
    destruct (os_makedirs_ok (OsPath.join cur_dir_dest new_sub_dir)
                (log (log w [EvRender sub_dir])
                   [EvExists (OsPath.join cur_dir_dest new_sub_dir)]) Hnorm Hne Hnone Hfree)
      as (fs1 & Hrun & Hdir & Hanc & Hkeep).
    exists fs1. split; [|done].
    unfold copy_sub_dir.
    erewrite bind_Ok; [|reflexivity]. rewrite Hsub.
    erewrite bind_Ok; [|reflexivity].
    erewrite bind_Ok; [|by apply os_path_exists_eq].
    change (w_fs (log w _)) with (w_fs w).
    rewrite Hnone, bool_decide_eq_false_2 by (by intros [? ?]).
    rewrite Hrun. simpl. by rewrite <- !app_assoc.
Qed.

(** A sub-directory entry whose destination is not in normal form is
    handed to the operating system as it is; what [os.path.exists] and
    [os.makedirs] do with it depends on the directories that the path
    passes through, and is not modelled: the run leaves the model at the
    first of the two calls. *)
Lemma copy_sub_dir_outside_model (src : string) (data : Data)
    (cur_dir_dest sub_dir new_sub_dir : string) (w : world) :
  re_sub_empty src (render sub_dir data) = Some new_sub_dir →
  normalised (OsPath.join cur_dir_dest new_sub_dir) = false →
  copy_sub_dir src data cur_dir_dest sub_dir w
  = (Unmodelled,
     log w [EvRender sub_dir; EvExists (OsPath.join cur_dir_dest new_sub_dir)]).
Proof.
  intros Hsub Hnorm. unfold copy_sub_dir.
  erewrite bind_Ok; [|reflexivity]. rewrite Hsub.
  erewrite bind_Ok; [|reflexivity].
  unfold os_path_exists, in_model, mbind, M_bind, emit, unmodelled. simpl.
  rewrite Hnorm. by rewrite log_log.
Qed.

(** X13.  The order of a run: with the destination in place, [copy] lists
    the source directory once and then handles its sub-directory entries,
    then its file entries, both with the destination itself as their
    directory, then walks the sub-directories that were listed, and
    returns [True] when all of that has ended well.  One unit of fuel is
    used per level. *)
Theorem copy_run_order (n : nat) (src dest : string) (data : Data) (force : bool)
    (exclude ignore : option (list string)) (sub_dirs files : list string) (w : world) :
  is_Some (node_at (w_fs w) (fs_abspath dest)) →
  listing (w_fs w) (fs_abspath src) = Some (sub_dirs, files) →
  copy self (S n) src dest data force exclude ignore w
  = (for_each sub_dirs (copy_sub_dir (fs_abspath src) data (fs_abspath dest)) ;;
     for_each files
       (copy_file self (fs_abspath src) data force (default [] exclude) (default [] ignore)
          (fs_abspath src) (fs_abspath dest)) ;;
     for_each sub_dirs
       (λ dirname,
          walk self (fs_abspath src) (fs_abspath dest) data force
            (default [] exclude) (default [] ignore) n
            (OsPath.join (fs_abspath src) dirname)) ;;
     mret true)
      (log w [EvExists (fs_abspath src); EvExists (fs_abspath dest);
              EvScandir (fs_abspath src)]).
Proof.
  intros Hdest Hlist.
  pose proof (listing_is_dir _ _ _ Hlist) as Hsrc.
  unfold copy.
  erewrite bind_Ok; [|apply os_path_exists_eq; normal].
  rewrite Hsrc, bool_decide_eq_true_2 by done.
  change (negb true) with false. cbv beta iota.
  erewrite bind_Ok; [|apply os_path_exists_eq; normal].
  change (w_fs (log w _)) with (w_fs w).
  rewrite bool_decide_eq_true_2 by done.
  erewrite bind_Ok; [|reflexivity].
  rewrite log_log. simpl walk.
  unfold mbind at 1 2, M_bind at 1 2.
  rewrite scandir_eq by normal. simpl.
  rewrite Hlist. unfold copy_dir.
  rewrite bool_decide_eq_false_2 by apply fs_abspath_not_dot.
  rewrite bool_decide_eq_true_2 by done.
  rewrite log_log. simpl app.
  generalize (log w [EvExists (fs_abspath src); EvExists (fs_abspath dest);
                     EvScandir (fs_abspath src)]). intros w1.
  unfold mbind, M_bind. simpl.
  destruct (for_each sub_dirs _ w1) as [[[]| | |] w2]; try done.
  destruct (for_each files _ w2) as [[[]| | |] w3]; try done.
Qed.

(** X14.  A source that is a regular file is not refused: [copy] makes
    sure that the destination exists, finds nothing to walk, and returns
    [True] with nothing rendered, read or written. *)
Theorem copy_source_not_a_directory (n : nat) (src dest : string) (data : Data)
    (force : bool) (exclude ignore : option (list string)) (c : string) (w : world) :
  node_at (w_fs w) (fs_abspath src) = Some (File c) →
  (is_Some (node_at (w_fs w) (fs_abspath dest)) →
   copy self (S n) src dest data force exclude ignore w
   = (Ok true,
      log w [EvExists (fs_abspath src); EvExists (fs_abspath dest);
             EvScandir (fs_abspath src)]))
  ∧ (node_at (w_fs w) (fs_abspath dest) = None →
     (∀ a c, a ∈ ancestors (OsPath.abspath getcwd (fs_abspath dest)) →
             fs_lookup (w_fs w) a ≠ Some (File c)) →
     ∃ fs1,
       copy self (S n) src dest data force exclude ignore w
       = (Ok true,
          World fs1 (w_modules w)
            (w_trace w ++ [EvExists (fs_abspath src); EvExists (fs_abspath dest);
                           EvMakedirs (fs_abspath dest); EvScandir (fs_abspath src)]))
       ∧ node_at fs1 (fs_abspath dest) = Some Dir
       ∧ (∀ k n, fs_lookup (w_fs w) k = Some n → fs_lookup fs1 k = Some n)).
Proof.
  intros Hsrc.
  assert (∀ fs, node_at fs (fs_abspath src) = Some (File c) →
                listing fs (fs_abspath src) = None) as Hlist.
  { intros fs. unfold node_at, listing.
    destruct (resolve (fs_abspath src)) as [key|]; simpl; [|done]. by intros ->. }
  split.
  - intros Hdest. unfold copy.
    erewrite bind_Ok; [|apply os_path_exists_eq; normal].
    rewrite Hsrc, bool_decide_eq_true_2 by done.
    change (negb true) with false. cbv beta iota.
    erewrite bind_Ok; [|apply os_path_exists_eq; normal].
    change (w_fs (log w _)) with (w_fs w).
    rewrite bool_decide_eq_true_2 by done.
    erewrite bind_Ok; [|reflexivity].
    simpl walk. unfold mbind, M_bind. rewrite scandir_eq by normal. simpl.
    rewrite (Hlist _ Hsrc). simpl. unfold log. simpl. by rewrite <- !app_assoc.
  - intros Hdest Hfree.
    destruct (os_makedirs_ok (fs_abspath dest)
                (log (log w [EvExists (fs_abspath src)]) [EvExists (fs_abspath dest)])
                (normalised_fs_abspath dest) (fs_abspath_nonempty dest) Hdest Hfree)
      as (fs1 & Hrun & Hdir & _ & Hkeep).
    exists fs1. split; [|done].
    assert (node_at fs1 (fs_abspath src) = Some (File c)) as Hsrc1.
    { revert Hsrc. unfold node_at.
      destruct (resolve (fs_abspath src)) as [key|]; simpl; [|done]. apply Hkeep. }
    unfold copy.
    erewrite bind_Ok; [|apply os_path_exists_eq; normal].
    rewrite Hsrc, bool_decide_eq_true_2 by done.
    change (negb true) with false. cbv beta iota.
    erewrite bind_Ok; [|apply os_path_exists_eq; normal].
    change (w_fs (log w _)) with (w_fs w).
    rewrite Hdest, bool_decide_eq_false_2 by (by intros [? ?]).
    erewrite bind_Ok; [|apply Hrun].
    simpl walk. unfold mbind, M_bind. rewrite scandir_eq by normal. simpl.
    rewrite (Hlist _ Hsrc1). simpl. unfold log. simpl. by rewrite <- !app_assoc.
Qed.

End CopyOrder.

(** ** Fuel *)

Lemma for_each_agree {A : Type} (xs : list A) (body body' : A → M unit) (w : world) :
  (∀ x w', (body x w').1 ≠ OutOfFuel → body' x w' = body x w') →
  (for_each xs body w).1 ≠ OutOfFuel →
  for_each xs body' w = for_each xs body w.
Proof.
  intros Hbody. revert w. induction xs as [|x xs IH]; intros w; [done|].
  simpl. unfold mbind, M_bind.
  destruct (body x w) as [[[]| | |] w1] eqn:E.
  - intros Hrun. rewrite Hbody by (by rewrite E). rewrite E. by apply IH.
  - intros _. rewrite Hbody by (by rewrite E). by rewrite E.
  - done.
  - intros _. rewrite Hbody by (by rewrite E). by rewrite E.
Qed.

Lemma bind_agree {A B : Type} (m : M A) (k k' : A → M B) (w : world) :
  (∀ a w', (k a w').1 ≠ OutOfFuel → k' a w' = k a w') →
  ((m ≫= k) w).1 ≠ OutOfFuel →
  (m ≫= k') w = (m ≫= k) w.
Proof.
  intros Hk. unfold mbind, M_bind.
  destruct (m w) as [[a| | |] w1]; [|done..]. apply Hk.
Qed.

Section Fuel.
Context `{Env} `{Re} {Data : Type} `{TemplateHandlerBase Data}.
Variable self : TemplateHandler.

Lemma walk_S (src dest : string) (data : Data) (force : bool)
    (exclude ignore : list string) (n : nat) (top : string) (w : world) :
  walk self src dest data force exclude ignore (S n) top w
  = match scandir top w with
    | (Ok (Some (dirs, nondirs)), w1) =>
        match copy_dir self src dest data force exclude ignore top dirs nondirs w1 with
        | (Ok _, w2) =>
            for_each dirs
              (λ dirname,
                 walk self src dest data force exclude ignore n (OsPath.join top dirname)) w2
        | (Raise e, w2) => (Raise e, w2)
        | (OutOfFuel, w2) => (OutOfFuel, w2)
        | (Unmodelled, w2) => (Unmodelled, w2)
        end
    | (Ok None, w1) => (Ok (), w1)
    | (Raise e, w1) => (Raise e, w1)
    | (OutOfFuel, w1) => (OutOfFuel, w1)
    | (Unmodelled, w1) => (Unmodelled, w1)
    end.
Proof.
  simpl walk. unfold mbind, M_bind.
  by destruct (scandir top w) as [[[[dirs nondirs]|]| | |] w1].
Qed.

Lemma walk_fuel_S (src dest : string) (data : Data) (force : bool)
    (exclude ignore : list string) (n : nat) (top : string) (w : world) :
  (walk self src dest data force exclude ignore n top w).1 ≠ OutOfFuel →
  walk self src dest data force exclude ignore (S n) top w
  = walk self src dest data force exclude ignore n top w.
Proof.
  revert top w. induction n as [|n IH]; intros top w; [done|].
  rewrite (walk_S _ _ _ _ _ _ (S n)), (walk_S _ _ _ _ _ _ n).
  destruct (scandir top w) as [[[[dirs nondirs]|]| | |] w1]; try done.
  destruct (copy_dir self src dest data force exclude ignore top dirs nondirs w1)
    as [[[]| | |] w2]; try done.
  intros Hrun. apply for_each_agree; [|done].
  intros x w'. apply IH.
Qed.

Lemma walk_fuel_le (src dest : string) (data : Data) (force : bool)
    (exclude ignore : list string) (n m : nat) (top : string) (w : world) :
  (walk self src dest data force exclude ignore n top w).1 ≠ OutOfFuel →
  n ≤ m →
  walk self src dest data force exclude ignore m top w
  = walk self src dest data force exclude ignore n top w.
Proof.
  intros Hrun Hle. induction Hle as [|m Hle IH]; [done|].
  rewrite walk_fuel_S; [done|]. by rewrite IH.
Qed.

(** X15.  Fuel only bounds the depth of the walk: once a run of [copy] has
    ended, with a value or with an exception, more fuel gives the same
    outcome and the same world. *)
Theorem copy_fuel_enough (n m : nat) (src dest : string) (data : Data) (force : bool)
    (exclude ignore : option (list string)) (w : world) :
  (copy self n src dest data force exclude ignore w).1 ≠ OutOfFuel →
  n ≤ m →
  copy self m src dest data force exclude ignore w
  = copy self n src dest data force exclude ignore w.
Proof.
  intros Hrun Hle. revert Hrun. unfold copy.
  apply bind_agree. intros [] w1; cbv beta iota; simpl negb; cbv iota; [|done].
  apply bind_agree. intros dest_exists w2. cbv beta.
  apply bind_agree. intros [] w3. cbv beta.
  unfold mbind, M_bind.
  destruct (walk self (fs_abspath src) (fs_abspath dest) data force
              (default [] exclude) (default [] ignore) n (fs_abspath src) w3)
    as [[[]| | |] w4] eqn:E; [| |done|];
    intros _; rewrite (walk_fuel_le _ _ _ _ _ _ n m) by (by rewrite ?E); by rewrite E.
Qed.

End Fuel.

(** ** The default exclude list *)

Section PatternApp.
Context `{Re}.

Lemma matches_any_app_true (patterns more : list string) (path : string) :
  matches_any patterns path = Some true →
  matches_any (patterns ++ more) path = Some true.
Proof.
  induction patterns as [|q patterns IH]; simpl; [done|].
  destruct (re_match q path) as [[]|]; simpl; done.
Qed.

End PatternApp.

Lemma list_ascii_of_string_app (s t : string) :
  list_ascii_of_string (s +:+ t) = list_ascii_of_string s ++ list_ascii_of_string t.
Proof. induction s as [|a s IH]; [done|]. simpl. by rewrite IH. Qed.

Lemma ends_cat (r1 r2 : ReModel.regex) (i j k : nat) (rest rest' rest'' : list ascii) :
  (j, rest') ∈ ReModel.ends r1 i rest →
  (k, rest'') ∈ ReModel.ends r2 j rest' →
  (k, rest'') ∈ ReModel.ends (ReModel.Cat r1 r2) i rest.
Proof.
  intros H1 H2. simpl. apply list_elem_of_In, in_flat_map.
  exists (j, rest'). split; [by apply list_elem_of_In|]. by apply list_elem_of_In.
Qed.

Lemma star_any_reaches (n : nat) (s t : list ascii) (i : nat) :
  length s ≤ n →
  Forall (λ a, a ≠ ReModel.newline) s →
  (i + length s, t)
  ∈ (fix star (n i : nat) (rest : list ascii) : list (nat * list ascii) :=
       match n with
       | 0 => [(i, rest)]
       | S n' =>
           flat_map (λ jt, if Nat.ltb i jt.1 then star n' jt.1 jt.2 else [])
                    (ReModel.ends ReModel.AnyChar i rest)
           ++ [(i, rest)]
       end) n i (s ++ t).
Proof.
  intros Hn Hs. revert i n Hn.
  induction Hs as [|a s Ha Hs IH]; intros i n Hn.
  - simpl length. rewrite Nat.add_0_r. destruct n; [by apply list_elem_of_singleton|].
    apply elem_of_app. right. by apply list_elem_of_singleton.
  - destruct n as [|n]; [simpl in Hn; lia|].
    apply elem_of_app. left. simpl ReModel.ends.
    rewrite decide_False by done. simpl flat_map.
    assert ((i <? S i) = true) as -> by (apply Nat.ltb_lt; lia).
    rewrite app_nil_r.
    replace (i + length (a :: s)) with (S i + length s) by (simpl; lia).
    apply IH. simpl in Hn. lia.
Qed.

Lemma ends_star_any (s t : list ascii) (i : nat) :
  Forall (λ a, a ≠ ReModel.newline) s →
  (i + length s, t) ∈ ReModel.ends (ReModel.Star ReModel.AnyChar) i (s ++ t).
Proof.
  intros Hs. apply (star_any_reaches (S (length (s ++ t)))); [|done].
  rewrite length_app. lia.
Qed.

Lemma ends_default_exclude (tail : ReModel.regex) (stem ext : list ascii) :
  Forall (λ a, a ≠ ReModel.newline) stem →
  (∀ j, ReModel.ends tail j ext ≠ []) →
  ReModel.ends
    (ReModel.Cat ReModel.Bol
       (ReModel.Cat (ReModel.Cat (ReModel.Star ReModel.AnyChar) ReModel.Eps) tail))
    0 (stem ++ ext) ≠ [].
Proof.
  intros Hstem Htail.
  destruct (ReModel.ends tail (length stem) ext) as [|[k rest] es] eqn:E;
    [by destruct (Htail (length stem))|].
  assert ((k, rest) ∈ ReModel.ends
            (ReModel.Cat ReModel.Bol
               (ReModel.Cat (ReModel.Cat (ReModel.Star ReModel.AnyChar) ReModel.Eps) tail))
            0 (stem ++ ext)) as Hin.
  { eapply ends_cat; [simpl; apply list_elem_of_singleton; reflexivity|].
    eapply ends_cat; [|rewrite E; apply elem_of_cons; by left].
    eapply ends_cat; [apply (ends_star_any stem ext 0 Hstem)|].
    simpl. by apply list_elem_of_singleton. }
  intros Hnil. rewrite Hnil in Hin. by apply not_elem_of_nil in Hin.
Qed.

Lemma default_exclude_matches (dirs : list string) (module : string)
    (per_call : list string) (stem ext : string) :
  ext ∈ ["png"; "jpg"; "jpeg"; "gif"; "exe"; "bin"; "zip"; "tar"; "tar.gz"; "tgz"; "gz";
         "pyo"; "pyc"] →
  Forall (λ a, a ≠ ReModel.newline) (list_ascii_of_string stem) →
  @matches_any ReModel.re_model
    (_meta_exclude (__init__ dirs module Meta_default) ++ per_call)
    (stem +:+ "." +:+ ext) = Some true.
Proof.
  intros Hext Hstem. apply matches_any_app_true.
  change (_meta_exclude (__init__ dirs module Meta_default))
    with (default [] (exclude Meta_default)).
  apply matches_any_true.
  - intros p Hp. unfold re_match. simpl.
    assert (is_Some (ReModel.compile p)) as [r Hr].
    { revert Hp. simpl. rewrite !elem_of_cons, elem_of_nil.
      intros Hp. repeat (destruct Hp as [->|Hp]; [vm_compute; eauto|]). done. }
    unfold ReModel.ends_at. rewrite Hr. simpl. eauto.
  - exists ("^(.*)\." +:+ ext +:+ "$"). split.
    + revert Hext. rewrite !elem_of_cons, elem_of_nil.
      intros Hext. repeat (destruct Hext as [->|Hext]; [vm_compute; set_solver|]). done.
    + apply re_match_true.
      assert (∃ tail,
                ReModel.compile ("^(.*)\." +:+ ext +:+ "$")
                = Some (ReModel.Cat ReModel.Bol
                          (ReModel.Cat
                             (ReModel.Cat (ReModel.Star ReModel.AnyChar) ReModel.Eps) tail))
                ∧ ∀ j, ReModel.ends tail j (list_ascii_of_string ("." +:+ ext)) ≠ [])
        as (tail & Hc & Htail).
      { revert Hext. rewrite !elem_of_cons, elem_of_nil.
        intros Hext.
        repeat (destruct Hext as [->|Hext];
                [eexists; split; [vm_compute; reflexivity|intros j; vm_compute; discriminate]|]).
        done. }
      simpl re_ends. unfold ReModel.ends_at. rewrite Hc.
      unfold mbind, option_bind. cbv beta iota.
      rewrite list_ascii_of_string_app, drop_0.
      pose proof (ends_default_exclude tail _ _ Hstem Htail) as Hne.
      destruct (ReModel.ends _ 0 _) as [|[e rest] es]; [done|].
      rewrite fmap_cons. eauto.
Qed.

Section DefaultExclude.
Context `{Env} {Data : Type} `{TemplateHandlerBase Data}.
Local Existing Instance ReModel.re_model.

(** X16.  The default exclude list does what it is there for.  For a
    handler with the default meta-data and the reference matcher, a source
    path that ends in a dot and one of the thirteen listed extensions, and
    has no newline before that, sets the exclude flag whatever the
    per-call exclude patterns are (they are not even compiled); the file
    entry, unless an ignore pattern matches it, then stores the bytes of
    the source at the destination and never reads the source as text nor
    renders its content. *)
Theorem default_exclude_covers (dirs : list string) (module : string)
    (src : string) (data : Data) (force : bool) (per_call ignore : list string)
    (cur_dir cur_dir_dest f new_file stem ext c : string) (w : world) :
  ext ∈ ["png"; "jpg"; "jpeg"; "gif"; "exe"; "bin"; "zip"; "tar"; "tar.gz"; "tgz"; "gz";
         "pyo"; "pyc"] →
  Forall (λ a, a ≠ ReModel.newline) (list_ascii_of_string stem) →
  fs_abspath (OsPath.join cur_dir f) = stem +:+ "." +:+ ext →
  matches_any (_meta_exclude (__init__ dirs module Meta_default) ++ per_call)
    (fs_abspath (OsPath.join cur_dir f)) = Some true
  ∧ (re_sub_empty src (render f data) = Some new_file →
     force = true
     ∨ node_at (w_fs w) (fs_abspath (OsPath.join cur_dir_dest new_file)) = None →
     matches_any ignore (fs_abspath (OsPath.join cur_dir f)) = Some false →
     node_at (w_fs w) (fs_abspath (OsPath.join cur_dir f)) = Some (File c) →
     can_write (w_fs w) (fs_abspath (OsPath.join cur_dir_dest new_file)) = true →
     resolve (fs_abspath (OsPath.join cur_dir f))
     ≠ resolve (fs_abspath (OsPath.join cur_dir_dest new_file)) →
     copy_file (__init__ dirs module Meta_default) src data force per_call ignore
       cur_dir cur_dir_dest f w
     = (Ok (),
        World (written (w_fs w) (fs_abspath (OsPath.join cur_dir_dest new_file)) c)
          (w_modules w)
          (w_trace w
           ++ EvRender f
              :: (if force then []
                  else [EvExists (fs_abspath (OsPath.join cur_dir_dest new_file))])
           ++ [EvIsdir (fs_abspath (OsPath.join cur_dir_dest new_file));
               EvCopyfile (fs_abspath (OsPath.join cur_dir f))
                 (fs_abspath (OsPath.join cur_dir_dest new_file))]))).
Proof.
  intros Hext Hstem Hpath.
  assert (matches_any (_meta_exclude (__init__ dirs module Meta_default) ++ per_call)
            (fs_abspath (OsPath.join cur_dir f)) = Some true) as He.
  { rewrite Hpath. by apply default_exclude_matches. }
  split; [done|].
  intros Hsub Hcheck Hi Hsrc Hw Hne.
  destruct (copy_file_ignored_or_excluded (__init__ dirs module Meta_default) src data
              per_call ignore cur_dir cur_dir_dest f new_file Hsub force c w Hcheck)
    as [_ T].
  by destruct (T Hi He Hsrc Hw Hne) as [-> _].
Qed.

End DefaultExclude.

(** * The argument handler *)

Section ArgParseFacts.
Import ArgParse.
Context {Parser Decl Action Namespace Exn Config : Type}.
Context `{ArgumentParser Parser Decl Action Namespace Exn}.

Local Abbreviation arg_handler := (ArgParseArgumentHandler Parser Namespace Config).
Local Abbreviation calls := (list (call Decl Config)).

Lemma after_all_snoc (self : arg_handler) (cs : calls) (c : call Decl Config) :
  after_all self (cs ++ [c]) = after (after_all self cs) c.
Proof. unfold after_all. by rewrite fold_left_app. Qed.

(** X17.  [parsed_args] over any sequence of calls on a fresh handler: it
    is [None] exactly as long as no call of [parse] has returned, and
    otherwise it is what the last call of [parse] that returned gave, for
    the parser as it was at that call; a [parse] that raises leaves it as
    it was. *)
Theorem parsed_args_last_parse (built : Parser) (cs : calls) :
  match parsed_args (after_all (__init__ built) cs) with
  | Some ns =>
      ∃ pre arg_list post,
        cs = pre ++ Parse arg_list :: post
        ∧ parse_args (parser (after_all (__init__ built) pre)) arg_list = inr ns
        ∧ ∀ pre' arg_list' post',
            post = pre' ++ Parse arg_list' :: post' →
            ∃ e, parse_args
                   (parser (after_all (__init__ built) (pre ++ Parse arg_list :: pre')))
                   arg_list' = inl e
  | None =>
      ∀ pre arg_list post,
        cs = pre ++ Parse arg_list :: post →
        ∃ e, parse_args (parser (after_all (__init__ built) pre)) arg_list = inl e
  end.
Proof.
  induction cs as [|c cs IH] using rev_ind.
  - simpl. intros pre arg_list post E. by destruct pre.
  - rewrite after_all_snoc.
    assert (∀ (l pre : calls) a post c',
              l ++ [c'] = pre ++ Parse a :: post →
              (post = [] ∧ l = pre ∧ c' = Parse a)
              ∨ (∃ post', post = post' ++ [c'] ∧ l = pre ++ Parse a :: post')) as Hsplit.
    { intros l pre a post c' E.
      destruct post as [|x post _] using rev_ind.
      - left. apply app_inj_tail in E as [-> ->]. done.
      - right. exists post. rewrite app_comm_cons, app_assoc in E.
        apply app_inj_tail in E as [-> ->]. done. }
    assert (∀ c', (∀ a, c' ≠ Parse a) →
              parsed_args (after (after_all (__init__ built) cs) c')
              = parsed_args (after_all (__init__ built) cs)) as Hsame.
    { intros [c0|a|d] Hc; simpl; [done|by destruct (Hc a)|].
      unfold add_argument. by destruct (base_add_argument _ _) as [e|[action parser']]. }
    assert (∀ c', (∀ a, c' ≠ Parse a) →
              match parsed_args (after (after_all (__init__ built) cs) c') with
              | Some ns =>
                  ∃ pre arg_list post,
                    cs ++ [c'] = pre ++ Parse arg_list :: post
                    ∧ parse_args (parser (after_all (__init__ built) pre)) arg_list = inr ns
                    ∧ ∀ pre' arg_list' post',
                        post = pre' ++ Parse arg_list' :: post' →
                        ∃ e, parse_args
                               (parser (after_all (__init__ built)
                                          (pre ++ Parse arg_list :: pre')))
                               arg_list' = inl e
              | None =>
                  ∀ pre arg_list post,
                    cs ++ [c'] = pre ++ Parse arg_list :: post →
                    ∃ e, parse_args (parser (after_all (__init__ built) pre)) arg_list
                         = inl e
              end) as Hother.
    { intros c' Hc. rewrite (Hsame c' Hc).
      destruct (parsed_args (after_all (__init__ built) cs)) as [ns|].
      - destruct IH as (pre & a & post & -> & Hparse & Hlater).
        exists pre, a, (post ++ [c']).
        split; [by rewrite <- app_assoc|]. split; [done|].
        intros pre' a' post' E.
        destruct (Hsplit post pre' a' post' c' E) as [(_ & _ & ->)|(post'' & -> & ->)].
        { by destruct (Hc a'). }
        by apply (Hlater pre' a' post'').
      - intros pre a post E.
        destruct (Hsplit cs pre a post c' E) as [(_ & _ & ->)|(post' & -> & ->)].
        { by destruct (Hc a). }
        by apply (IH pre a post'). }
    destruct c as [c0|a|d]; [by apply Hother| |by apply Hother].
    simpl. unfold parse.
    destruct (parse_args (parser (after_all (__init__ built) cs)) a) as [e|ns] eqn:Hp; simpl.
    + destruct (parsed_args (after_all (__init__ built) cs)) as [ns|].
      * destruct IH as (pre & a0 & post & -> & Hparse & Hlater).
        exists pre, a0, (post ++ [Parse a]).
        split; [by rewrite <- app_assoc|]. split; [done|].
        intros pre' a' post' E.
        destruct (Hsplit post pre' a' post' (Parse a) E)
          as [(-> & <- & [= <-])|(post'' & -> & ->)].
        { exists e. by rewrite <- Hp. }
        by apply (Hlater pre' a' post'').
      * intros pre a0 post E.
        destruct (Hsplit cs pre a0 post _ E) as [(_ & <- & [= <-])|(post' & -> & ->)].
        { by exists e. }
        by apply (IH pre a0 post').
    + exists cs, a, []. split; [done|]. split; [done|].
      intros pre' a' post' E. by destruct pre'.
Qed.

(** X18.  [setup] is inert: the configuration it stores is never
    consulted, so leaving the calls of [setup] out of any sequence of calls
    gives the same parser and the same [parsed_args]. *)
Theorem setup_is_inert (built : Parser) (cs : calls) :
  parser (after_all (__init__ built) cs)
  = parser (after_all (__init__ (Config := Config) built) (filter (λ c, is_setup c = false) cs))
  ∧ parsed_args (after_all (__init__ built) cs)
    = parsed_args (after_all (__init__ (Config := Config) built)
                     (filter (λ c, is_setup c = false) cs)).
Proof.
  induction cs as [|c cs IH] using rev_ind; [done|].
  rewrite filter_app, !after_all_snoc. destruct IH as [IHp IHa].
  destruct c as [c0|a|d]; simpl.
  - rewrite filter_cons_False by done. rewrite filter_nil, app_nil_r. done.
  - rewrite filter_cons_True by done. rewrite filter_nil, after_all_snoc. simpl.
    unfold parse. rewrite <- IHp.
    destruct (parse_args _ a); simpl; done.
  - rewrite filter_cons_True by done. rewrite filter_nil, after_all_snoc. simpl.
    unfold add_argument. rewrite <- IHp.
    destruct (base_add_argument _ d) as [e|[action parser']]; simpl; done.
Qed.

End ArgParseFacts.

(** * The source path as a pattern *)

Section LiteralPatterns.
Import ReLiteral.

Lemma plain_spec (c : ascii) :
  plain c = true →
  c ≠ "("%char ∧ c ≠ ")"%char ∧ c ≠ "\"%char ∧ c ≠ "."%char ∧ c ≠ "^"%char
  ∧ c ≠ "$"%char ∧ c ≠ "*"%char ∧ c ≠ "+"%char ∧ c ≠ "?"%char ∧ c ≠ "{"%char
  ∧ c ≠ "["%char ∧ c ≠ "|"%char.
Proof.
  unfold plain. intros Hc. apply negb_true_iff, bool_decide_eq_false in Hc.
  repeat split; intros ->; apply Hc; set_solver.
Qed.

Lemma plain_not_quantifier (c : ascii) : plain c = true → ReModel.is_quantifier c = false.
Proof.
  intros Hc. apply plain_spec in Hc as (_ & _ & _ & _ & _ & _ & ? & ? & ? & ? & _).
  unfold ReModel.is_quantifier. apply bool_decide_eq_false. intros [|[|[|]]]; done.
Qed.

Lemma parse_atom_plain (n : nat) (c : ascii) (s : list ascii) :
  plain c = true → ReModel.parse_atom (S n) (c :: s) = Some (ReModel.Chr c, s).
Proof.
  intros Hc. pose proof (plain_not_quantifier c Hc) as Hq.
  apply plain_spec in Hc as (? & ? & ? & ? & ? & ? & ? & ? & ? & ? & ? & ?).
  simpl. rewrite !bool_decide_eq_false_2 by (try intros [|]; done).
  by rewrite Hq.
Qed.

Lemma parse_rep_plain (n : nat) (c : ascii) (s : list ascii) :
  plain c = true → forallb plain s = true →
  ReModel.parse_rep (S (S n)) (c :: s) = Some (ReModel.Chr c, s).
Proof.
  intros Hc Hs.
  change (ReModel.parse_rep (S (S n)) (c :: s))
    with ('(r, s1) ← ReModel.parse_atom (S n) (c :: s);
          match s1 with
          | q :: s2 =>
              if ReModel.is_quantifier q then
                if negb (ReModel.repeatable r) then None
                else if match s2 with q' :: _ => ReModel.is_quantifier q' | [] => false end
                     then None
                else if bool_decide (q = "*"%char) then Some (ReModel.Star r, s2)
                else if bool_decide (q = "+"%char)
                     then Some (ReModel.Cat r (ReModel.Star r), s2)
                else if bool_decide (q = "?"%char) then Some (ReModel.Alt r ReModel.Eps, s2)
                else None
              else Some (r, s1)
          | [] => Some (r, s1)
          end).
  rewrite parse_atom_plain by done. simpl.
  destruct s as [|q s2]; [done|].
  simpl in Hs. apply andb_true_iff in Hs as [Hq _].
  by rewrite (plain_not_quantifier q Hq).
Qed.

Lemma parse_cat_literal (s : list ascii) (n : nat) :
  forallb plain s = true → length s + 3 ≤ n →
  ReModel.parse_cat n s = Some (lit s, []).
Proof.
  revert n. induction s as [|c s IH]; intros n Hs Hn.
  - destruct n as [|n]; [lia|]. done.
  - simpl in Hs. apply andb_true_iff in Hs as [Hc Hs].
    destruct n as [|[|[|n]]]; [simpl in Hn; lia..|].
    change (ReModel.parse_cat (S (S (S n))) (c :: s))
      with (if bool_decide (c = "|"%char ∨ c = ")"%char) then Some (ReModel.Eps, c :: s)
            else
              '(r1, s1) ← ReModel.parse_rep (S (S n)) (c :: s);
              '(r2, s2) ← ReModel.parse_cat (S (S n)) s1;
              Some (ReModel.Cat r1 r2, s2)).
    pose proof (plain_spec c Hc) as (? & ? & _ & _ & _ & _ & _ & _ & _ & _ & _ & ?).
    rewrite bool_decide_eq_false_2 by (intros [|]; done).
    rewrite parse_rep_plain by done. cbn [mbind option_bind].
    rewrite IH by (try done; simpl in Hn; lia). done.
Qed.

Lemma compile_literal (pattern : string) :
  literal pattern = true →
  ReModel.compile pattern = Some (lit (list_ascii_of_string pattern)).
Proof.
  intros Hl. unfold ReModel.compile.
  replace (4 * length (list_ascii_of_string pattern) + 4)
    with (S (4 * length (list_ascii_of_string pattern) + 3)) by lia.
  change (ReModel.parse_alt (S ?n) ?s)
    with ('(r1, s1) ← ReModel.parse_cat n s;
          match s1 with
          | "|"%char :: s2 =>
              '(r2, s3) ← ReModel.parse_alt n s2; Some (ReModel.Alt r1 r2, s3)
          | _ => Some (r1, s1)
          end).
  rewrite parse_cat_literal by (try done; lia). done.
Qed.

Lemma ends_lit_prefix (s t : list ascii) (i : nat) :
  ReModel.ends (lit s) i (s ++ t) = [(i + length s, t)].
Proof.
  revert i. induction s as [|c s IH]; intros i; simpl.
  - by rewrite Nat.add_0_r.
  - rewrite decide_True by done. simpl. rewrite IH, app_nil_r.
    by replace (S i + length s) with (i + S (length s)) by lia.
Qed.

Lemma ends_lit_none (s rest : list ascii) (i : nat) :
  ¬ s `prefix_of` rest → ReModel.ends (lit s) i rest = [].
Proof.
  revert i rest. induction s as [|c s IH]; intros i rest Hnp.
  - destruct Hnp. apply prefix_nil.
  - simpl. destruct rest as [|a rest]; [done|].
    destruct (decide (a = c)) as [->|]; [|done]. simpl.
    rewrite IH; [done|]. intros Hp. apply Hnp. by apply prefix_cons.
Qed.

Lemma chars_drop (k : nat) (s : string) :
  list_ascii_of_string (PyStr.drop k s) = drop k (list_ascii_of_string s).
Proof.
  revert s. induction k as [|k IH]; intros s; [by destruct s|].
  destruct s as [|a s]; [done|]. simpl. apply IH.
Qed.

Lemma startswith_prefix (p s : string) :
  PyStr.startswith p s = true
  ↔ list_ascii_of_string p `prefix_of` list_ascii_of_string s.
Proof.
  revert s. induction p as [|a p IH]; intros s; simpl.
  - split; [intros _; apply prefix_nil|done].
  - destruct s as [|b s]; simpl.
    + split; [done|]. intros Hp. by apply prefix_nil_inv in Hp.
    + destruct (decide (a = b)) as [->|Hne].
      * rewrite IH. split; [apply prefix_cons|apply prefix_cons_inv_2].
      * split; [done|]. intros Hp. by apply prefix_cons_inv_1 in Hp.
Qed.

Lemma occurs_in_drop (p s : string) (k : nat) :
  occurs_in p s = false → PyStr.startswith p (PyStr.drop k s) = false.
Proof.
  revert s. induction k as [|k IH]; intros s Hs.
  - destruct s; simpl in *; by apply orb_false_iff in Hs as [? _].
  - destruct s as [|a s].
    + simpl in *. by apply orb_false_iff in Hs as [? _].
    + simpl in Hs. apply orb_false_iff in Hs as [_ Hs]. simpl. by apply IH.
Qed.

Lemma sub_scan_none (n : nat) (ends_at : nat → list nat) (i : nat) (rest : string)
    (must_advance : bool) :
  (∀ k, i ≤ k → ends_at k = []) →
  sub_scan n ends_at i rest must_advance = rest.
Proof.
  revert i rest must_advance. induction n as [|n IH]; intros i rest b Hnone; [done|].
  simpl. rewrite (Hnone i) by done.
  assert ((if b then filter (λ j, i < j) [] else []) = ([] : list nat)) as ->
    by (by destruct b).
  destruct rest as [|a rest]; [done|].
  rewrite IH; [done|]. intros k Hk. apply Hnone. lia.
Qed.

Lemma ends_at_literal (p s : string) (i : nat) :
  literal p = true →
  ReModel.ends_at p s i
  = Some (if decide (list_ascii_of_string p `prefix_of` drop i (list_ascii_of_string s))
          then [i + String.length p] else []).
Proof.
  intros Hl. unfold ReModel.ends_at. rewrite compile_literal by done.
  cbn [mbind option_bind]. f_equal.
  destruct (decide _) as [[t Ht]|Hnp].
  - rewrite Ht, ends_lit_prefix. simpl. f_equal. f_equal.
    clear. induction p as [|a p IH]; [done|]. simpl. by rewrite IH.
  - by rewrite ends_lit_none.
Qed.

Section LiteralSource.
Local Existing Instance ReModel.re_model.

Lemma re_sub_literal_none (p s : string) :
  literal p = true → occurs_in p s = false → re_sub_empty p s = Some s.
Proof.
  intros Hl Hs. unfold re_sub_empty. simpl re_ends.
  rewrite (ends_at_literal p s 0) by done. cbn [mbind option_bind]. f_equal.
  apply sub_scan_none. intros k _.
  rewrite ends_at_literal by done. simpl.
  rewrite decide_False; [done|].
  rewrite <- chars_drop, <- startswith_prefix.
  by rewrite occurs_in_drop.
Qed.

Lemma re_sub_literal_prefix (p t : string) :
  literal p = true → p ≠ "" → occurs_in p t = false →
  re_sub_empty p (p +:+ t) = Some t.
Proof.
  intros Hl Hp Ht. unfold re_sub_empty. simpl re_ends.
  rewrite (ends_at_literal p (p +:+ t) 0) by done. cbn [mbind option_bind]. f_equal.
  replace (2 * String.length (p +:+ t) + 2) with (S (2 * String.length (p +:+ t) + 1))
    by lia.
  simpl sub_scan. rewrite ends_at_literal by done. simpl default.
  rewrite drop_0, decide_True.
  2:{ rewrite list_ascii_of_string_app. by apply prefix_app_r. }
  assert (PyStr.drop (String.length p - 0) (p +:+ t) = t) as ->.
  { rewrite Nat.sub_0_r. clear. induction p as [|a p IH]; [by destruct t|done]. }
  apply sub_scan_none. intros k Hk.
  rewrite ends_at_literal by done. simpl.
  rewrite decide_False; [done|].
  rewrite list_ascii_of_string_app.
  assert (length (list_ascii_of_string p) = String.length p) as Hlen.
  { clear. induction p as [|a p IH]; [done|]. simpl. by rewrite IH. }
  rewrite drop_app_ge by lia.
  rewrite <- chars_drop, <- startswith_prefix.
  by rewrite occurs_in_drop.
Qed.

Lemma occurs_in_absolute (p s : string) :
  OsPath.isabs p = true → occurs_in "/" s = false → occurs_in p s = false.
Proof.
  intros Hp. destruct p as [|a p]; [done|].
  unfold OsPath.isabs in Hp. simpl in Hp.
  destruct (decide ("/"%char = a)) as [<-|]; [|done]. clear Hp.
  induction s as [|b s IH]; [done|]. simpl.
  destruct (decide ("/"%char = b)) as [<-|Hne]; [done|].
  simpl. exact IH.
Qed.

Lemma lstrip_id (c : ascii) (s : string) :
  PyStr.startswith (String c "") s = false → PyStr.lstrip c s = s.
Proof.
  destruct s as [|a s]; [done|]. simpl.
  destruct (decide (c = a)) as [->|Hne]; [done|].
  intros _. by rewrite decide_False by done.
Qed.

(** X19.  With a source path that has no special characters, what
    [re.sub(src, '', ...)] does to the rendered names is what was meant: a
    rendered name without a slash is kept as it is, and a rendered path
    that is the source path followed by a rest in which the source path
    does not occur again is cut down to that rest. *)
Theorem literal_source_keeps_names (src name t : string) :
  literal src = true →
  OsPath.isabs src = true →
  (occurs_in "/" name = false → re_sub_empty src name = Some name)
  ∧ (occurs_in src t = false → re_sub_empty src (src +:+ t) = Some t).
Proof.
  intros Hl Habs. split.
  - intros Hname. apply re_sub_literal_none; [done|]. by apply occurs_in_absolute.
  - intros Ht. apply re_sub_literal_prefix; [done| |done]. by intros ->.
Qed.

Section Mirror.
Context `{Env} {Data : Type} `{TemplateHandlerBase Data}.
Variable self : TemplateHandler.

(** X20.  The destination tree mirrors the source tree: for a source
    path without special characters, a directory below it whose path
    renders to the source path, a slash and a relative path [rel] (in
    which the source path does not occur again) has its sub-directory
    entries and its file entries handled in [dest/rel], and rendering that
    path is all that happens before. *)
Theorem copy_dir_mirrors (src dest : string) (data : Data) (force : bool)
    (exclude ignore : list string) (cur_dir rel : string) (sub_dirs files : list string)
    (w : world) :
  literal src = true →
  OsPath.isabs src = true →
  cur_dir ≠ "." →
  cur_dir ≠ src →
  render cur_dir data = src +:+ "/" +:+ rel →
  occurs_in src ("/" +:+ rel) = false →
  PyStr.startswith "/" rel = false →
  PyStr.startswith "\" rel = false →
  copy_dir self src dest data force exclude ignore cur_dir sub_dirs files w
  = (for_each sub_dirs (copy_sub_dir src data (OsPath.join dest rel)) ;;
     for_each files
       (copy_file self src data force exclude ignore cur_dir (OsPath.join dest rel)))
      (log w [EvRender cur_dir]).
Proof.
  intros Hl Habs Hdot Hsrc Hrender Hocc Hs Hb.
  unfold copy_dir.
  rewrite bool_decide_eq_false_2 by done.
  rewrite bool_decide_eq_false_2 by done.
  erewrite bind_Ok.
  2:{ erewrite bind_Ok; [|reflexivity]. rewrite Hrender.
      rewrite re_sub_literal_prefix; [|done| |done].
      2:{ intros ->. done. }
      reflexivity. }
  change (PyStr.lstrip "/" ("/" +:+ rel)) with (PyStr.lstrip "/" rel).
  rewrite (lstrip_id "/" rel) by done. by rewrite (lstrip_id "\" rel) by done.
Qed.

End Mirror.

End LiteralSource.

End LiteralPatterns.

(** ** The directories that a run lists *)

Lemma join_isabs_l (a b : string) :
  OsPath.isabs a = true → OsPath.isabs (OsPath.join a b) = true.
Proof.
  intros Ha. unfold OsPath.join.
  destruct (PyStr.startswith "/" b) eqn:Hb; [done|].
  destruct (decide (a = "")) as [->|_]; [done|].
  case_decide; unfold OsPath.isabs; by rewrite ?startswith_app.
Qed.

Section ListedPaths.
Context `{Env} `{Re} {Data : Type} `{TemplateHandlerBase Data}.
Variable self : TemplateHandler.

Lemma lists_absolute_copy_dir (src dest : string) (data : Data) (force : bool)
    (exclude ignore : list string) (cur_dir : string) (sub_dirs files : list string) :
  emits_only lists_absolute
    (copy_dir self src dest data force exclude ignore cur_dir sub_dirs files).
Proof.
  unfold copy_dir, copy_sub_dir, copy_file, self_render, of_re, os_path_exists,
    os_makedirs, shutil_copy, os_path_isdir, open_read, open_write, read_bytes,
    write_bytes.
  repeat emits_step.
Qed.

Lemma lists_absolute_walk (src dest : string) (data : Data) (force : bool)
    (exclude ignore : list string) (fuel : nat) (top : string) :
  OsPath.isabs top = true →
  emits_only lists_absolute (walk self src dest data force exclude ignore fuel top).
Proof.
  revert top. induction fuel as [|fuel IH]; intros top Htop; simpl.
  - apply emits_only_out_of_fuel.
  - apply emits_only_bind.
    { unfold scandir. apply emits_only_bind; [|intros ?; repeat emits_step].
      apply emits_only_emit. split; [done|]. intros ->. done. }
    intros [[dirs nondirs]|]; [|apply emits_only_ret].
    apply emits_only_bind; [apply lists_absolute_copy_dir|intros _].
    apply emits_only_for_each. intros dirname. apply IH. by apply join_isabs_l.
Qed.

(** X21.  The guard [if cur_dir == '.': continue] never fires: whatever
    the inputs and however the run ends, every directory that [copy]
    lists, and whose entries it then handles, is an absolute path, never
    ['.']. *)
Theorem copy_lists_absolute_paths (fuel : nat) (src dest : string) (data : Data)
    (force : bool) (exclude ignore : option (list string)) (w : world) :
  ∃ es,
    w_trace (copy self fuel src dest data force exclude ignore w).2 = w_trace w ++ es
    ∧ Forall lists_absolute es.
Proof.
  revert w. change (emits_only lists_absolute
                      (copy self fuel src dest data force exclude ignore)).
  unfold copy.
  apply emits_only_bind; [unfold os_path_exists; repeat emits_step|intros src_exists].
  destruct (negb src_exists); [apply emits_only_raise|].
  apply emits_only_bind; [unfold os_path_exists; repeat emits_step|intros dest_exists].
  apply emits_only_bind.
  { destruct dest_exists; [apply emits_only_ret|]. unfold os_makedirs. repeat emits_step. }
  intros _.
  apply emits_only_bind; [|intros _; apply emits_only_ret].
  apply lists_absolute_walk, fs_abspath_isabs.
Qed.

End ListedPaths.

(** ** The further theorems at concrete inputs *)

Lemma load_sound_witness :
  @load load_env load_handler (Some "/index.html") load_world
  = (Ok ("<h1>{{title}}</h1>", "directory", Some "/work/templates/index.html"),
     World load_fs ∅
       [EvExists "/etc/myapp/templates/index.html";
        EvExists "/work/templates/index.html";
        EvRead "/work/templates/index.html"])
  ∧ ∃ raw,
      @node_at load_env load_fs "/work/templates/index.html" = Some (File raw)
      ∧ "<h1>{{title}}</h1>" = PyStr.universal_newlines raw.
Proof.
  assert (@load load_env load_handler (Some "/index.html") load_world
          = (Ok ("<h1>{{title}}</h1>", "directory", Some "/work/templates/index.html"),
             World load_fs ∅
               [EvExists "/etc/myapp/templates/index.html";
                EvExists "/work/templates/index.html";
                EvRead "/work/templates/index.html"])) as Hrun
    by (vm_compute; reflexivity).
  split; [exact Hrun|].
  destruct (@load_sound load_env load_handler _ _ _ _ _ _ Hrun)
    as (p & _ & _ & [(_ & pre & d & post & raw & _ & _ & Hhit & Hc & Hpath)|(Hty & _)]);
    [|discriminate].
  exists raw. injection Hpath as Hpath. rewrite Hpath. split; [exact Hhit|exact Hc].
Defined.

Lemma load_leading_slash_witness :
  (@load load_env load_handler (Some ("/" +:+ "index.html")) load_world).2
  = (@load load_env load_handler (Some "index.html") load_world).2
  ∧ ((@load load_env load_handler (Some ("/" +:+ "index.html")) load_world).1
     = (@load load_env load_handler (Some "index.html") load_world).1
     ∨ ((@load load_env load_handler (Some "index.html") load_world).1
        = Raise (TemplateNotFoundError "index.html")
        ∧ (@load load_env load_handler (Some ("/" +:+ "index.html")) load_world).1
          = Raise (TemplateNotFoundError ("/" +:+ "index.html")))).
Proof. apply (@load_leading_slash load_env load_handler "index.html" load_world). discriminate. Defined.

Lemma load_trailing_slash_witness :
  @load load_env Cases.slash_handler (Some "index.html") load_world
  = @load load_env load_handler (Some "index.html") load_world.
Proof.
  apply (@load_trailing_slash load_env load_handler Cases.slash_handler
           (Some "index.html") load_world); reflexivity.
Defined.

Lemma load_directory_in_the_way_witness :
  @load load_env load_handler (Some "/") load_world
  = (Raise (IsADirectoryError "/work/templates"),
     World load_fs ∅
       [EvExists "/etc/myapp/templates"; EvExists "/work/templates";
        EvRead "/work/templates"]).
Proof.
  etrans.
  - apply (@load_directory_in_the_way load_env load_handler
             ["/etc/myapp/templates/"] [] "/work/templates" "/" load_world).
    + reflexivity.
    + discriminate.
    + intros d' Hd'. apply list_elem_of_singleton in Hd'. subst d'.
      vm_compute. reflexivity.
    + vm_compute. reflexivity.
  - vm_compute. reflexivity.
Defined.

Lemma matches_any_first_match_witness :
  @matches_any ReModel.re_model (["^(.*)\.png$"] ++ "^(.*)\.jpg$" :: ["(("]) "/a/b.jpg"
  = Some true
  ∧ @matches_any ReModel.re_model (["^(.*)\.png$"] ++ "((" :: ["^(.*)\.jpg$"]) "/a/b.jpg"
    = None.
Proof.
  assert (∀ q, q ∈ ["^(.*)\.png$"] → @re_match ReModel.re_model q "/a/b.jpg" = Some false)
    as Hpre.
  { intros q Hq. apply list_elem_of_singleton in Hq. subst q. vm_compute. reflexivity. }
  split.
  - destruct (@matches_any_first_match ReModel.re_model ["^(.*)\.png$"] ["(("]
                "^(.*)\.jpg$" "/a/b.jpg" Hpre) as (T & _ & _).
    apply T. vm_compute. reflexivity.
  - destruct (@matches_any_first_match ReModel.re_model ["^(.*)\.png$"] ["^(.*)\.jpg$"]
                "((" "/a/b.jpg" Hpre) as (_ & T & _).
    apply T. vm_compute. reflexivity.
Defined.

Lemma copy_file_re_error_witness :
  @copy_file env ReModel.re_model _ engine handler "/work/(src" data false [] []
    "/work/src" "/work/dest" "notes.txt" world1
  = (Raise ReError, log world1 [EvRender "notes.txt"])
  ∧ (@copy_file env ReModel.re_model _ engine handler "/work/src" data true [] ["("]
       "/work/src" "/work/dest" "notes.txt" world1).1
    = Raise ReError.
Proof.
  split.
  - destruct (@copy_file_re_error env ReModel.re_model _ engine handler "/work/(src" data
                [] [] "/work/src" "/work/dest" "notes.txt" false "" world1) as [T _].
    apply T. vm_compute. reflexivity.
  - destruct (@copy_file_re_error env ReModel.re_model _ engine handler "/work/src" data
                [] ["("] "/work/src" "/work/dest" "notes.txt" true "notes.txt" world1)
      as [_ T].
    destruct T as [T _]; [vm_compute; reflexivity|by left|left; vm_compute; reflexivity|].
    exact T.
Defined.

Lemma copy_file_absolute_name_witness :
  @copy_file env ReModel.re_model _ engine handler "/work/src" Cases.data_abs false [] []
    "/work/src" "/work/dest" "{{name}}" Cases.world_abs
  = @copy_file env ReModel.re_model _ engine handler "/work/src" Cases.data_abs false [] []
      "/work/src" "/elsewhere" "{{name}}" Cases.world_abs.
Proof.
  apply (@copy_file_absolute_name env ReModel.re_model _ engine handler "/work/src"
           Cases.data_abs [] [] "/work/src" "/work/dest" "{{name}}" false "/tmp/x"
           "/elsewhere" Cases.world_abs); vm_compute; reflexivity.
Defined.



Lemma copy_sub_dir_destination_witness :
  ∃ fs1,
    @copy_sub_dir env ReModel.re_model _ engine "/work/src" data "/work/dest" "{{name}}" world0
    = (Ok (),
       World fs1 (w_modules world0)
         (w_trace world0 ++ [EvRender "{{name}}";
                             EvExists (OsPath.join "/work/dest" "Acme");
                             EvMakedirs (OsPath.join "/work/dest" "Acme")]))
    ∧ @node_at env fs1 (OsPath.join "/work/dest" "Acme") = Some Dir
    ∧ (∀ a, a ∈ ancestors (OsPath.abspath (@getcwd env) (OsPath.join "/work/dest" "Acme")) →
            @fs_lookup fs1 a = Some Dir)
    ∧ (∀ k n, @fs_lookup (w_fs world0) k = Some n → @fs_lookup fs1 k = Some n).
Proof.
  destruct (@copy_sub_dir_destination env ReModel.re_model _ engine "/work/src" data
              "/work/dest" "{{name}}" "Acme" world0 ltac:(vm_compute; reflexivity)
              ltac:(vm_compute; reflexivity))
    as [_ T].
  apply T.
  - vm_compute. reflexivity.
  - discriminate.
  - intros a c.
    assert (ancestors (OsPath.abspath (@getcwd env) (OsPath.join "/work/dest" "Acme"))
            = ["/work"; "/work/dest"]) as -> by (vm_compute; reflexivity).
    intros Ha.
    apply elem_of_cons in Ha as [->|Ha]; [vm_compute; discriminate|].
    apply list_elem_of_singleton in Ha. subst a. vm_compute. discriminate.
Defined.

Lemma copy_run_order_witness :
  run_copy 1 "src" "dest" true None None world1
  = (for_each [] (@copy_sub_dir env ReModel.re_model _ engine
                    (@fs_abspath env "src") data (@fs_abspath env "dest")) ;;
     for_each ["notes.txt"; "logo.png"]
       (@copy_file env ReModel.re_model _ engine handler (@fs_abspath env "src") data true
          (default [] None) (default [] None) (@fs_abspath env "src") (@fs_abspath env "dest")) ;;
     for_each []
       (λ dirname,
          @walk env ReModel.re_model _ engine handler (@fs_abspath env "src")
            (@fs_abspath env "dest") data true (default [] None) (default [] None) 0
            (OsPath.join (@fs_abspath env "src") dirname)) ;;
     mret true)
      (log world1 [EvExists (@fs_abspath env "src"); EvExists (@fs_abspath env "dest");
                   EvScandir (@fs_abspath env "src")]).
Proof.
  apply (@copy_run_order env ReModel.re_model _ engine handler 0 "src" "dest" data true
           None None [] ["notes.txt"; "logo.png"] world1).
  - vm_compute. eauto.
  - vm_compute. reflexivity.
Defined.

Lemma copy_source_not_a_directory_witness :
  run_copy 1 "src/notes.txt" "dest" false None None world1
  = (Ok true,
     log world1 [EvExists (@fs_abspath env "src/notes.txt"); EvExists (@fs_abspath env "dest");
                 EvScandir (@fs_abspath env "src/notes.txt")]).
Proof.
  destruct (@copy_source_not_a_directory env ReModel.re_model _ engine handler 0
              "src/notes.txt" "dest" data false None None "new {{name}}" world1
              ltac:(vm_compute; reflexivity)) as [T _].
  apply T. vm_compute. eauto.
Defined.

Lemma copy_fuel_enough_witness :
  run_copy 7 "src" "dest" false None None world0
  = run_copy 2 "src" "dest" false None None world0.
Proof.
  apply (@copy_fuel_enough env ReModel.re_model _ engine handler 2 7 "src" "dest" data
           false None None world0).
  - vm_compute. discriminate.
  - lia.
Defined.

Lemma default_exclude_covers_witness :
  @matches_any ReModel.re_model
    (_meta_exclude (__init__ [] "" Meta_default) ++ ["(("])
    (@fs_abspath env (OsPath.join "/work/src" "logo.png")) = Some true
  ∧ @copy_file env ReModel.re_model _ engine (__init__ [] "" Meta_default) "/work/src" data
      false ["(("] [] "/work/src" "/work/dest" "logo.png" world1
    = (Ok (),
       World (<["/work/dest/logo.png" := File "PNG {{name}}"]> fs1) ∅
         [EvRender "logo.png"; EvExists "/work/dest/logo.png";
          EvIsdir "/work/dest/logo.png";
          EvCopyfile "/work/src/logo.png" "/work/dest/logo.png"]).
Proof.
  destruct (@default_exclude_covers env _ engine [] "" "/work/src" data false ["(("] []
              "/work/src" "/work/dest" "logo.png" "logo.png" "/work/src/logo" "png"
              "PNG {{name}}" world1) as [T1 T2].
  - vm_compute. set_solver.
  - vm_compute. repeat (apply Forall_cons_2; [discriminate|]). apply Forall_nil_2.
  - vm_compute. reflexivity.
  - split; [exact T1|].
    etrans; [apply T2|vm_compute; reflexivity].
    + vm_compute. reflexivity.
    + right. vm_compute. reflexivity.
    + vm_compute. reflexivity.
    + vm_compute. reflexivity.
    + vm_compute. reflexivity.
    + vm_compute. discriminate.
Defined.

Lemma literal_source_keeps_names_witness :
  @re_sub_empty ReModel.re_model "/work/src" "Acme" = Some "Acme"
  ∧ @re_sub_empty ReModel.re_model "/work/src" ("/work/src" +:+ "/Acme") = Some "/Acme".
Proof.
  destruct (literal_source_keeps_names "/work/src" "Acme" "/Acme"
              ltac:(vm_compute; reflexivity) ltac:(vm_compute; reflexivity)) as [T1 T2].
  split; [apply T1|apply T2]; vm_compute; reflexivity.
Defined.

Lemma copy_dir_mirrors_witness :
  @copy_dir env ReModel.re_model _ engine handler "/work/src" "/work/dest" data false [] []
    "/work/src/{{name}}" [] ["readme.txt"] world0
  = (for_each [] (@copy_sub_dir env ReModel.re_model _ engine "/work/src" data
                    (OsPath.join "/work/dest" "Acme")) ;;
     for_each ["readme.txt"]
       (@copy_file env ReModel.re_model _ engine handler "/work/src" data false [] []
          "/work/src/{{name}}" (OsPath.join "/work/dest" "Acme")))
      (log world0 [EvRender "/work/src/{{name}}"]).
Proof.
  apply (@copy_dir_mirrors env _ engine handler "/work/src" "/work/dest" data false [] []
           "/work/src/{{name}}" "Acme" [] ["readme.txt"] world0);
    first [discriminate|vm_compute; reflexivity].
Defined.
